(** * Replay trajectory classification: transition models and classifier pipeline

    A shallow embedding of [state_transition.py] and [classifier.py].

    Floating-point arrays are idealised as arrays of exact rationals ([Qc],
    rationals in lowest terms, so that equal numbers are equal terms).  NumPy's
    only non-finite values that matter to this code, the NaN of [0/0], are
    written out where the source handles them.  Arrays are lists (a matrix is
    the list of its rows); Python exceptions are the constructors of [exn]. *)

From Stdlib Require Import QArith Qcanon.
From stdpp Require Import base list gmap strings.

Local Open Scope Qc_scope.

(** ** Python exceptions and fallible results *)

Inductive exn :=
  | ValueError | IndexError | KeyError | AttributeError | TypeError
  | ZeroDivisionError | NotImplementedError
  | AxisError (* numpy's AxisError *)
  | LinAlgError (* numpy.linalg.LinAlgError *).

Inductive result (A : Type) :=
  | Ok (a : A)
  | Raise (e : exn).
Arguments Ok {A} a.
Arguments Raise {A} e.

Definition rbind {A B} (m : result A) (f : A -> result B) : result B :=
  match m with
  | Ok a => f a
  | Raise e => Raise e
  end.

#[global] Instance exn_eq_dec : EqDecision exn.
Proof. solve_decision. Defined.
#[global] Instance result_eq_dec `{EqDecision A} : EqDecision (result A).
Proof. solve_decision. Defined.

#[global] Instance result_ret : MRet result := fun A a => Ok a.
#[global] Instance result_fmap : FMap result := fun A B f m => rbind m (fun a => Ok (f a)).
#[global] Instance result_bind : MBind result := fun A B f m => rbind m f.

(** Exact numbers written as integers and fractions. *)
Definition qz (z : Z) : Qc := Q2Qc (inject_Z z).
Definition qfrac (n : Z) (d : positive) : Qc := Q2Qc (n # d).

(** ** NumPy arrays of exact numbers *)

Module Np.

Abbreviation mat := (list (list Qc)).

Definition of_nat (n : nat) : Qc := qz (Z.of_nat n).

(** A float ndarray of one or two dimensions; a two-dimensional array
    records its number of columns, which an array without rows still has. *)
Inductive ndarray :=
  | Arr1 (v : list Qc)
  | Arr2 (n_cols : nat) (rows : list (list Qc)).

(** [a.shape[0]] *)
Definition shape0 (a : ndarray) : nat :=
  match a with
  | Arr1 v => length v
  | Arr2 _ rows => length rows
  end.

(** [np.product(shape)] *)
Definition product (shape : list nat) : nat := foldr Nat.mul 1%nat shape.

(** [v.sum()] *)
Definition sum (v : list Qc) : Qc := foldr Qcplus 0 v.

(** [x.sum(axis=1)] *)
Definition row_sums (x : mat) : list Qc := map sum x.

(** [np.zeros((n, m))], [np.ones((n, m))], [np.identity(n)] *)
Definition zeros (n m : nat) : mat := replicate n (replicate m 0).
Definition ones (n m : nat) : mat := replicate n (replicate m 1).
Definition identity (n : nat) : mat :=
  map (fun i => map (fun j => if decide (i = j) then 1 else 0) (seq 0 n))
      (seq 0 n).

(** An array is [n] by [m] when it has [n] rows of [m] entries each. *)
Definition has_shape (n m : nat) (x : mat) : Prop :=
  length x = n /\ Forall (fun row => length row = m) x.

(** A bool ndarray of one or two dimensions. *)
Inductive bool_ndarray :=
  | Bool1 (b : list bool)
  | Bool2 (b : list (list bool)).

(** [a.ravel(order='F')]: column-major flattening, the first index varies
    fastest. *)
Definition ravel_F (a : bool_ndarray) : list bool :=
  match a with
  | Bool1 b => b
  | Bool2 rows =>
      flat_map (fun j => map (fun row => nth j row false) rows)
               (seq 0 (length (hd [] rows)))
  end.

(** [x[~keep] = 0.0]: the rows whose flag is false are overwritten with 0.
    NumPy refuses a boolean index whose length is not the number of rows. *)
Definition zero_rows (keep : list bool) (x : mat) : result mat :=
  if decide (length keep = length x)
  then Ok (zip_with (fun (k : bool) row => if k then row else map (fun _ => 0) row)
                    keep x)
  else Raise IndexError.

(** [x[:, ~keep] = 0.0] *)
Definition zero_cols (keep : list bool) (x : mat) : result mat :=
  if forallb (fun row => bool_decide (length keep = length row)) x
  then Ok (map (fun row => zip_with (fun (k : bool) a => if k then a else 0) keep row) x)
  else Raise IndexError.

(** [x[keep]] for a boolean index over the first axis. *)
Definition bool_index {A} (keep : list bool) (x : list A) : result (list A) :=
  if decide (length keep = length x)
  then Ok (fst <$> filter (fun p => snd p = true) (zip x keep))
  else Raise IndexError.

(** [a[keep]] for an array of one or two dimensions. *)
Definition ndarray_bool_index (keep : list bool) (a : ndarray) : result ndarray :=
  match a with
  | Arr1 v => Arr1 <$> bool_index keep v
  | Arr2 d rows => Arr2 d <$> bool_index keep rows
  end.

(** [np.asarray(flags).squeeze()] of a one-dimensional boolean array: the
    axis of a single flag is squeezed away, which leaves a 0-d boolean; any
    other number of flags stays a 1-d mask. *)
Inductive bool_mask :=
  | Mask0 (flag : bool)
  | Mask1 (flags : list bool).

Definition squeeze_flags (flags : list bool) : bool_mask :=
  match flags with
  | [flag] => Mask0 flag
  | _ => Mask1 flags
  end.

(** [a[mask]] for a squeezed mask.  A 1-d mask selects along the first
    axis.  A 0-d boolean is accepted for every array: the result has a new
    first axis, which holds [a] once for [True] and is empty for [False]. *)
Inductive indexed (A : Type) :=
  | Selected (a : A)
  | Lifted (copies : list A).
Arguments Selected {A} a.
Arguments Lifted {A} copies.

Definition mask_index {A} (select : list bool -> A -> result A)
    (mask : bool_mask) (a : A) : result (indexed A) :=
  match mask with
  | Mask0 flag => Ok (Lifted (if flag then [a] else []))
  | Mask1 flags => Selected <$> select flags a
  end.

(** Matrix product: entry [(i, j)] is the dot product of row [i] of [a]
    with column [j] of [b]. *)
Definition dot (u v : list Qc) : Qc := sum (zip_with Qcmult u v).
Definition col (b : mat) (j : nat) : list Qc := map (fun row => nth j row 0) b.
Definition matmul (a b : mat) : mat :=
  map (fun row => map (fun j => dot row (col b j)) (seq 0 (length (hd [] b)))) a.

(** [np.linalg.matrix_power(m, k)] for an integer [k >= 0]: the identity
    for [k = 0], [m] itself for [k = 1], and the [k]-fold product otherwise.
    NumPy groups the products by repeated squaring; in exact arithmetic the
    grouping does not change the result.  The exponent is a natural number:
    a negative exponent, for which NumPy first inverts [m], is not modelled,
    and every statement about a replay speed is about a replay speed
    [>= 0]. *)
Fixpoint power_succ (m : mat) (k : nat) : mat :=
  match k with
  | O => m
  | S k' => matmul m (power_succ m k')
  end.
Definition matrix_power (m : mat) (k : nat) : mat :=
  match k with
  | O => identity (length m)
  | S k' => power_succ m k'
  end.

(** [np.histogramdd(sample, bins=edges)] with explicit bin edges.

    Along one axis the bin of [x] is found with
    [searchsorted(edges, x, side='right')], which for sorted edges counts the
    edges [<= x]; a value equal to the last edge is moved into the last bin;
    values left of the first edge or right of the last one are outliers and
    are not counted. *)
Definition bin_index (edges : list Qc) (x : Qc) : option nat :=
  let c := length (filter (fun e => e <= x) edges) in
  let c := if decide (last edges = Some x) then (c - 1)%nat else c in
  if decide (1 <= c /\ c <= length edges - 1)%nat then Some (c - 1)%nat else None.

(** The bins of one sample along every axis, when it is no outlier. *)
Definition multi_index (bins : list (list Qc)) (s : list Qc) : option (list nat) :=
  mapM (fun p => bin_index (fst p) (snd p)) (zip bins s).

(** Position of a multi-index in the column-major (order='F') flattening
    of an array of the given shape. *)
Fixpoint flat_F (shape idx : list nat) : nat :=
  match shape, idx with
  | n :: shape', i :: idx' => (i + n * flat_F shape' idx')%nat
  | _, _ => 0%nat
  end.

Definition non_decreasing (edges : list Qc) : bool :=
  forallb (fun p => bool_decide (fst p <= snd p)) (zip edges (drop 1 edges)).

(** The histogram of [sample], an array with [n_dims] columns, as its shape
    and its counts in column-major order.  NumPy requires one edge array per
    column, one ([range]) entry per column when a range is given, and
    non-decreasing edges; the range itself is not used when the edges are
    explicit. *)
Definition histogramdd {R} (n_dims : nat) (sample : list (list Qc))
    (bins : list (list Qc)) (range : option (list R))
    : result (list nat * list Qc) :=
  if negb (bool_decide (length bins = n_dims)) then Raise ValueError
  else if match range with
          | Some r => negb (bool_decide (length r = n_dims))
          | None => false
          end
  then Raise ValueError
  else if negb (forallb non_decreasing bins) then Raise ValueError
  else
    let shape := map (fun e => (length e - 1)%nat) bins in
    let cells := (fun s => flat_F shape <$> multi_index bins s) <$> sample in
    Ok (shape,
        map (fun f => of_nat (length (filter (fun c => c = Some f) cells)))
            (seq 0 (product shape))).

(** [flat.reshape((n, m), order='F')]: entry [(r, c)] is element
    [r + n * c]; the sizes have to agree. *)
Definition reshape_F (n m : nat) (flat : list Qc) : result mat :=
  if decide (length flat = n * m)%nat
  then Ok (map (fun r => map (fun c => nth (r + n * c) flat 0) (seq 0 m)) (seq 0 n))
  else Raise ValueError.

End Np.

(** ** Helpers of [core.py] and [initial_conditions.py] used by the two
    source files *)

Module Core.
Import Np.

(** Modelled from the spec: [atleast_2d] of core.py, which is not among the
    source files.  "Guarantees a 2-D (time x dimension) shape, adding a
    trailing singleton dimension for 1-D position input." *)
Definition atleast_2d (position : ndarray) : ndarray :=
  match position with
  | Arr1 v => Arr2 1 (map (fun x => [x]) v)
  | Arr2 d rows => Arr2 d rows
  end.

(** Modelled from the spec: [get_centers] of core.py, which is not among
    the source files.  "Returns the midpoint of each consecutive pair of bin
    edges." *)
Definition get_centers (edges : list Qc) : list Qc :=
  zip_with (fun a b => (a + b) / 2) edges (drop 1 edges).

(** Modelled from the spec: [mask] of core.py, which is not among the
    source files.  "Zeroes (or otherwise nulls) entries of a bins-indexed
    array at positions where the interior flag is false, leaving interior
    entries unchanged."  The array has the axes (time, state, bin, 1). *)
Definition mask (value : list (list mat)) (is_interior_flat : list bool)
    : list (list mat) :=
  map (map (imap (fun b entry =>
                    if decide (is_interior_flat !! b = Some false)
                    then map (fun _ => 0) entry else entry)))
      value.

(** *** The inference core

    A slice is the joint distribution over (regime, bin) at one time, a
    states-by-bins matrix. *)

Definition at2 (m : mat) (i j : nat) : Qc := nth j (nth i m []) 0.
Definition at4 (c : list (list mat)) (s s' x x' : nat) : Qc :=
  at2 (nth s' (nth s c []) []) x x'.
Definition n_bins_of (slice : mat) : nat := length (hd [] slice).

(** "Normalized to sum 1 over all (s, x)". *)
Definition normalize_to_probability (slice : mat) : mat :=
  let total := sum (map sum slice) in
  map (map (fun a => a / total)) slice.

(** "prior_t(s',x') = sum over (s,x) of posterior_(t-1)(s,x) * D[s,s'] *
    C[s,s'](x,x')". *)
Definition predictive_prior (posterior : mat) (continuous : list (list mat))
    (discrete : mat) : mat :=
  let states := seq 0 (length posterior) in
  let bins := seq 0 (n_bins_of posterior) in
  map (fun s' => map (fun x' =>
         sum (map (fun s => sum (map (fun x =>
                at2 posterior s x * at2 discrete s s' * at4 continuous s s' x x')
                bins)) states))
         bins) states.

Definition times (a b : mat) : mat := zip_with (zip_with Qcmult) a b.

Fixpoint causal_steps (previous : mat) (continuous : list (list mat))
    (discrete : mat) (likelihood : list mat) : list mat :=
  match likelihood with
  | [] => []
  | l_t :: rest =>
      let posterior :=
        normalize_to_probability
          (times (predictive_prior previous continuous discrete) l_t) in
      posterior :: causal_steps posterior continuous discrete rest
  end.

(** Modelled from the spec: the causal (forward) recursion of core.py,
    which is not among the source files.  "Initial step: posterior_0(s,x)
    proportional to initial_conditions(s,x) * L_0(s,x), normalized to sum 1.
    Subsequent steps: predictive prior ...; then posterior_t(s',x')
    proportional to prior_t(s',x') * L_t(s',x'), normalized to sum 1 over
    all (s',x')." *)
Definition causal_recursion (initial_conditions : mat)
    (continuous : list (list mat)) (discrete : mat) (likelihood : list mat)
    : list mat :=
  match likelihood with
  | [] => []
  | l_0 :: rest =>
      let posterior := normalize_to_probability (times initial_conditions l_0) in
      posterior :: causal_steps posterior continuous discrete rest
  end.

(** "acausal_t(s,x) = causal_t(s,x) * sum over (s',x') of [ D[s,s'] *
    C[s,s'](x,x') * acausal_(t+1)(s',x') / prior_(t+1)(s',x') ], with terms
    where the predictive prior is zero contributing zero (no division
    performed).  Result re-normalized to sum 1 per time step." *)
Definition smooth_step (causal_t acausal_next : mat)
    (continuous : list (list mat)) (discrete : mat) : mat :=
  let prior := predictive_prior causal_t continuous discrete in
  let states := seq 0 (length causal_t) in
  let bins := seq 0 (n_bins_of causal_t) in
  normalize_to_probability
    (map (fun s => map (fun x =>
       at2 causal_t s x *
       sum (map (fun s' => sum (map (fun x' =>
              if decide (at2 prior s' x' = 0) then 0
              else at2 discrete s s' * at4 continuous s s' x x'
                   * at2 acausal_next s' x' / at2 prior s' x')
              bins)) states))
       bins) states).

(** Modelled from the spec: the acausal (fixed-interval smoothing)
    recursion of core.py, which is not among the source files.  "Terminal
    condition: acausal_T = causal_T.  Working backward from t = T-1 to 0:
    recompute the one-step-ahead predictive prior from causal_t exactly as in
    the forward pass; then acausal_t(s,x) = ..." *)
Fixpoint acausal_recursion (causal : list mat) (continuous : list (list mat))
    (discrete : mat) : list mat :=
  match causal with
  | [] => []
  | causal_t :: later =>
      match acausal_recursion later continuous discrete with
      | [] => [causal_t]
      | (acausal_next :: _) as smoothed =>
          smooth_step causal_t acausal_next continuous discrete :: smoothed
      end
  end.

(** The posteriors are stored with the axes (time, state, bin, 1) and
    the initial conditions with the axes (state, bin, 1). *)
Definition unit_axis_on (slice : mat) : list mat := map (map (fun a => [a])) slice.
Definition unit_axis_off (slice : list mat) : mat := map (map (fun e => hd 0 e)) slice.

Definition _causal_classify (initial_conditions : list mat)
    (continuous_state_transition : list (list mat))
    (discrete_state_transition : mat) (likelihood : list (list mat))
    : list (list mat) :=
  unit_axis_on <$>
    causal_recursion (unit_axis_off initial_conditions)
      continuous_state_transition discrete_state_transition
      (unit_axis_off <$> likelihood).

Definition _acausal_classify (causal_posterior : list (list mat))
    (continuous_state_transition : list (list mat))
    (discrete_state_transition : mat) : list (list mat) :=
  unit_axis_on <$>
    acausal_recursion (unit_axis_off <$> causal_posterior)
      continuous_state_transition discrete_state_transition.

End Core.

Module InitialConditions.
Import Np.

(** Modelled from the spec: [uniform_on_track] of initial_conditions.py,
    which is not among the source files.  "Returns a probability
    distribution uniform over interior bins (equal mass per interior bin,
    zero elsewhere), summing to 1."  The mask is flattened in column-major
    order, as everywhere in the source files. *)
Definition uniform_on_track (place_bin_centers : mat)
    (is_track_interior : bool_ndarray) : list Qc :=
  let flat := ravel_F is_track_interior in
  let k := length (filter (fun b => b = true) flat) in
  map (fun b : bool => if b then 1 / of_nat k else 0) flat.

End InitialConditions.

(** ** Labelled results: the part of xarray that the classifiers use *)

Module Xr.
Import Np.

(** An array of any number of dimensions, as nested lists. *)
#[local] Unset Elimination Schemes.
Inductive nd :=
  | Leaf (x : Qc)
  | Node (xs : list nd).
#[local] Set Elimination Schemes.

#[global] Instance nd_eq_dec : EqDecision nd.
Proof.
  refine (fix go (a b : nd) : Decision (a = b) :=
            match a, b with
            | Leaf x, Leaf y => cast_if (decide (x = y))
            | Node xs, Node ys => cast_if (@list_eq_dec _ go xs ys)
            | _, _ => right _
            end); congruence.
Defined.

Definition of_vec (v : list Qc) : nd := Node (Leaf <$> v).
Definition of_mat (m : mat) : nd := Node (of_vec <$> m).
Definition of_arr3 (a : list mat) : nd := Node (of_mat <$> a).
Definition of_arr4 (a : list (list mat)) : nd := Node (of_arr3 <$> a).

Fixpoint nd_shape (a : nd) : list nat :=
  match a with
  | Leaf _ => []
  | Node xs => length xs :: match xs with
                            | [] => []
                            | x :: _ => nd_shape x
                            end
  end.

(** Entry-wise sum of two arrays of the same shape. *)
Fixpoint nd_add (a b : nd) {struct a} : nd :=
  match a, b with
  | Leaf x, Leaf y => Leaf (x + y)
  | Node xs, Node ys =>
      Node ((fix go (xs ys : list nd) {struct xs} : list nd :=
               match xs, ys with
               | x :: xs', y :: ys' => nd_add x y :: go xs' ys'
               | _, _ => []
               end) xs ys)
  | _, _ => a
  end.

(** [a.sum(axis=k)] *)
Fixpoint nd_sum_axis (k : nat) (a : nd) : nd :=
  match a with
  | Leaf x => Leaf x
  | Node xs =>
      match k with
      | O => match xs with
             | [] => Leaf 0
             | x :: xs' => fold_left nd_add xs' x
             end
      | S k' => Node (map (nd_sum_axis k') xs)
      end
  end.

Record data_array := DataArray { da_dims : list string; da_values : nd }.
#[global] Instance data_array_eq_dec : EqDecision data_array.
Proof. solve_decision. Defined.

Inductive coord :=
  | CoordNum (v : list Qc)
  | CoordStr (v : list string).

#[global] Instance coord_eq_dec : EqDecision coord.
Proof. solve_decision. Defined.

Definition coord_length (c : coord) : nat :=
  match c with
  | CoordNum v => length v
  | CoordStr v => length v
  end.

Record dataset := Dataset {
  data_vars : list (string * data_array);
  coords : list (string * coord);
}.

#[global] Instance dataset_eq_dec : EqDecision dataset.
Proof. solve_decision. Defined.

(** The dimension names of a dataset: those of its variables and of its
    (index) coordinates. *)
Definition dataset_dims (ds : dataset) : list string :=
  flat_map (fun kv => da_dims (snd kv)) (data_vars ds) ++ map fst (coords ds).

(** The size of dimension [d] of a variable, if it has that dimension. *)
Definition dim_size (da : data_array) (d : string) : option nat :=
  (fun found : nat * (string * nat) => snd (snd found)) <$>
    list_find (fun p => fst p = d) (zip (da_dims da) (nd_shape (da_values da))).

(** [xr.Dataset(data_vars, coords)]: every variable needs one name per axis,
    and a coordinate has to be as long as the dimension it labels. *)
Definition xr_Dataset (vars : list (string * data_array))
    (cs : list (string * coord)) : result dataset :=
  if forallb (fun kv =>
        bool_decide (length (da_dims (snd kv)) = length (nd_shape (da_values (snd kv))))
        && forallb (fun c =>
             match dim_size (snd kv) (fst c) with
             | Some n => bool_decide (coord_length (snd c) = n)
             | None => true
             end) cs) vars
  then Ok (Dataset vars cs)
  else Raise ValueError.

(** A variable summed over those of its axes that are named in [dims]
    (the later axes first, so that the positions of the others stay). *)
Definition reduce_var (dims : list string) (da : data_array) : data_array :=
  let axes := filter (fun i => nth i (da_dims da) ""%string ∈ dims)
                     (seq 0 (length (da_dims da))) in
  DataArray (filter (fun d => d ∉ dims) (da_dims da))
            (foldr nd_sum_axis (da_values da) axes).

Definition reduce (dims : list string) (ds : dataset) : dataset :=
  Dataset (map (fun kv => (fst kv, reduce_var dims (snd kv))) (data_vars ds))
          (filter (fun c => fst c ∉ dims) (coords ds)).

(** [ds.sum(dims)]: xarray raises ValueError when the dataset lacks one of
    the dimensions. *)
Definition dataset_sum (dims : list string) (ds : dataset) : result dataset :=
  if decide (Forall (fun d => d ∈ dataset_dims ds) dims)
  then Ok (reduce dims ds)
  else Raise ValueError.

End Xr.

(** [scipy.stats.multivariate_normal], an external library.
    [multivariate_normal(mean=mean, cov=cov)] raises when scipy rejects the
    parameters (a covariance that is not positive semidefinite, that is
    singular, or whose dimension is not that of the mean):
    [multivariate_normal_error mean cov] is the exception then, and [None]
    when the distribution is built.  [multivariate_normal_pdf mean cov x]
    stands for the density [multivariate_normal(mean=mean, cov=cov).pdf(x)]
    at one point. *)
Class ScipyStats := {
  covariance : Type;
  multivariate_normal_error : list Qc -> covariance -> option exn;
  multivariate_normal_pdf : list Qc -> covariance -> list Qc -> Qc;
}.

(** ** state_transition.py *)

Module StateTransition.
Import Np Core.

(** In-place true division followed by [x[np.isnan(x)] = 0].  For a row
    whose sum is zero NumPy divides by zero: [0/0] is NaN, which the second
    statement overwrites with 0.  (A nonzero entry over a zero sum would be
    an infinity; it needs entries of both signs in one row, which no caller
    in this file produces: histogram counts, densities, ones and identity
    matrices are all non-negative.) *)
Definition divide_nan_to_zero (a s : Qc) : Qc :=
  if decide (s = 0) then 0 else a / s.

Definition _normalize_row_probability (x : mat) : mat :=
  map (fun row => map (fun a => divide_nan_to_zero a (sum row)) row) x.

(** [movement_bins[movement_bins.sum(axis=1) == 0] = 1 / n_bins]: the rows
    that sum to 0 are overwritten.  [n_bins] is a Python int and the
    right-hand side is evaluated first, so an array without rows is a
    division by zero. *)
Definition _fix_zero_bins (movement_bins : mat) : result mat :=
  let n_bins := length movement_bins in
  if decide (n_bins = 0%nat) then Raise ZeroDivisionError
  else
    Ok (map (fun row => if decide (sum row = 0)
                        then map (fun _ => 1 / of_nat n_bins) row else row)
            movement_bins).

(** [empirical_movement(position, edges, is_training, replay_speed,
    position_extent)] *)
Definition empirical_movement {R} (position : ndarray) (edges : list (list Qc))
    (is_training : option (list bool)) (replay_speed : nat)
    (position_extent : option (list R)) : result mat :=
  let is_training :=
    match is_training with
    | None => replicate (shape0 position) true
    | Some m => m
    end in
  match atleast_2d position with
  | Arr1 _ => Raise TypeError
  | Arr2 n_position_dims rows =>
      position ← bool_index is_training rows;
      '(original_shape, movement_bins) ←
        histogramdd (n_position_dims + n_position_dims)
          (zip_with app (drop 1 position) (take (length position - 1) position))
          (edges ++ edges) position_extent;
      let shape_2d := product (take n_position_dims original_shape) in
      movement_bins ← reshape_F shape_2d shape_2d movement_bins;
      let movement_bins := _normalize_row_probability movement_bins in
      Ok (matrix_power movement_bins replay_speed)
  end.

Section RandomWalk.
Context `{ScipyStats}.

(** The bins-by-bins array whose column [b] is the density centred at bin
    [b], evaluated at every bin centre. *)
Definition gaussian_kernel (place_bin_centers : mat) (cov : covariance) : mat :=
  map (fun x => map (fun bin => multivariate_normal_pdf bin cov x) place_bin_centers)
      place_bin_centers.

(** [np.stack([multivariate_normal(mean=bin, cov=covariance)
                .pdf(place_bin_centers) for bin in place_bin_centers], axis=1)].
    The distributions are built bin after bin, and the first one that scipy
    rejects raises.  Without a bin there is nothing to stack (ValueError).
    With a single bin [pdf] is evaluated at one point and scipy squeezes its
    result to a scalar, for which [axis=1] is out of bounds (AxisError).
    With two or more bins every [pdf] is a vector with one density per bin
    centre, and the stack is the array above. *)
Definition stacked_densities (place_bin_centers : mat) (cov : covariance)
    : result mat :=
  _ ← mapM (fun bin => match multivariate_normal_error bin cov with
                        | Some e => Raise e
                        | None => Ok tt
                        end) place_bin_centers;
  match place_bin_centers with
  | [] => Raise ValueError
  | [_] => Raise AxisError
  | _ => Ok (gaussian_kernel place_bin_centers cov)
  end.

(** [random_walk(place_bin_centers, covariance, replay_speed)] *)
Definition random_walk (place_bin_centers : mat) (cov : covariance)
    (replay_speed : nat) : result mat :=
  transition_matrix ← stacked_densities place_bin_centers cov;
  let transition_matrix := _normalize_row_probability transition_matrix in
  Ok (matrix_power transition_matrix replay_speed).

(** [random_walk_with_absorbing_boundaries(place_bin_centers, covariance,
    is_track_interior, replay_speed)] *)
Definition random_walk_with_absorbing_boundaries (place_bin_centers : mat)
    (cov : covariance) (is_track_interior : bool_ndarray) (replay_speed : nat)
    : result mat :=
  transition_matrix ← stacked_densities place_bin_centers cov;
  let is_track_interior := ravel_F is_track_interior in
  transition_matrix ← zero_rows is_track_interior transition_matrix;
  transition_matrix ← zero_cols is_track_interior transition_matrix;
  let transition_matrix := _normalize_row_probability transition_matrix in
  Ok (matrix_power transition_matrix replay_speed).
End RandomWalk.

(** [uniform_state_transition(place_bin_centers, is_track_interior)] *)
Definition uniform_state_transition
    (place_bin_centers : mat) (is_track_interior : bool_ndarray) : result mat :=
  let n_bins := length place_bin_centers in
  let transition_matrix := ones n_bins n_bins in
  let is_track_interior := ravel_F is_track_interior in
  transition_matrix ← zero_rows is_track_interior transition_matrix;
  transition_matrix ← zero_cols is_track_interior transition_matrix;
  Ok (_normalize_row_probability transition_matrix).

(** [identity(place_bin_centers, is_track_interior)] *)
Definition identity
    (place_bin_centers : mat) (is_track_interior : bool_ndarray) : result mat :=
  let n_bins := length place_bin_centers in
  let transition_matrix := Np.identity n_bins in
  let is_track_interior := ravel_F is_track_interior in
  transition_matrix ← zero_rows is_track_interior transition_matrix;
  transition_matrix ← zero_cols is_track_interior transition_matrix;
  Ok (_normalize_row_probability transition_matrix).

(** [np.identity(n_states)] *)
Definition identity_discrete (n_states : nat) : mat := Np.identity n_states.

(** The diagonal of [np.identity(n_states) * diag] is kept and every
    off-diagonal entry is overwritten with [(1 - diag) / (n_states - 1)].
    [diag] is a Python float, as the classifiers' default [1 - 1E-2] is: for
    [n_states = 1] the division of that float by the integer 0 raises.  (A
    NumPy scalar [diag] would divide to [inf] with a warning instead; the
    statements below about this function take [n_states >= 2], where the two
    agree.) *)
Definition strong_diagonal_discrete (n_states : nat) (diag : Qc) : result mat :=
  if decide (n_states = 1%nat) then Raise ZeroDivisionError
  else
    let off := (1 - diag) / qz (Z.of_nat n_states - 1) in
    Ok (map (fun i => map (fun j => if decide (i = j) then 1 * diag else off)
                          (seq 0 n_states))
            (seq 0 n_states)).

(** [np.ones((n_states, n_states)) / n_states] *)
Definition uniform_discrete (n_states : nat) : mat :=
  map (map (fun a => a / of_nat n_states)) (ones n_states n_states).

End StateTransition.

(** ** classifier.py *)

Import Np.

(** What [get_track_grid] returns, in the order of the tuple. *)
Record track_grid {Obj : Type} := TrackGrid {
  tg_place_bin_centers : ndarray;
  tg_place_bin_edges : ndarray;
  tg_is_track_interior : bool_ndarray;
  tg_distance_between_nodes : Obj;
  tg_place_bin_center_ind_to_node : Obj;
  tg_place_bin_center_2D_position : Obj;
  tg_place_bin_edges_2D_position : Obj;
  tg_centers_shape : list nat;
  tg_edges : list (list Qc);
  tg_track_graph : Obj;
  tg_place_bin_center_ind_to_edge_id : Obj;
  tg_nodes_df : Obj;
}.
Arguments track_grid Obj : clear implicits.

(** The grid construction of core.py and the observation models of
    spiking_likelihood.py and multiunit_likelihood.py are not among the source
    files, and no claim below is about what they compute: the classifiers are
    parametric in them.  They return fresh values and may raise.  [Obj] is the
    type of the objects this development does not look into (track graphs,
    density models, fitted place fields).  The two functions that fit an
    observation model are given the position and the observations as the
    classifier indexes them with the squeezed training mask. *)
Class Library := {
  Obj : Type;
  get_grid : ndarray -> Qc -> option (list (option (Qc * Qc))) -> bool ->
             result (list (list Qc) * ndarray * ndarray * list nat);
  get_track_interior : ndarray -> list (list Qc) -> result bool_ndarray;
  get_track_grid : Obj -> option Obj -> option Obj -> Obj -> Qc ->
                   result (track_grid Obj);
  estimate_place_fields :
    indexed ndarray -> indexed mat -> ndarray -> Qc -> Qc -> result Obj;
  estimate_spiking_likelihood : mat -> Obj -> bool_ndarray -> result mat;
  fit_multiunit_likelihood :
    indexed ndarray -> indexed (list mat) -> ndarray -> Obj -> Obj -> Obj ->
    option Obj -> list bool -> result (Obj * Obj * Obj * Obj);
  estimate_multiunit_likelihood :
    list mat -> ndarray -> Obj -> Obj -> Obj -> Obj -> list bool -> result mat;
}.

Module Classifier.
Import Np Core InitialConditions Xr.

Abbreviation loc := nat.

Section Classifiers.
Context `{ScipyStats} `{Library}.

(** *** Objects

    A classifier is its attribute dictionary.  Numbers, strings, tuples and
    the configuration values are immutable and stored as they are; arrays
    and fitted models are mutable objects, stored by reference into a heap,
    so that two names for one array see each other's in-place writes. *)

Inductive pyval :=
  | PNone
  | PBool (b : bool)
  | PInt (n : nat)
  | PFloat (q : Qc)
  | PStr (s : string)
  | PShape (shape : list nat)
  | PRange (r : list (option (Qc * Qc)))
  | PTypes (t : list (list string))
  | PCov (c : covariance)
  | PObj (o : Obj)
  | PRef (l : loc).

Inductive pyobj :=
  | OArr (a : ndarray)
  | OMat (a : mat)
  | OArr3 (a : list mat)
  | OArr4 (a : list (list mat))
  | OArrays (a : list (list Qc))
  | OBool (a : bool_ndarray)
  | OOpaque (o : Obj).

Record world := World {
  attrs : gmap string pyval;
  heap : gmap loc pyobj;
}.

(** A method runs in a world, returns or raises, and leaves a world. *)
Definition M (A : Type) : Type := world -> result A * world.

#[global] Instance M_ret : MRet M := fun A a w => (Ok a, w).
#[global] Instance M_bind : MBind M := fun A B f m w =>
  match m w with
  | (Ok a, w') => f a w'
  | (Raise e, w') => (Raise e, w')
  end.

Definition raise {A} (e : exn) : M A := fun w => (Raise e, w).
Definition lift {A} (r : result A) : M A := fun w => (r, w).

(** [self.name] and [self.name = v] *)
Definition getattr (name : string) : M pyval := fun w =>
  match attrs w !! name with
  | Some v => (Ok v, w)
  | None => (Raise AttributeError, w)
  end.
Definition setattr (name : string) (v : pyval) : M unit := fun w =>
  (Ok tt, World (<[name := v]> (attrs w)) (heap w)).

(** A new object, a read through a reference, and an in-place write. *)
Definition alloc (o : pyobj) : M loc := fun w =>
  let l := fresh (dom (heap w)) in
  (Ok l, World (attrs w) (<[l := o]> (heap w))).
Definition load (l : loc) : M pyobj := fun w =>
  match heap w !! l with
  | Some o => (Ok o, w)
  | None => (Raise TypeError, w)
  end.
Definition store (l : loc) (o : pyobj) : M unit := fun w =>
  (Ok tt, World (attrs w) (<[l := o]> (heap w))).

(** [self.name = <new object>] *)
Definition setattr_new (name : string) (o : pyobj) : M unit :=
  l ← alloc o; setattr name (PRef l).

(** Attribute reads at the type the code uses them at; Python is dynamically
    typed, a value of another type is a TypeError here. *)
Definition attr_bool (name : string) : M bool :=
  v ← getattr name; match v with PBool b => mret b | _ => raise TypeError end.
Definition attr_int (name : string) : M nat :=
  v ← getattr name; match v with PInt n => mret n | _ => raise TypeError end.
Definition attr_float (name : string) : M Qc :=
  v ← getattr name; match v with PFloat q => mret q | _ => raise TypeError end.
Definition attr_str (name : string) : M string :=
  v ← getattr name; match v with PStr s => mret s | _ => raise TypeError end.
Definition attr_shape (name : string) : M (list nat) :=
  v ← getattr name; match v with PShape s => mret s | _ => raise TypeError end.
Definition attr_range (name : string) : M (option (list (option (Qc * Qc)))) :=
  v ← getattr name;
  match v with
  | PNone => mret None
  | PRange r => mret (Some r)
  | _ => raise TypeError
  end.
Definition attr_types (name : string) : M (list (list string)) :=
  v ← getattr name; match v with PTypes t => mret t | _ => raise TypeError end.
Definition attr_cov (name : string) : M covariance :=
  v ← getattr name; match v with PCov c => mret c | _ => raise TypeError end.
Definition attr_obj (name : string) : M Obj :=
  v ← getattr name; match v with PObj o => mret o | _ => raise TypeError end.
Definition attr_opt_obj (name : string) : M (option Obj) :=
  v ← getattr name;
  match v with
  | PNone => mret None
  | PObj o => mret (Some o)
  | _ => raise TypeError
  end.
Definition attr_ref (name : string) : M loc :=
  v ← getattr name; match v with PRef l => mret l | _ => raise TypeError end.

Definition load_arr (l : loc) : M ndarray :=
  o ← load l; match o with OArr a => mret a | _ => raise TypeError end.
Definition load_mat (l : loc) : M mat :=
  o ← load l; match o with OMat a => mret a | _ => raise TypeError end.
Definition load_arr3 (l : loc) : M (list mat) :=
  o ← load l; match o with OArr3 a => mret a | _ => raise TypeError end.
Definition load_arr4 (l : loc) : M (list (list mat)) :=
  o ← load l; match o with OArr4 a => mret a | _ => raise TypeError end.
Definition load_arrays (l : loc) : M (list (list Qc)) :=
  o ← load l; match o with OArrays a => mret a | _ => raise TypeError end.
Definition load_bool (l : loc) : M bool_ndarray :=
  o ← load l; match o with OBool a => mret a | _ => raise TypeError end.
Definition load_opaque (l : loc) : M Obj :=
  o ← load l; match o with OOpaque a => mret a | _ => raise TypeError end.

Definition attr_arr (name : string) : M ndarray := attr_ref name ≫= load_arr.
Definition attr_mat (name : string) : M mat := attr_ref name ≫= load_mat.
Definition attr_arr3 (name : string) : M (list mat) := attr_ref name ≫= load_arr3.
Definition attr_arr4 (name : string) : M (list (list mat)) :=
  attr_ref name ≫= load_arr4.
Definition attr_arrays (name : string) : M (list (list Qc)) :=
  attr_ref name ≫= load_arrays.
Definition attr_boolarr (name : string) : M bool_ndarray :=
  attr_ref name ≫= load_bool.
Definition attr_opaque (name : string) : M Obj := attr_ref name ≫= load_opaque.

(** [for a in l: body(a)] *)
Fixpoint for_each {A} (l : list A) (body : A -> M unit) : M unit :=
  match l with
  | [] => mret tt
  | a :: l' => body a;; for_each l' body
  end.

(** [enumerate(l)] *)
Definition enumerate {A} (l : list A) : list (nat * A) := zip (seq 0 (length l)) l.

(** *** Module constants *)

Definition _DEFAULT_CONTINUOUS_TRANSITIONS : list (list string) :=
  [["random_walk"; "uniform"; "identity"];
   ["uniform"; "uniform"; "uniform"];
   ["random_walk"; "uniform"; "identity"]]%string.
Definition _DISCRETE_DIAG : Qc := 1 - qfrac 1 100.

(** *** The registries of state_transition.py *)

(** The arguments every continuous builder is called with. *)
Record transition_args := TransitionArgs {
  ta_place_bin_centers : ndarray;
  ta_is_track_interior : bool_ndarray;
  ta_position : ndarray;
  ta_edges : list (list Qc);
  ta_is_training : bool_mask;
  ta_replay_speed : nat;
  ta_position_range : option (list (option (Qc * Qc)));
  ta_movement_var : covariance;
  ta_place_bin_center_ind_to_node : pyval;
  ta_distance_between_nodes : pyval;
}.

(** The bin centres as a list of points. *)
Definition points (place_bin_centers : ndarray) : mat :=
  match place_bin_centers with
  | Arr1 v => map (fun x => [x]) v
  | Arr2 _ rows => rows
  end.

(** Modelled from the spec: the dictionary [CONTINUOUS_TRANSITIONS], which
    classifier.py imports from state_transition.py but which is missing from
    the source file.  "A registry of named functions building
    continuous-state transition matrices (empirical, random-walk, uniform,
    identity, absorbing-boundary variants)"; each name is bound to the
    builder of that name in state_transition.py, applied to those of the ten
    arguments that the builder takes.  (The four difference types that the
    class docstrings also list have no builder in the source file.) *)
Definition CONTINUOUS_TRANSITIONS : gmap string (transition_args -> result mat) :=
  list_to_map [
    ("empirical_movement"%string, fun a =>
       match ta_is_training a with
       | Mask1 flags =>
           StateTransition.empirical_movement (ta_position a) (ta_edges a)
             (Some flags) (ta_replay_speed a) (ta_position_range a)
       | Mask0 _ =>
           (* [atleast_2d(position)[is_training]] is three-dimensional, and
              [np.histogramdd] cannot unpack the shape of its sample *)
           Raise ValueError
       end);
    ("random_walk"%string, fun a =>
       StateTransition.random_walk (points (ta_place_bin_centers a))
         (ta_movement_var a) (ta_replay_speed a));
    ("random_walk_with_absorbing_boundaries"%string, fun a =>
       StateTransition.random_walk_with_absorbing_boundaries
         (points (ta_place_bin_centers a)) (ta_movement_var a)
         (ta_is_track_interior a) (ta_replay_speed a));
    ("uniform"%string, fun a =>
       StateTransition.uniform_state_transition
         (points (ta_place_bin_centers a)) (ta_is_track_interior a));
    ("identity"%string, fun a =>
       StateTransition.identity
         (points (ta_place_bin_centers a)) (ta_is_track_interior a))
  ].

(** Modelled from the spec: the dictionary [DISCRETE_TRANSITIONS], missing
    from the source file like the one above.  "A registry of named functions
    building discrete-regime transition matrices (identity, strong-diagonal,
    uniform)", under the names of the class docstring, each called with the
    number of states and the diagonal value. *)
Definition DISCRETE_TRANSITIONS : gmap string (nat -> Qc -> result mat) :=
  list_to_map [
    ("strong_diagonal"%string, fun n_states diag =>
       StateTransition.strong_diagonal_discrete n_states diag);
    ("identity"%string, fun n_states _ =>
       Ok (StateTransition.identity_discrete n_states));
    ("uniform"%string, fun n_states _ =>
       Ok (StateTransition.uniform_discrete n_states))
  ].

(** [registry[name]] *)
Definition getitem {V} (registry : gmap string V) (name : string) : result V :=
  match registry !! name with
  | Some v => Ok v
  | None => Raise KeyError
  end.

(** *** NumPy operations of the classifier *)

(** [np.ones(shape, dtype=np.bool)]; positions have one or two dimensions. *)
Definition np_ones_bool (shape : list nat) : result bool_ndarray :=
  match shape with
  | [n] => Ok (Bool1 (replicate n true))
  | [n; m] => Ok (Bool2 (replicate n (replicate m true)))
  | _ => Raise ValueError
  end.

(** [np.stack(arrays, axis=0)]: "need at least one array to stack". *)
Definition np_stack {A} (arrays : list A) : result (list A) :=
  match arrays with
  | [] => Raise ValueError
  | _ => Ok arrays
  end.

(** [np.stack([a] * n, axis=1)] for a two-dimensional [a]. *)
Definition np_stack_axis1 (a : mat) (n : nat) : result (list mat) :=
  match n with
  | O => Raise ValueError
  | _ => Ok (map (fun row => replicate n row) a)
  end.

(** [a[..., np.newaxis]] and [a.squeeze(axis=-1)] on the last axis. *)
Definition newaxis (a : list mat) : list (list mat) :=
  map (map (map (fun x => [x]))) a.
Definition squeeze_last (a : list (list mat)) : result (list mat) :=
  if forallb (forallb (forallb (fun e => bool_decide (length e = 1%nat)))) a
  then Ok (map (map (map (fun e => hd 0 e))) a)
  else Raise ValueError.

(** Broadcasting in [target[...] = value]: an axis of [value] has the
    length of the target axis or length 1. *)
Definition expand {A} (n : nat) (l : list A) : result (list A) :=
  if decide (length l = n) then Ok l
  else match l with
       | [a] => Ok (replicate n a)
       | _ => Raise ValueError
       end.
Definition broadcast_to (n m : nat) (value : mat) : result mat :=
  rows ← expand n value; mapM (expand m) rows.

(** [tensor[row_ind, column_ind] = value] *)
Definition assign_cell (tensor : list (list mat)) (row_ind column_ind : nat)
    (value : mat) : result (list (list mat)) :=
  match tensor !! row_ind with
  | None => Raise IndexError
  | Some row =>
      match row !! column_ind with
      | None => Raise IndexError
      | Some cell =>
          value ← broadcast_to (length cell) (length (hd [] cell)) value;
          Ok (<[row_ind := <[column_ind := value]> row]> tensor)
      end
  end.

(** [a.reshape((n0, n1, n2, n3))] of a three-dimensional array: the entries
    in row-major order, cut into blocks; the sizes have to agree. *)
Fixpoint chunks {A} (n k : nat) (l : list A) : list (list A) :=
  match n with
  | O => []
  | S n' => take k l :: chunks n' k (drop k l)
  end.
Definition reshape4 (n0 n1 n2 n3 : nat) (a : list mat) : result (list (list mat)) :=
  let flat := concat (concat a) in
  if decide (length flat = n0 * n1 * n2 * n3)%nat
  then Ok (map (fun block => map (chunks n2 n3) (chunks n1 (n2 * n3) block))
               (chunks n0 (n1 * n2 * n3) flat))
  else Raise ValueError.

(** [m.T] *)
Definition transpose (m : mat) : mat :=
  map (fun j => map (fun row => nth j row 0) m) (seq 0 (length (hd [] m))).
(** [a.swapaxes(-1, -2)] *)
Definition swap_last_axes (a : list (list mat)) : list (list mat) :=
  map (map transpose) a.

(** [np.arange(n)] *)
Definition arange (n : nat) : list Qc := of_nat <$> seq 0 n.

(** [np.diag(np.asarray(types))] for a rectangular list of lists. *)
Definition np_diag (types : list (list string)) : result (list string) :=
  if forallb (fun row => bool_decide (length row = length (hd [] types))) types
  then Ok (imap (fun i row => nth i row ""%string)
                (take (length (hd [] types)) types))
  else Raise ValueError.

(** [l[i]] *)
Definition index {A} (l : list A) (i : nat) : result A :=
  match l !! i with
  | Some a => Ok a
  | None => Raise IndexError
  end.

(** *** _ClassifierBase *)

Definition _ClassifierBase_init (place_bin_size : Qc) (replay_speed : nat)
    (movement_var : covariance)
    (position_range : option (list (option (Qc * Qc))))
    (continuous_transition_types : list (list string))
    (discrete_transition_type initial_conditions_type : string)
    (discrete_transition_diag : Qc) (infer_track_interior : bool) : M unit :=
  setattr "place_bin_size" (PFloat place_bin_size);;
  setattr "replay_speed" (PInt replay_speed);;
  setattr "movement_var" (PCov movement_var);;
  setattr "position_range"
    (match position_range with Some r => PRange r | None => PNone end);;
  setattr "continuous_transition_types" (PTypes continuous_transition_types);;
  setattr "discrete_transition_type" (PStr discrete_transition_type);;
  setattr "initial_conditions_type" (PStr initial_conditions_type);;
  setattr "discrete_transition_diag" (PFloat discrete_transition_diag);;
  setattr "infer_track_interior" (PBool infer_track_interior).

Definition fit_place_grid (position : ndarray) (track_graph : option Obj)
    (center_well_id edge_order : option Obj) (edge_spacing : Obj)
    (infer_track_interior : bool) (is_track_interior : option bool_ndarray)
    : M unit :=
  match track_graph with
  | None =>
      place_bin_size ← attr_float "place_bin_size";
      position_range ← attr_range "position_range";
      self_infer ← attr_bool "infer_track_interior";
      '(edges, place_bin_edges, place_bin_centers, centers_shape) ←
        lift (get_grid position place_bin_size position_range self_infer);
      setattr_new "edges_" (OArrays edges);;
      setattr_new "place_bin_edges_" (OArr place_bin_edges);;
      setattr_new "place_bin_centers_" (OArr place_bin_centers);;
      setattr "centers_shape_" (PShape centers_shape);;
      setattr "place_bin_center_ind_to_node_" PNone;;
      setattr "distance_between_nodes_" PNone;;
      setattr "infer_track_interior" (PBool infer_track_interior);;
      match is_track_interior with
      | None =>
          self_infer ← attr_bool "infer_track_interior";
          if (self_infer : bool) then
            edges_ ← attr_arrays "edges_";
            interior ← lift (get_track_interior position edges_);
            setattr_new "is_track_interior_" (OBool interior)
          else
            centers_shape_ ← attr_shape "centers_shape_";
            interior ← lift (np_ones_bool centers_shape_);
            setattr_new "is_track_interior_" (OBool interior)
      | Some _ =>
          (* neither [if is_track_interior is None and ...] nor the [elif]
             applies, and there is no [else] *)
          mret tt
      end
  | Some graph =>
      place_bin_size ← attr_float "place_bin_size";
      g ← lift (get_track_grid graph center_well_id edge_order edge_spacing
                  place_bin_size);
      setattr_new "place_bin_centers_" (OArr (tg_place_bin_centers g));;
      setattr_new "place_bin_edges_" (OArr (tg_place_bin_edges g));;
      setattr_new "is_track_interior_" (OBool (tg_is_track_interior g));;
      setattr_new "distance_between_nodes_" (OOpaque (tg_distance_between_nodes g));;
      setattr_new "place_bin_center_ind_to_node_"
        (OOpaque (tg_place_bin_center_ind_to_node g));;
      setattr_new "place_bin_center_2D_position_"
        (OOpaque (tg_place_bin_center_2D_position g));;
      setattr_new "place_bin_edges_2D_position_"
        (OOpaque (tg_place_bin_edges_2D_position g));;
      setattr "centers_shape_" (PShape (tg_centers_shape g));;
      setattr_new "edges_" (OArrays (tg_edges g));;
      setattr_new "track_graph_" (OOpaque (tg_track_graph g));;
      setattr_new "place_bin_center_ind_to_edge_id_"
        (OOpaque (tg_place_bin_center_ind_to_edge_id g));;
      setattr_new "_nodes_df" (OOpaque (tg_nodes_df g))
  end.

(** The initial conditions have the axes (state, bin, 1). *)
Definition fit_initial_conditions (position : ndarray) : M unit :=
  types ← attr_types "continuous_transition_types";
  let n_states := length types in
  place_bin_centers_ ← attr_arr "place_bin_centers_";
  is_track_interior_ ← attr_boolarr "is_track_interior_";
  let initial_conditions :=
    uniform_on_track (points place_bin_centers_) is_track_interior_ in
  stacked ← lift (np_stack (replicate n_states initial_conditions));
  setattr_new "initial_conditions_"
    (OArr3 (map (map (fun a => [a / of_nat n_states])) stacked)).

Definition fit_continuous_state_transition (position : ndarray)
    (is_training : option (list bool)) (replay_speed : option nat)
    (continuous_transition_types : list (list string)) : M unit :=
  let is_training :=
    squeeze_flags match is_training with
                  | None => replicate (shape0 position) true
                  | Some flags => flags
                  end in
  match replay_speed with
  | Some speed => setattr "replay_speed" (PInt speed)
  | None => mret tt
  end;;
  setattr "continuous_transition_types" (PTypes continuous_transition_types);;
  place_bin_centers_ ← attr_arr "place_bin_centers_";
  let n_bins := shape0 place_bin_centers_ in
  types ← attr_types "continuous_transition_types";
  let n_states := length types in
  setattr_new "continuous_state_transition_"
    (OArr4 (replicate n_states (replicate n_states (zeros n_bins n_bins))));;
  types ← attr_types "continuous_transition_types";
  for_each (enumerate types) (fun '(row_ind, row) =>
    for_each (enumerate row) (fun '(column_ind, transition_type) =>
      builder ← lift (getitem CONTINUOUS_TRANSITIONS transition_type);
      place_bin_centers_ ← attr_arr "place_bin_centers_";
      is_track_interior_ ← attr_boolarr "is_track_interior_";
      edges_ ← attr_arrays "edges_";
      speed ← attr_int "replay_speed";
      position_range ← attr_range "position_range";
      movement_var ← attr_cov "movement_var";
      ind_to_node ← getattr "place_bin_center_ind_to_node_";
      distance ← getattr "distance_between_nodes_";
      value ← lift (builder (TransitionArgs place_bin_centers_ is_track_interior_
                               position edges_ is_training speed position_range
                               movement_var ind_to_node distance));
      l ← attr_ref "continuous_state_transition_";
      tensor ← load_arr4 l;
      tensor ← lift (assign_cell tensor row_ind column_ind value);
      store l (OArr4 tensor))).

Definition fit_discrete_state_transition (discrete_transition_diag : option Qc)
    : M unit :=
  match discrete_transition_diag with
  | Some diag => setattr "discrete_transition_diag" (PFloat diag)
  | None => mret tt
  end;;
  types ← attr_types "continuous_transition_types";
  let n_states := length types in
  discrete_transition_type ← attr_str "discrete_transition_type";
  builder ← lift (getitem DISCRETE_TRANSITIONS discrete_transition_type);
  diag ← attr_float "discrete_transition_diag";
  transition ← lift (builder n_states diag);
  setattr_new "discrete_state_transition_" (OMat transition).

Definition _ClassifierBase_fit : M unit := raise NotImplementedError.
Definition _ClassifierBase_predict : M dataset := raise NotImplementedError.

(** [predict_proba(results)]: only a ValueError of the first sum is caught. *)
Definition predict_proba (results : dataset) : result dataset :=
  match dataset_sum ["x_position"; "y_position"]%string results with
  | Raise ValueError => dataset_sum ["position"]%string results
  | outcome => outcome
  end.

(** *** What the two [predict] methods share

    From the stacking of the likelihood on, the bodies of
    [SortedSpikesClassifier.predict] and [ClusterlessClassifier.predict] are
    the same line for line; that part is written once.  [likelihood] is the
    array returned by the observation model, [n_time] is
    [spikes.shape[0]] (respectively [multiunits.shape[0]]). *)

(** One entry of the dict comprehension that fills the dataset:
    [mask] writes into the result array itself, the views taken from it
    afterwards are what the dataset holds. *)
Definition masked_variable (new_shape : option (list nat)) (flat : list bool)
    (entry : string * loc) : M (string * data_array) :=
  let '(key, l) := entry in
  value ← load_arr4 l;
  let value := mask value flat in
  store l (OArr4 value);;
  squeezed ← lift (squeeze_last value);
  match new_shape with
  | Some shape =>
      match shape with
      | [n0; n1; n2; n3] =>
          reshaped ← lift (reshape4 n0 n1 n2 n3 squeezed);
          mret (key, DataArray ["time"; "state"; "x_position"; "y_position"]%string
                       (of_arr4 (swap_last_axes reshaped)))
      | _ => raise ValueError
      end
  | None =>
      mret (key, DataArray ["time"; "state"; "position"]%string (of_arr3 squeezed))
  end.

Definition predict_from_likelihood (n_states : nat) (likelihood : mat)
    (n_time : nat) (time : option (list Qc)) (is_compute_acausal : bool)
    : M dataset :=
  stacked ← lift (np_stack_axis1 likelihood n_states);
  likelihood_ref ← alloc (OArr4 (newaxis stacked));

  initial_conditions_ ← attr_arr3 "initial_conditions_";
  continuous_state_transition_ ← attr_arr4 "continuous_state_transition_";
  discrete_state_transition_ ← attr_mat "discrete_state_transition_";
  likelihood4 ← load_arr4 likelihood_ref;
  causal_ref ← alloc (OArr4 (_causal_classify initial_conditions_
                               continuous_state_transition_
                               discrete_state_transition_ likelihood4));
  let results := [("likelihood"%string, likelihood_ref);
                  ("causal_posterior"%string, causal_ref)] in

  results ←
    (if is_compute_acausal then
       causal_posterior ← load_arr4 causal_ref;
       continuous_state_transition_ ← attr_arr4 "continuous_state_transition_";
       discrete_state_transition_ ← attr_mat "discrete_state_transition_";
       acausal_ref ← alloc (OArr4 (_acausal_classify causal_posterior
                                     continuous_state_transition_
                                     discrete_state_transition_));
       mret (results ++ [("acausal_posterior"%string, acausal_ref)])
     else mret results);

  let time := match time with Some t => t | None => arange n_time end in

  place_bin_centers_ ← attr_arr "place_bin_centers_";
  n_position_dims ←
    match place_bin_centers_ with
    | Arr2 d _ => mret d
    | Arr1 _ => raise IndexError
    end;
  if decide (1 < n_position_dims)%nat then
    centers_shape_ ← attr_shape "centers_shape_";
    let new_shape := [n_time; n_states] ++ centers_shape_ in
    edges_ ← attr_arrays "edges_";
    edges_0 ← lift (index edges_ 0);
    edges_ ← attr_arrays "edges_";
    edges_1 ← lift (index edges_ 1);
    types ← attr_types "continuous_transition_types";
    state ← lift (np_diag types);
    let coords := [("time"%string, CoordNum time);
                   ("x_position"%string, CoordNum (get_centers edges_0));
                   ("y_position"%string, CoordNum (get_centers edges_1));
                   ("state"%string, CoordStr state)] in
    is_track_interior_ ← attr_boolarr "is_track_interior_";
    variables ← mapM (masked_variable (Some new_shape) (ravel_F is_track_interior_))
                     results;
    lift (xr_Dataset variables coords)
  else
    edges_ ← attr_arrays "edges_";
    edges_0 ← lift (index edges_ 0);
    types ← attr_types "continuous_transition_types";
    state ← lift (np_diag types);
    let coords := [("time"%string, CoordNum time);
                   ("position"%string, CoordNum (get_centers edges_0));
                   ("state"%string, CoordStr state)] in
    is_track_interior_ ← attr_boolarr "is_track_interior_";
    variables ← mapM (masked_variable None (ravel_F is_track_interior_)) results;
    lift (xr_Dataset variables coords).

(** *** SortedSpikesClassifier *)

Definition SortedSpikesClassifier_init (place_bin_size : Qc) (replay_speed : nat)
    (movement_var : covariance)
    (position_range : option (list (option (Qc * Qc))))
    (continuous_transition_types : list (list string))
    (discrete_transition_type initial_conditions_type : string)
    (knot_spacing spike_model_penalty discrete_transition_diag : Qc)
    (infer_track_interior : bool) : M unit :=
  _ClassifierBase_init place_bin_size replay_speed movement_var position_range
    continuous_transition_types discrete_transition_type
    initial_conditions_type discrete_transition_diag infer_track_interior;;
  setattr "knot_spacing" (PFloat knot_spacing);;
  setattr "spike_model_penalty" (PFloat spike_model_penalty).

Definition fit_place_fields (position : ndarray) (spikes : mat)
    (is_training : option (list bool)) : M unit :=
  let is_training :=
    squeeze_flags match is_training with
                  | None => replicate (shape0 position) true
                  | Some flags => flags
                  end in
  training_position ← lift (mask_index ndarray_bool_index is_training position);
  training_spikes ← lift (mask_index bool_index is_training spikes);
  place_bin_centers_ ← attr_arr "place_bin_centers_";
  penalty ← attr_float "spike_model_penalty";
  knot_spacing ← attr_float "knot_spacing";
  place_fields ← lift (estimate_place_fields training_position training_spikes
                         place_bin_centers_ penalty knot_spacing);
  setattr_new "place_fields_" (OOpaque place_fields).

Definition SortedSpikesClassifier_fit (position : ndarray) (spikes : mat)
    (is_training : option (list bool)) (is_track_interior : option bool_ndarray)
    (track_graph center_well_id edge_order : option Obj) (edge_spacing : Obj)
    : M unit :=
  let position := atleast_2d position in
  self_infer ← attr_bool "infer_track_interior";
  fit_place_grid position track_graph center_well_id edge_order edge_spacing
    self_infer is_track_interior;;
  fit_initial_conditions position;;
  types ← attr_types "continuous_transition_types";
  fit_continuous_state_transition position is_training None types;;
  fit_discrete_state_transition None;;
  fit_place_fields position spikes is_training.

Definition SortedSpikesClassifier_predict (spikes : mat) (time : option (list Qc))
    (is_compute_acausal : bool) : M dataset :=
  continuous_state_transition_ ← attr_arr4 "continuous_state_transition_";
  let n_states := length continuous_state_transition_ in
  place_fields_ ← attr_opaque "place_fields_";
  is_track_interior_ ← attr_boolarr "is_track_interior_";
  likelihood ← lift (estimate_spiking_likelihood spikes place_fields_
                       is_track_interior_);
  predict_from_likelihood n_states likelihood (length spikes) time
    is_compute_acausal.

(** *** ClusterlessClassifier *)

Definition ClusterlessClassifier_init (place_bin_size : Qc) (replay_speed : nat)
    (movement_var : covariance)
    (position_range : option (list (option (Qc * Qc))))
    (continuous_transition_types : list (list string))
    (discrete_transition_type initial_conditions_type : string)
    (discrete_transition_diag : Qc) (infer_track_interior : bool)
    (model model_kwargs : Obj) (occupancy_model occupancy_kwargs : option Obj)
    : M unit :=
  _ClassifierBase_init place_bin_size replay_speed movement_var position_range
    continuous_transition_types discrete_transition_type
    initial_conditions_type discrete_transition_diag infer_track_interior;;
  setattr "model" (PObj model);;
  setattr "model_kwargs" (PObj model_kwargs);;
  match occupancy_model with
  | None =>
      setattr "occupancy_model" (PObj model);;
      setattr "occupancy_kwargs" (PObj model_kwargs)
  | Some occupancy =>
      setattr "occupancy_model" (PObj occupancy);;
      setattr "occupancy_kwargs"
        (match occupancy_kwargs with Some k => PObj k | None => PNone end)
  end.

Definition fit_multiunits (position : ndarray) (multiunits : list mat)
    (is_training : option (list bool)) : M unit :=
  let is_training :=
    squeeze_flags match is_training with
                  | None => replicate (shape0 position) true
                  | Some flags => flags
                  end in
  training_position ← lift (mask_index ndarray_bool_index is_training position);
  training_multiunits ← lift (mask_index bool_index is_training multiunits);
  place_bin_centers_ ← attr_arr "place_bin_centers_";
  model ← attr_obj "model";
  model_kwargs ← attr_obj "model_kwargs";
  occupancy_model ← attr_obj "occupancy_model";
  occupancy_kwargs ← attr_opt_obj "occupancy_kwargs";
  is_track_interior_ ← attr_boolarr "is_track_interior_";
  '(joint_pdf_models, ground_process_intensities, occupancy, mean_rates) ←
    lift (fit_multiunit_likelihood training_position training_multiunits
            place_bin_centers_ model model_kwargs occupancy_model
            occupancy_kwargs (ravel_F is_track_interior_));
  setattr_new "joint_pdf_models_" (OOpaque joint_pdf_models);;
  setattr_new "ground_process_intensities_" (OOpaque ground_process_intensities);;
  setattr_new "occupancy_" (OOpaque occupancy);;
  setattr_new "mean_rates_" (OOpaque mean_rates).

Definition ClusterlessClassifier_fit (position : ndarray) (multiunits : list mat)
    (is_training : option (list bool)) (is_track_interior : option bool_ndarray)
    (track_graph center_well_id edge_order : option Obj) (edge_spacing : Obj)
    : M unit :=
  let position := atleast_2d position in
  self_infer ← attr_bool "infer_track_interior";
  fit_place_grid position track_graph center_well_id edge_order edge_spacing
    self_infer is_track_interior;;
  fit_initial_conditions position;;
  types ← attr_types "continuous_transition_types";
  fit_continuous_state_transition position is_training None types;;
  fit_discrete_state_transition None;;
  fit_multiunits position multiunits is_training.

Definition ClusterlessClassifier_predict (multiunits : list mat)
    (time : option (list Qc)) (is_compute_acausal : bool) : M dataset :=
  continuous_state_transition_ ← attr_arr4 "continuous_state_transition_";
  let n_states := length continuous_state_transition_ in
  place_bin_centers_ ← attr_arr "place_bin_centers_";
  joint_pdf_models_ ← attr_opaque "joint_pdf_models_";
  ground_process_intensities_ ← attr_opaque "ground_process_intensities_";
  occupancy_ ← attr_opaque "occupancy_";
  mean_rates_ ← attr_opaque "mean_rates_";
  is_track_interior_ ← attr_boolarr "is_track_interior_";
  likelihood ← lift (estimate_multiunit_likelihood multiunits place_bin_centers_
                       joint_pdf_models_ ground_process_intensities_ occupancy_
                       mean_rates_ (ravel_F is_track_interior_));
  predict_from_likelihood n_states likelihood (length multiunits) time
    is_compute_acausal.

End Classifiers.
End Classifier.

(** * Statements

    The predicates and the concrete inputs that the properties below are
    stated with. *)

Import Np Core.

(** ** Transition matrices *)

(** Every row sums to 1 or to 0. *)
Definition rows_sum_to_1_or_0 (m : mat) : Prop :=
  Forall (fun row => sum row = 1 \/ sum row = 0) m.

(** No row has mass in the column of a bin whose own row sums to 0. *)
Definition no_mass_into_zero_rows (m : mat) : Prop :=
  forall j rowj, m !! j = Some rowj -> sum rowj = 0 ->
    Forall (fun row => nth j row 0 = 0) m.

(** The matrix [x] with the rows and the columns of exterior bins set to 0. *)
Definition masked (flat : list bool) (x : mat) : mat :=
  zip_with (fun (bi : bool) row =>
              zip_with (fun (bj : bool) a => if bi && bj then a else 0) flat row)
           flat x.

(** The number of interior bins. *)
Definition count_interior (flat : list bool) : nat :=
  length (filter (fun b => b = true) flat).

(** Every entry is non-negative and every row sums to at most 1. *)
Definition substochastic (m : mat) : Prop :=
  Forall (fun row => Forall (fun a => 0 <= a) row /\ sum row <= 1) m.

(** [position.shape[1]] of a position array made two-dimensional. *)
Definition n_position_dims (position : ndarray) : nat :=
  match position with
  | Arr1 _ => 1
  | Arr2 d _ => d
  end.

(** The number of bins of the grid with the given edges. *)
Definition n_grid_bins (edges : list (list Qc)) : nat :=
  product (map (fun e => (length e - 1)%nat) edges).

(** The entries in the row and in the column of every exterior bin are 0. *)
Definition zero_outside (flat : list bool) (m : mat) : Prop :=
  forall i j row a, m !! i = Some row -> row !! j = Some a ->
    flat !! i = Some false \/ flat !! j = Some false -> a = 0.


(** ** Classifiers *)

Section Statements.
Context `{ScipyStats} `{Library}.
Import Classifier Xr.

(** The dataset has both position axes of a 2-D result. *)
Definition has_xy (results : dataset) : Prop :=
  "x_position"%string ∈ dataset_dims results /\
  "y_position"%string ∈ dataset_dims results.

(** A 1-D result with two time steps, one state and two bins. *)
Definition results_1d : dataset :=
  Dataset
    [("causal_posterior"%string,
      DataArray ["time"; "state"; "position"]%string
        (of_arr3 [[[qfrac 1 4; qfrac 3 4]]; [[qfrac 1 2; qfrac 1 2]]]))]
    [("time"%string, CoordNum [qz 0; qz 1]);
     ("position"%string, CoordNum [qz 1; qz 3]);
     ("state"%string, CoordStr ["random_walk"%string])].

(** [wp m Q w]: running [m] in world [w] ends, by returning or raising, in an
    outcome and a world that satisfy [Q]. *)
Definition wp {A} (m : M A) (Q : result A -> world -> Prop) (w : world) : Prop :=
  Q (fst (m w)) (snd (m w)).

(** A typed attribute read returns what the attribute holds, or raises and
    leaves the world as it is. *)
Definition reads {A} (m : M A) : Prop :=
  forall (Q : result A -> world -> Prop) w,
    (forall r, Q r w) -> wp m Q w.

(** In [w] the classifier has the attributes it had in [w0], and every
    object of [w0] is still there, unchanged. *)
Definition extends (w0 w : world) : Prop :=
  attrs w = attrs w0 /\ heap w0 ⊆ heap w.

(** The sum of an array with the axes (state, bin, 1) over all its entries. *)
Definition total (a : list mat) : Qc := sum (map (fun m => sum (map sum m)) a).

(** The array [ic], with the axes (state, bin, 1), sums to 1 over all
    (regime, bin) pairs, has the same value at every (regime, interior bin)
    and is 0 at every exterior bin of every regime; [flat] is the flattened
    mask. *)
Definition uniform_over_interior (flat : list bool) (ic : list mat) : Prop :=
  total ic = 1 /\
  forall s b row entry, ic !! s = Some row -> row !! b = Some entry ->
    exists flag : bool,
      flat !! b = Some flag /\
      entry = [if flag
               then 1 / (of_nat (length ic) * of_nat (count_interior flat))
               else 0].

(** The classifier has a mask and initial conditions for at least one
    regime, with one entry per bin of the mask, uniform over the interior
    bins when there is one. *)
Definition fitted_initial_conditions (w : world) : Prop :=
  exists l ic lm interior,
    attrs w !! "initial_conditions_"%string = Some (PRef l) /\
    heap w !! l = Some (OArr3 ic) /\
    attrs w !! "is_track_interior_"%string = Some (PRef lm) /\
    heap w !! lm = Some (OBool interior) /\
    (1 <= length ic)%nat /\
    Forall (fun row => length row = length (ravel_F interior)) ic /\
    ((1 <= count_interior (ravel_F interior))%nat ->
     uniform_over_interior (ravel_F interior) ic).

(** The initial conditions have one slice per regime of the grid of
    transition types. *)
Definition one_slice_per_regime (w : world) : Prop :=
  exists types l ic,
    attrs w !! "continuous_transition_types"%string = Some (PTypes types) /\
    attrs w !! "initial_conditions_"%string = Some (PRef l) /\
    heap w !! l = Some (OArr3 ic) /\
    length ic = length types.

(** From [w0] to [w] only attributes among [names] have been assigned, and
    every object of [w0] is still there, unchanged. *)
Definition assigns (names : list string) (w0 w : world) : Prop :=
  (forall name, name ∉ names -> attrs w !! name = attrs w0 !! name) /\
  heap w0 ⊆ heap w.

(** A method that assigns attributes among [names] only and writes to no
    object that existed before. *)
Definition assigning (names : list string) {A} (m : M A) : Prop :=
  forall w0 w, assigns names w0 w -> wp m (fun _ w' => assigns names w0 w') w.

(** The attributes that [fit] assigns after the initial conditions. *)
Definition later_attributes : list string :=
  ["replay_speed"; "continuous_transition_types"; "continuous_state_transition_";
   "discrete_transition_diag"; "discrete_state_transition_"; "place_fields_";
   "joint_pdf_models_"; "ground_process_intensities_"; "occupancy_";
   "mean_rates_"]%string.

(** What the dataset holds for one result array: the array masked, without
    its unit axis, and for 2-D positions reshaped with the two position axes
    swapped. *)
Definition labelled (new_shape : option (list nat)) (flat : list bool)
    (value : list (list mat)) : result data_array :=
  squeezed ← squeeze_last (mask value flat);
  match new_shape with
  | Some [n0; n1; n2; n3] =>
      reshaped ← reshape4 n0 n1 n2 n3 squeezed;
      Ok (DataArray ["time"; "state"; "x_position"; "y_position"]%string
            (of_arr4 (swap_last_axes reshaped)))
  | Some _ => Raise ValueError
  | None => Ok (DataArray ["time"; "state"; "position"]%string (of_arr3 squeezed))
  end.

(** [a.isel(time=-1)] for an array whose first axis is time. *)
Definition final_time (a : nd) : option nd :=
  match a with
  | Node slices => last slices
  | Leaf _ => None
  end.

(** One time slice (state, bin, 1) masked and without its unit axis. *)
Definition masked_slice (flat : list bool) (slice : list mat) : mat :=
  map (map (fun e => hd 0 e))
      (map (imap (fun b entry =>
                    if decide (flat !! b = Some false)
                    then map (fun _ => 0) entry else entry))
           slice).

(** The last block of a reshaped array, labelled. *)
Definition final_block (n1 n2 n3 : nat) (entries : list Qc) : nd :=
  of_arr3 (map transpose
             (map (chunks n2 n3) (chunks n1 (n2 * n3) entries))).

(** The dataset has the causal and the acausal posterior over the same
    axes, the first of them time, and the two agree at the final time
    index. *)
Definition final_posteriors_agree (ds : dataset) : Prop :=
  exists causal acausal final,
    ("causal_posterior"%string, causal) ∈ data_vars ds /\
    ("acausal_posterior"%string, acausal) ∈ data_vars ds /\
    da_dims acausal = da_dims causal /\
    head (da_dims causal) = Some "time"%string /\
    final_time (da_values causal) = Some final /\
    final_time (da_values acausal) = Some final.

(** The classifier has initial conditions of the shape
    (n_states, n_bins, 1), [n_states] being the first axis of its continuous
    transition tensor. *)
Definition fitted_shapes (w : world) (n_bins : nat) : Prop :=
  exists li ic lt cst,
    attrs w !! "initial_conditions_"%string = Some (PRef li) /\
    heap w !! li = Some (OArr3 ic) /\
    attrs w !! "continuous_state_transition_"%string = Some (PRef lt) /\
    heap w !! lt = Some (OArr4 cst) /\
    length ic = length cst /\
    Forall (fun row => length row = n_bins) ic.

(** The transition types whose builder zeroes the column of every bin whose
    row it zeroes, or zeroes no row at all. *)
Definition leak_free (transition_type : string) : Prop :=
  transition_type ∈ ["random_walk"; "random_walk_with_absorbing_boundaries";
                     "uniform"; "identity"]%string.

(** [self.edges_], [self.place_bin_centers_] and [self.replay_speed], when
    the classifier has them. *)
Definition fitted_edges (w : world) : option (list (list Qc)) :=
  match attrs w !! "edges_"%string with
  | Some (PRef l) =>
      match heap w !! l with
      | Some (OArrays edges) => Some edges
      | _ => None
      end
  | _ => None
  end.

Definition fitted_centers (w : world) : option ndarray :=
  match attrs w !! "place_bin_centers_"%string with
  | Some (PRef l) =>
      match heap w !! l with
      | Some (OArr centers) => Some centers
      | _ => None
      end
  | _ => None
  end.

Definition fitted_speed (w : world) : option nat :=
  match attrs w !! "replay_speed"%string with
  | Some (PInt speed) => Some speed
  | _ => None
  end.

(** The flags that a method uses for [is_training], before [squeeze()]. *)
Definition training_flags (position : ndarray) (is_training : option (list bool))
    : list bool :=
  match is_training with
  | None => replicate (shape0 position) true
  | Some flags => flags
  end.

(** On the grid of the classifier [w], the movement between the training
    samples of [position] loses no mass at the replay speed of [w]: the
    edges have one bin per bin centre, and either the replay speed is at
    most 1, or the matrix of [empirical_movement] at replay speed 1 has no
    mass in the column of a bin whose own row is 0 (no bin is the earlier
    sample of a counted movement without being the later sample of one). *)
Definition empirical_leak_free (position : ndarray) (flags : list bool)
    (w : world) : Prop :=
  forall edges centers speed,
    fitted_edges w = Some edges ->
    fitted_centers w = Some centers ->
    fitted_speed w = Some speed ->
    n_grid_bins edges = shape0 centers /\
    ((speed <= 1)%nat \/
     forall t,
       StateTransition.empirical_movement (R:=unit) position edges (Some flags)
         1 None = Ok t ->
       no_mass_into_zero_rows t).

(** A transition type whose slice keeps its rows at 1 or 0 in the fitted
    classifier [w]: one of the four types above, or [empirical_movement]
    when the movement loses no mass. *)
Definition rows_kept (position : ndarray) (flags : list bool) (w : world)
    (transition_type : string) : Prop :=
  leak_free transition_type \/
  (transition_type = "empirical_movement"%string /\
   empirical_leak_free position flags w).

(** The attributes that [fit] assigns after the transition tensor. *)
Definition model_attributes : list string :=
  ["discrete_transition_diag"; "discrete_state_transition_"; "place_fields_";
   "joint_pdf_models_"; "ground_process_intensities_"; "occupancy_";
   "mean_rates_"]%string.

(** An [n] by [n] slice whose rows sum to 1 or to 0, and a tensor of them. *)
Definition good_cell (n : nat) (cell : mat) : Prop :=
  has_shape n n cell /\ rows_sum_to_1_or_0 cell.

Definition good_tensor (n : nat) (tensor : list (list mat)) : Prop :=
  Forall (Forall (good_cell n)) tensor.

(** While the tensor is filled, the attributes, the bin centres and the
    edges stay as they are, and every slice of the tensor is good as long as
    [G] holds of the types that have been built. *)
Definition filling (G : Prop) (fixed : gmap string pyval) (lc : loc)
    (centers : ndarray) (edges : option (list (list Qc))) (l : loc) (w : world)
    : Prop :=
  attrs w = fixed /\
  heap w !! lc = Some (OArr centers) /\
  fitted_edges w = edges /\
  exists tensor,
    heap w !! l = Some (OArr4 tensor) /\
    (G -> good_tensor (shape0 centers) tensor).

(** The tensor is where the attribute points to. *)
Definition tensor_at (l : loc) (tensor : list (list mat)) (w : world) : Prop :=
  attrs w !! "continuous_state_transition_"%string = Some (PRef l) /\
  heap w !! l = Some (OArr4 tensor).

(** [self.continuous_state_transition_], when the classifier has it. *)
Definition fitted_tensor (w : world) : option (list (list mat)) :=
  match attrs w !! "continuous_state_transition_"%string with
  | Some (PRef l) =>
      match heap w !! l with
      | Some (OArr4 tensor) => Some tensor
      | _ => None
      end
  | _ => None
  end.

(** The classifier has a transition tensor, and every row of every slice of
    it sums to 1 or to 0. *)
Definition transition_rows_sum_to_1_or_0 (w : world) : Prop :=
  exists tensor,
    fitted_tensor w = Some tensor /\
    Forall (Forall rows_sum_to_1_or_0) tensor.

(** The dataset that [predict] returns: the likelihood and the causal
    posterior, and the acausal posterior when it was asked for, all over the
    axes (time, state, x_position, y_position) with a coordinate for each of
    them, or all over (time, state, position). *)
Definition predicted (is_compute_acausal : bool) (ds : dataset) : Prop :=
  map fst (data_vars ds)
  = ["likelihood"; "causal_posterior"]%string
    ++ (if is_compute_acausal then ["acausal_posterior"%string] else []) /\
  ((Forall (fun kv => da_dims (snd kv)
                      = ["time"; "state"; "x_position"; "y_position"]%string)
           (data_vars ds) /\
    map fst (coords ds) = ["time"; "x_position"; "y_position"; "state"]%string) \/
   (Forall (fun kv => da_dims (snd kv) = ["time"; "state"; "position"]%string)
           (data_vars ds) /\
    map fst (coords ds) = ["time"; "position"; "state"]%string)).

(** The dataset has the variables of [ds], each over (time, state) only, and
    the two coordinates of these axes. *)
Definition marginal_of (ds out : dataset) : Prop :=
  map fst (data_vars out) = map fst (data_vars ds) /\
  Forall (fun kv => da_dims (snd kv) = ["time"; "state"]%string) (data_vars out) /\
  map fst (coords out) = ["time"; "state"]%string.


(** A tensor of the shape (n_states, n_states, n_bins, n_bins). *)
Definition transition_tensor_shape (n_states n_bins : nat)
    (tensor : list (list mat)) : Prop :=
  length tensor = n_states /\
  Forall (fun row => length row = n_states /\
                     Forall (has_shape n_bins n_bins) row) tensor.

(** The attributes that [fit] assigns. *)
Definition fitted_attributes : list string :=
  ["edges_"; "place_bin_edges_"; "place_bin_centers_"; "centers_shape_";
   "place_bin_center_ind_to_node_"; "distance_between_nodes_";
   "infer_track_interior"; "is_track_interior_";
   "place_bin_center_2D_position_"; "place_bin_edges_2D_position_";
   "track_graph_"; "place_bin_center_ind_to_edge_id_"; "_nodes_df";
   "initial_conditions_"]%string ++ later_attributes.


End Statements.

(** ** Concrete runs

    A density and an observation model small enough to run [fit] and
    [predict] on: a density with a scalar variance, rejected unless the
    variance is positive, that is 2 at its mean and 1 elsewhere; a grid over
    [0, 4] with bin size 2 (edges 0, 2, 4, centres 1 and 3, both bins
    interior), and a likelihood that favours the second bin. *)

Section Inputs.
Import Classifier Xr.

Definition bump_density : ScipyStats := {|
  covariance := Qc;
  multivariate_normal_error _ cov := if decide (0 < cov) then None else Some ValueError;
  multivariate_normal_pdf mean cov x := if decide (mean = x) then 1 + 1 else 1;
|}.

Definition small_track : Library := {|
  Obj := unit;
  get_grid _ _ _ _ :=
    Ok ([[qz 0; qz 2; qz 4]], Arr2 1 [[qz 0]; [qz 2]; [qz 4]],
        Arr2 1 [[qz 1]; [qz 3]], [2%nat]);
  get_track_interior _ _ := Ok (Bool1 [true; true]);
  get_track_grid _ _ _ _ _ := Raise NotImplementedError;
  estimate_place_fields _ _ _ _ _ := Ok tt;
  estimate_spiking_likelihood spikes _ _ := Ok (map (fun _ => [qz 1; qz 3]) spikes);
  fit_multiunit_likelihood _ _ _ _ _ _ _ _ := Ok (tt, tt, tt, tt);
  estimate_multiunit_likelihood multiunits _ _ _ _ _ _ :=
    Ok (map (fun _ => [qz 1; qz 3]) multiunits);
|}.

Existing Instance bump_density.
Existing Instance small_track.

(** An object without attributes; three samples of a 1-D position and of
    the spike counts of one neuron. *)
Definition new_world : world := World ∅ ∅.

Definition track_position : ndarray := Arr1 [qz 4; qz 0; qz 1].

Definition spike_counts : mat := [[qz 0]; [qz 1]; [qz 0]].

(** A sorted-spikes classifier with the default configuration. *)
Definition default_classifier : world :=
  snd (SortedSpikesClassifier_init (qz 2) 40 (qfrac 1 20) None
         _DEFAULT_CONTINUOUS_TRANSITIONS "strong_diagonal" "uniform_on_track"
         (qz 10) (qz 10) _DISCRETE_DIAG true new_world).

(** [fit(track_position, spike_counts)] and the classifier it leaves. *)
Definition fit_default : M unit :=
  SortedSpikesClassifier_fit track_position spike_counts None None None None None tt.

Definition fitted_default : world := snd (fit_default default_classifier).

(** A classifier with one regime of type [empirical_movement] and replay
    speed 2 (and the discrete transition [identity]: with one regime
    [strong_diagonal] divides by zero), fitted on an animal that starts in
    the second bin and moves to the first for good: the second bin is left
    but never entered. *)
Definition empirical_classifier : world :=
  snd (SortedSpikesClassifier_init (qz 2) 2 (qfrac 1 20) None
         [["empirical_movement"%string]] "identity" "uniform_on_track"
         (qz 10) (qz 10) _DISCRETE_DIAG true new_world).

Definition fitted_empirical : world := snd (fit_default empirical_classifier).

(** The same classifier fitted on an animal that goes back and forth
    between the two bins: every bin that is left is also entered. *)
Definition back_and_forth : ndarray := Arr1 [qz 1; qz 3; qz 1].

Definition fit_back_and_forth : M unit :=
  SortedSpikesClassifier_fit back_and_forth spike_counts None None None None None tt.

Definition fitted_back_and_forth : world :=
  snd (fit_back_and_forth empirical_classifier).

(** The mask of a classifier, when it has one. *)
Definition fitted_mask (w : world) : option bool_ndarray :=
  match attrs w !! "is_track_interior_"%string with
  | Some (PRef l) =>
      match heap w !! l with
      | Some (OBool interior) => Some interior
      | _ => None
      end
  | _ => None
  end.

(** The default classifier after [fit_place_grid]. *)
Definition gridded_default : world :=
  snd (fit_place_grid track_position None None None tt true None default_classifier).

(** [predict] on two time steps, and the dataset it returns. *)
Definition predict_default : M dataset :=
  SortedSpikesClassifier_predict [[qz 0]; [qz 1]] None true.

Definition posterior_default : dataset :=
  match fst (predict_default fitted_default) with
  | Ok ds => ds
  | Raise _ => Dataset [] []
  end.

End Inputs.

(** * Properties *)

Example empirical_movement_example :
  StateTransition.empirical_movement (R:=unit) (Arr1 [qz 3; qz 1; qz 1]) [[qz 0; qz 2; qz 4]] None 2 None
  = Ok [[qfrac 1 4; qfrac 1 4]; [0; 0]].
Proof. compute_done. Qed.

Example uniform_example :
  StateTransition.uniform_state_transition [[qz 1];[qz 3];[qz 5]] (Bool1 [true; false; true])
  = Ok [[qfrac 1 2; 0; qfrac 1 2]; [0;0;0]; [qfrac 1 2; 0; qfrac 1 2]].
Proof. compute_done. Qed.

(** ** Arithmetic of exact numbers *)

Lemma qz_add (a b : Z) : qz (a + b) = qz a + qz b.
Proof.
  apply Qc_is_canon. unfold qz. simpl.
  rewrite !Qred_correct, inject_Z_plus. reflexivity.
Qed.

Lemma qz_0 : qz 0 = 0.
Proof. compute_done. Qed.

Lemma qz_1 : qz 1 = 1.
Proof. compute_done. Qed.

Lemma qz_inj (a b : Z) : qz a = qz b -> a = b.
Proof.
  intros Heq. apply (f_equal this) in Heq. unfold qz in Heq. simpl in Heq.
  assert (Hq : (inject_Z a == inject_Z b)%Q).
  { rewrite <- (Qred_correct (inject_Z a)), <- (Qred_correct (inject_Z b)), Heq.
    reflexivity. }
  unfold Qeq in Hq. simpl in Hq. lia.
Qed.

Lemma of_nat_S (n : nat) : of_nat (S n) = of_nat n + 1.
Proof. unfold of_nat. rewrite Nat2Z.inj_succ, <- Z.add_1_r, qz_add, qz_1. ring. Qed.

Lemma of_nat_0 : of_nat 0 = 0.
Proof. exact qz_0. Qed.

Lemma of_nat_neq_0 (n : nat) : n <> 0%nat -> of_nat n <> 0.
Proof.
  intros Hn Heq. unfold of_nat in Heq. rewrite <- qz_0 in Heq.
  apply qz_inj in Heq. lia.
Qed.

(** ** Sums *)

Lemma sum_cons (a : Qc) (v : list Qc) : sum (a :: v) = a + sum v.
Proof. reflexivity. Qed.

Lemma sum_app (u v : list Qc) : sum (u ++ v) = sum u + sum v.
Proof. induction u as [|a u IH]; simpl; [ring | rewrite IH; ring]. Qed.

Lemma sum_map_const {A} (c : Qc) (l : list A) :
  sum (map (fun _ => c) l) = of_nat (length l) * c.
Proof.
  induction l as [|a l IH]; simpl length.
  - rewrite of_nat_0. simpl. ring.
  - rewrite of_nat_S. simpl. rewrite IH. ring.
Qed.

Lemma sum_map_zero {A} (l : list A) : sum (map (fun _ => 0) l) = 0.
Proof. rewrite sum_map_const. ring. Qed.

Lemma sum_map_add {A} (f g : A -> Qc) (l : list A) :
  sum (map (fun a => f a + g a) l) = sum (map f l) + sum (map g l).
Proof. induction l as [|a l IH]; simpl; [ring | rewrite IH; ring]. Qed.

Lemma sum_map_scale {A} (c : Qc) (f : A -> Qc) (l : list A) :
  sum (map (fun a => c * f a) l) = c * sum (map f l).
Proof. induction l as [|a l IH]; simpl; [ring | rewrite IH; ring]. Qed.

Lemma sum_map_ext {A} (f g : A -> Qc) (l : list A) :
  (forall a, a ∈ l -> f a = g a) -> sum (map f l) = sum (map g l).
Proof.
  intros Hfg. f_equal. apply map_ext_in. intros a Ha. apply Hfg.
  by apply list_elem_of_In.
Qed.

(** Summing the entries of a row by position. *)
Lemma sum_nth_seq (row : list Qc) :
  sum (map (fun j => nth j row 0) (seq 0 (length row))) = sum row.
Proof.
  induction row as [|a row IH]; [reflexivity|].
  simpl length. rewrite <- cons_seq. simpl map. rewrite !sum_cons. f_equal.
  rewrite <- IH, <- seq_shift, map_map. reflexivity.
Qed.

(** ** Matrix products and powers *)

Lemma dot_nil_r (u : list Qc) : dot u [] = 0.
Proof. by destruct u. Qed.

Lemma dot_cons (a b : Qc) (u v : list Qc) : dot (a :: u) (b :: v) = a * b + dot u v.
Proof. reflexivity. Qed.

(** The entries of [row @ b] add up to the dot product of [row] with the row
    sums of [b]. *)
Lemma sum_vecmat (m : nat) (b : mat) (r : list Qc) :
  Forall (fun row => length row = m) b ->
  sum (map (fun j => dot r (col b j)) (seq 0 m)) = dot r (row_sums b).
Proof.
  intros Hb. revert r. induction Hb as [|row b Hrow Hb IH]; intros r.
  - simpl. rewrite dot_nil_r. apply sum_map_zero.
  - destruct r as [|a r].
    + apply sum_map_zero.
    + simpl col. simpl row_sums.
      rewrite dot_cons, <- IH, <- (sum_nth_seq row), Hrow, <- sum_map_scale,
        <- sum_map_add.
      reflexivity.
Qed.

Lemma has_shape_hd (n m : nat) (b : mat) :
  has_shape n m b -> (n = 0 -> m = 0)%nat -> length (hd [] b) = m.
Proof.
  intros [Hlen Hrows] Hnm. destruct b as [|row b]; simpl in *.
  - symmetry. by apply Hnm.
  - by inversion Hrows.
Qed.

Lemma row_sums_matmul (n : nat) (a b : mat) :
  has_shape n n b ->
  row_sums (matmul a b) = map (fun row => dot row (row_sums b)) a.
Proof.
  intros Hb. unfold row_sums, matmul. rewrite map_map.
  apply map_ext. intros row.
  rewrite (has_shape_hd n n b Hb) by done.
  apply sum_vecmat, Hb.
Qed.

Lemma matmul_shape (n : nat) (a b : mat) :
  length a = n -> has_shape n n b -> has_shape n n (matmul a b).
Proof.
  intros Ha Hb. split.
  - unfold matmul. by rewrite length_map.
  - unfold matmul. apply Forall_forall. intros row Hrow.
    apply list_elem_of_In, in_map_iff in Hrow as (r & <- & _).
    rewrite length_map, length_seq. by apply (has_shape_hd n n).
Qed.

Lemma power_succ_shape (n : nat) (m : mat) (k : nat) :
  has_shape n n m -> has_shape n n (power_succ m k).
Proof.
  intros Hm. induction k as [|k IH]; simpl; [done|].
  apply matmul_shape; [apply Hm | done].
Qed.

Lemma dot_absorb (u v : list Qc) :
  Forall2 (fun a r => a * r = a) u v -> dot u v = sum u.
Proof.
  induction 1 as [|a r u v Har _ IH]; [reflexivity|].
  rewrite dot_cons, sum_cons, Har, IH. reflexivity.
Qed.

Lemma row_absorbs_row_sums (n : nat) (m : mat) (row : list Qc) :
  has_shape n n m -> rows_sum_to_1_or_0 m -> no_mass_into_zero_rows m ->
  row ∈ m -> dot row (row_sums m) = sum row.
Proof.
  intros [Hlen Hrows] H01 Hcol Hrow. apply dot_absorb.
  apply Forall2_same_length_lookup. split.
  - unfold row_sums. rewrite length_map, Hlen.
    by apply (proj1 (Forall_forall _ _) Hrows).
  - intros j a r Ha Hr. unfold row_sums in Hr.
    rewrite list_lookup_fmap in Hr.
    destruct (m !! j) as [rowj|] eqn:Hj; simpl in Hr; [|discriminate].
    injection Hr as <-.
    destruct (proj1 (Forall_forall _ _) H01 rowj) as [-> | Hz].
    { by apply list_elem_of_lookup_2 in Hj. }
    { ring. }
    rewrite Hz.
    pose proof (proj1 (Forall_forall _ _) (Hcol j rowj Hj Hz) row Hrow) as Hn.
    simpl in Hn. rewrite (nth_lookup_Some _ _ _ _ Ha) in Hn. subst a. ring.
Qed.

Lemma power_succ_row_sums (n : nat) (m : mat) (k : nat) :
  has_shape n n m -> rows_sum_to_1_or_0 m -> no_mass_into_zero_rows m ->
  row_sums (power_succ m k) = row_sums m.
Proof.
  intros Hm H01 Hcol. induction k as [|k IH]; [reflexivity|].
  simpl. rewrite (row_sums_matmul n) by by apply power_succ_shape.
  rewrite IH. unfold row_sums at 2.
  apply map_ext_in. intros row Hrow. apply (row_absorbs_row_sums n); try done.
  by apply list_elem_of_In.
Qed.

(** ** Row normalisation *)

Lemma sum_map_div (s : Qc) (row : list Qc) :
  sum (map (fun a => a / s) row) = sum row / s.
Proof.
  induction row as [|a row IH]; simpl.
  - unfold Qcdiv. ring.
  - rewrite IH. unfold Qcdiv. ring.
Qed.

Lemma normalized_row_sum (row : list Qc) :
  sum (map (fun a => StateTransition.divide_nan_to_zero a (sum row)) row)
  = if decide (sum row = 0) then 0 else 1.
Proof.
  unfold StateTransition.divide_nan_to_zero.
  destruct (decide (sum row = 0)) as [Hz|Hnz].
  - apply sum_map_zero.
  - rewrite sum_map_div. unfold Qcdiv. by apply Qcmult_inv_r.
Qed.

Lemma normalize_rows_sum_to_1_or_0 (x : mat) :
  rows_sum_to_1_or_0 (StateTransition._normalize_row_probability x).
Proof.
  unfold rows_sum_to_1_or_0, StateTransition._normalize_row_probability.
  apply Forall_forall. intros r Hr.
  apply list_elem_of_In, in_map_iff in Hr as (row & <- & _).
  rewrite normalized_row_sum. destruct (decide (sum row = 0)); auto.
Qed.

Lemma normalize_shape (n m : nat) (x : mat) :
  has_shape n m x -> has_shape n m (StateTransition._normalize_row_probability x).
Proof.
  intros [Hlen Hrows]. split.
  - unfold StateTransition._normalize_row_probability. by rewrite length_map.
  - unfold StateTransition._normalize_row_probability.
    apply Forall_map. eapply Forall_impl; [exact Hrows|].
    intros row Hrow. simpl. by rewrite length_map.
Qed.

(** ** Discrete transition matrices *)

Lemma sum_diag_row (d off : Qc) (i a n : nat) :
  (a <= i < a + n)%nat ->
  sum (map (fun j => if decide (i = j) then d else off) (seq a n))
  = d + of_nat (n - 1) * off.
Proof.
  revert a. induction n as [|n IH]; intros a Hi; [lia|].
  simpl seq. simpl map. rewrite sum_cons.
  destruct (decide (i = a)) as [->|Hne].
  - rewrite (sum_map_ext _ (fun _ => off)).
    + rewrite sum_map_const, length_seq. by replace (S n - 1)%nat with n by lia.
    + intros j Hj. apply elem_of_seq in Hj. destruct (decide (a = j)); [lia|done].
  - rewrite IH by lia. destruct n as [|n]; [lia|].
    replace (S (S n) - 1)%nat with (S n) by lia.
    replace (S n - 1)%nat with n by lia.
    rewrite of_nat_S. ring.
Qed.

(** C6.  For [n >= 2] and [0 < diag < 1], [strong_diagonal_discrete n diag]
    returns an [n] by [n] matrix with [diag] on the diagonal,
    [(1 - diag) / (n - 1)] everywhere else, and rows that sum to 1. *)
Theorem strong_diagonal_discrete_spec (n : nat) (diag : Qc) :
  (2 <= n)%nat -> 0 < diag /\ diag < 1 ->
  exists m,
    StateTransition.strong_diagonal_discrete n diag = Ok m /\
    has_shape n n m /\
    (forall i j row x, m !! i = Some row -> row !! j = Some x ->
       x = if decide (i = j) then diag else (1 - diag) / (of_nat n - 1)) /\
    Forall (fun row => sum row = 1) m.
Proof.
  intros Hn _. unfold StateTransition.strong_diagonal_discrete.
  destruct (decide (n = 1%nat)) as [?|_]; [lia|].
  assert (Hoff : qz (Z.of_nat n - 1) = of_nat n - 1).
  { unfold of_nat. replace (Z.of_nat n - 1)%Z with (Z.of_nat n + (-1))%Z by lia.
    rewrite qz_add. replace (qz (-1)) with (- 1) by compute_done. ring. }
  assert (Hn1 : of_nat n - 1 = of_nat (n - 1)).
  { destruct n as [|n]; [lia|]. rewrite of_nat_S.
    replace (S n - 1)%nat with n by lia. ring. }
  eexists. split; [reflexivity|]. rewrite Hoff.
  split; [|split].
  - split; [by rewrite length_map, length_seq|].
    apply Forall_map, Forall_forall. intros i _. simpl.
    by rewrite length_map, length_seq.
  - intros i j row x Hrow Hx.
    rewrite list_lookup_fmap in Hrow.
    destruct (seq 0 n !! i) as [i'|] eqn:Hi; simpl in Hrow; [|discriminate].
    apply lookup_seq in Hi as [-> _]. injection Hrow as <-.
    rewrite list_lookup_fmap in Hx.
    destruct (seq 0 n !! j) as [j'|] eqn:Hj; simpl in Hx; [|discriminate].
    apply lookup_seq in Hj as [-> _]. injection Hx as <-. simpl.
    destruct (decide (i = j)); [ring | reflexivity].
  - apply Forall_map, Forall_forall. intros i Hi. simpl.
    apply elem_of_seq in Hi.
    rewrite sum_diag_row by lia. rewrite Hn1.
    unfold Qcdiv. rewrite (Qcmult_comm (1 - diag)), Qcmult_assoc, Qcmult_inv_r.
    + ring.
    + apply of_nat_neq_0. lia.
Qed.

Lemma strong_diagonal_discrete_spec_witness :
  exists m,
    StateTransition.strong_diagonal_discrete 3 (qfrac 99 100) = Ok m /\
    has_shape 3 3 m /\
    (forall i j row x, m !! i = Some row -> row !! j = Some x ->
       x = if decide (i = j) then qfrac 99 100 else (1 - qfrac 99 100) / (of_nat 3 - 1)) /\
    Forall (fun row => sum row = 1) m.
Proof.
  apply (strong_diagonal_discrete_spec 3 (qfrac 99 100)).
  - lia.
  - split; reflexivity.
Defined.

(** ** Matrices restricted to the track interior *)

Lemma zero_cols_of_zero_row (flat : list bool) (bi : bool) (row : list Qc) :
  zip_with (fun (k : bool) a => if k then a else 0) flat
           (if bi then row else map (fun _ => 0) row)
  = zip_with (fun (bj : bool) a => if bi && bj then a else 0) flat row.
Proof.
  destruct bi; [reflexivity|]. simpl.
  revert row. induction flat as [|b flat IH]; intros [|a row]; simpl; try done.
  rewrite IH. by destruct b.
Qed.

Lemma zero_rows_cols (n : nat) (flat : list bool) (x : mat) :
  length flat = n -> has_shape n n x ->
  zero_rows flat x ≫= zero_cols flat = Ok (masked flat x).
Proof.
  intros Hflat [Hlen Hrows]. unfold zero_rows.
  rewrite decide_True by congruence. simpl.
  unfold zero_cols.
  rewrite (proj2 (forallb_forall _ _)).
  - f_equal. unfold masked. clear Hlen Hflat.
    revert x Hrows. generalize flat at 2 4 as l.
    induction l as [|bi l IH]; intros [|row x] Hrows; simpl; try done.
    rewrite zero_cols_of_zero_row. f_equal. apply IH. by inversion Hrows.
  - intros row Hrow. apply bool_decide_eq_true_2.
    apply list_elem_of_In, elem_of_lookup_zip_with_1 in Hrow
      as (i & bi & r & -> & _ & Hr).
    apply list_elem_of_lookup_2 in Hr.
    pose proof (proj1 (Forall_forall _ _) Hrows r Hr) as Hn. simpl in Hn.
    destruct bi; [congruence|]. rewrite length_map. congruence.
Qed.

Lemma masked_shape (n : nat) (flat : list bool) (x : mat) :
  length flat = n -> has_shape n n x -> has_shape n n (masked flat x).
Proof.
  intros Hflat [Hlen Hrows]. split.
  - unfold masked. rewrite length_zip_with. lia.
  - apply Forall_forall. intros row Hrow.
    apply elem_of_lookup_zip_with_1 in Hrow as (i & bi & r & -> & _ & Hr).
    apply list_elem_of_lookup_2 in Hr.
    pose proof (proj1 (Forall_forall _ _) Hrows r Hr) as Hn. simpl in Hn.
    rewrite length_zip_with. lia.
Qed.

(** An entry of the masked matrix. *)
Lemma masked_lookup (flat : list bool) (x : mat) (i j : nat) (row : list Qc) (v : Qc) :
  masked flat x !! i = Some row -> row !! j = Some v ->
  exists bi bj rx a,
    flat !! i = Some bi /\ flat !! j = Some bj /\
    x !! i = Some rx /\ rx !! j = Some a /\
    v = if bi && bj then a else 0.
Proof.
  unfold masked. intros Hrow Hv.
  apply lookup_zip_with_Some in Hrow as (bi & rx & -> & Hbi & Hrx).
  apply lookup_zip_with_Some in Hv as (bj & a & -> & Hbj & Ha).
  by exists bi, bj, rx, a.
Qed.

Lemma masked_ones (n : nat) (flat : list bool) :
  length flat = n ->
  masked flat (ones n n)
  = map (fun bi : bool => map (fun bj : bool => if bi && bj then 1 else 0) flat) flat.
Proof.
  intros Hflat. unfold masked, ones.
  rewrite (zip_with_replicate_r_eq _ n) by done.
  apply map_ext. intros bi. unfold flip.
  by rewrite (zip_with_replicate_r_eq _ n) by done.
Qed.

Lemma sum_interior_flags (flat : list bool) :
  sum (map (fun bj : bool => if bj then 1 else 0) flat) = of_nat (count_interior flat).
Proof.
  unfold count_interior. induction flat as [|b flat IH].
  - simpl. by rewrite of_nat_0.
  - simpl map. rewrite sum_cons, IH. destruct b.
    + rewrite filter_cons_True by done. simpl length. rewrite of_nat_S. ring.
    + rewrite filter_cons_False by done. ring.
Qed.

(** C7.  With one flag per bin and [k >= 1] interior bins, the uniform builder
    returns a bins-by-bins matrix whose entry from an interior bin to an
    interior bin is [1/k], and whose entries in the row or the column of an
    exterior bin are 0. *)
Theorem uniform_state_transition_spec
    (place_bin_centers : mat) (is_track_interior : bool_ndarray) :
  let flat := ravel_F is_track_interior in
  let n := length place_bin_centers in
  let k := count_interior flat in
  length flat = n -> (1 <= k)%nat ->
  exists t,
    StateTransition.uniform_state_transition place_bin_centers is_track_interior = Ok t /\
    has_shape n n t /\
    forall i j (bi bj : bool), flat !! i = Some bi -> flat !! j = Some bj ->
      exists row, t !! i = Some row /\
        row !! j = Some (if bi && bj then 1 / of_nat k else 0).
Proof.
  intros flat n k Hflat Hk.
  unfold StateTransition.uniform_state_transition. fold flat. fold n.
  assert (Hones : has_shape n n (ones n n)).
  { split; [apply length_replicate|].
    apply Forall_replicate, length_replicate. }
  pose proof (zero_rows_cols n flat (ones n n) Hflat Hones) as Hmask.
  destruct (zero_rows flat (ones n n)) as [x1|e]; simpl in Hmask; [|discriminate].
  simpl. rewrite Hmask. simpl.
  eexists. split; [reflexivity|]. split.
  { by apply normalize_shape, masked_shape. }
  intros i j bi bj Hbi Hbj.
  rewrite masked_ones by done.
  unfold StateTransition._normalize_row_probability.
  rewrite !map_map. eexists. split.
  { rewrite list_lookup_fmap, Hbi. reflexivity. }
  rewrite map_map, list_lookup_fmap, Hbj. simpl. f_equal.
  unfold StateTransition.divide_nan_to_zero.
  destruct bi; simpl.
  - rewrite sum_interior_flags. fold k.
    rewrite decide_False by (apply of_nat_neq_0; lia).
    destruct bj; [reflexivity|]. unfold Qcdiv. ring.
  - rewrite sum_map_zero. by rewrite decide_True.
Qed.

Lemma uniform_state_transition_spec_witness :
  exists t,
    StateTransition.uniform_state_transition [[qz 1]; [qz 3]; [qz 5]]
      (Bool2 [[true]; [false]; [true]]) = Ok t /\
    has_shape 3 3 t /\
    forall i j (bi bj : bool),
      [true; false; true] !! i = Some bi -> [true; false; true] !! j = Some bj ->
      exists row, t !! i = Some row /\
        row !! j = Some (if bi && bj then 1 / of_nat 2 else 0).
Proof.
  apply (uniform_state_transition_spec [[qz 1]; [qz 3]; [qz 5]]
           (Bool2 [[true]; [false]; [true]])).
  - reflexivity.
  - vm_compute. lia.
Defined.

(** ** Powers of row-normalised matrices *)

(** C2 (amended).  Let every row of the square matrix [m] sum to 1 or to 0.
    [matrix_power m 1] is [m] itself.  For every [k >= 1] (so for 1, 2 and 40)
    the rows of [matrix_power m k] have the row sums of [m] -- 1 where the row
    of [m] sums to 1 and 0 where it sums to 0 -- provided [k = 1] or no row of
    [m] has mass in the column of a bin whose own row sums to 0. *)
Theorem matrix_power_preserves_row_sums (n : nat) (m : mat) (k : nat) :
  has_shape n n m -> rows_sum_to_1_or_0 m ->
  (1 <= k)%nat -> k = 1%nat \/ no_mass_into_zero_rows m ->
  matrix_power m 1 = m /\
  row_sums (matrix_power m k) = row_sums m.
Proof.
  intros Hm H01 Hk Hcol. split; [reflexivity|].
  destruct k as [|k]; [lia|]. simpl.
  destruct Hcol as [Hk1 | Hcol].
  - by replace k with 0%nat by lia.
  - by apply (power_succ_row_sums n).
Qed.

Lemma matrix_power_preserves_row_sums_witness :
  let m := [[qfrac 1 2; qfrac 1 2; 0]; [qfrac 1 3; qfrac 2 3; 0]; [0; 0; 0]] in
  matrix_power m 1 = m /\
  row_sums (matrix_power m 40) = row_sums m.
Proof.
  apply (matrix_power_preserves_row_sums 3).
  - split; [reflexivity|]. by repeat constructor.
  - apply Forall_cons; split; [left; compute_done|].
    apply Forall_cons; split; [left; compute_done|].
    apply Forall_cons; split; [right; compute_done|].
    apply Forall_nil_2.
  - lia.
  - right. intros j rowj Hj Hz.
    destruct j as [|[|[|j]]]; simpl in Hj; try discriminate;
      injection Hj as <-.
    + exfalso. revert Hz. compute_done.
    + exfalso. revert Hz. compute_done.
    + by repeat constructor.
Defined.

(** The claim fails without the proviso: the rows of
    [m = _normalize_row_probability [[1; 1]; [0; 0]]] sum to 1 and to 0, but
    row 0 of its square sums to 1/2, and row 0 of its 40th power to 2^-39. *)
Lemma matrix_power_loses_mass :
  let m := StateTransition._normalize_row_probability [[1; 1]; [0; 0]] in
  m = [[qfrac 1 2; qfrac 1 2]; [0; 0]] /\
  row_sums m = [1; 0] /\
  matrix_power m 2 = [[qfrac 1 4; qfrac 1 4]; [0; 0]] /\
  row_sums (matrix_power m 2) = [qfrac 1 2; 0] /\
  row_sums (matrix_power m 40) = [qfrac 1 (2 ^ 39); 0] /\
  ~ (forall k, k = 1%nat \/ k = 2%nat \/ k = 40%nat ->
       row_sums (matrix_power m k) = row_sums m).
Proof.
  repeat split; try compute_done.
  intros Hall. specialize (Hall 2%nat (or_intror (or_introl eq_refl))).
  revert Hall. compute_done.
Qed.

(** ** The training mask of [empirical_movement] *)

Lemma bool_index_all_true {A} (l : list A) :
  bool_index (replicate (length l) true) l = Ok l.
Proof.
  unfold bool_index. rewrite decide_True by apply length_replicate.
  f_equal. induction l as [|a l IH]; [reflexivity|].
  change (zip (a :: l) (replicate (length (a :: l)) true))
    with ((a, true) :: zip l (replicate (length l) true)).
  rewrite filter_cons_True by done. rewrite fmap_cons. simpl. by rewrite IH.
Qed.

Lemma bool_index_fmap {A B} (f : A -> B) (keep : list bool) (l : list A) :
  bool_index keep (map f l) = map f <$> bool_index keep l.
Proof.
  unfold bool_index. rewrite length_map.
  destruct (decide (length keep = length l)) as [_|_]; [|reflexivity].
  simpl. f_equal. revert keep. induction l as [|a l IH]; intros [|b keep];
    try done.
  change (zip (map f (a :: l)) (b :: keep)) with ((f a, b) :: zip (map f l) keep).
  change (zip (a :: l) (b :: keep)) with ((a, b) :: zip l keep).
  destruct b.
  - rewrite !filter_cons_True by done. rewrite !fmap_cons. simpl. by rewrite IH.
  - rewrite !filter_cons_False by done. apply IH.
Qed.

(** ** Marginalising the position axes *)

Section PredictProba.
Import Classifier Xr.

Lemma sum_xy_fails_iff (results : dataset) :
  dataset_sum ["x_position"; "y_position"]%string results = Raise ValueError
  <-> ~ has_xy results.
Proof.
  unfold dataset_sum, has_xy.
  destruct (decide (Forall _ _)) as [Hall|Hnot]; split.
  - discriminate.
  - intros Hno. exfalso. apply Hno.
    apply Forall_cons in Hall as [Hx Hall].
    by apply Forall_cons in Hall as [Hy _].
  - intros _ [Hx Hy]. apply Hnot. by repeat constructor.
  - done.
Qed.

(** C9.  [predict_proba] returns the dataset summed over [x_position] and
    [y_position] when that sum succeeds; the sum fails, with a ValueError,
    exactly when the dataset lacks one of the two dimensions, and exactly
    then [predict_proba] is the sum over [position] instead -- for results
    with a [position] axis, the dataset with that axis summed out. *)
Theorem predict_proba_spec (results : dataset) :
  (forall summed,
     dataset_sum ["x_position"; "y_position"]%string results = Ok summed ->
     predict_proba results = Ok summed) /\
  (dataset_sum ["x_position"; "y_position"]%string results = Raise ValueError ->
     predict_proba results = dataset_sum ["position"]%string results) /\
  (has_xy results ->
     predict_proba results
     = Ok (reduce ["x_position"; "y_position"]%string results)) /\
  (~ has_xy results ->
     dataset_sum ["x_position"; "y_position"]%string results = Raise ValueError /\
     predict_proba results = dataset_sum ["position"]%string results) /\
  (~ has_xy results -> "position"%string ∈ dataset_dims results ->
     predict_proba results = Ok (reduce ["position"]%string results)).
Proof.
  assert (Hfail : ~ has_xy results ->
            predict_proba results = dataset_sum ["position"]%string results).
  { intros Hno. apply sum_xy_fails_iff in Hno.
    unfold predict_proba. by rewrite Hno. }
  repeat split.
  - intros summed Hsum. unfold predict_proba. by rewrite Hsum.
  - intros Hsum. unfold predict_proba. by rewrite Hsum.
  - intros [Hx Hy]. unfold predict_proba, dataset_sum.
    rewrite decide_True; [done|]. by repeat constructor.
  - by apply sum_xy_fails_iff.
  - by apply Hfail.
  - intros Hno Hpos. rewrite Hfail by done. unfold dataset_sum.
    rewrite decide_True; [done|]. by repeat constructor.
Qed.

Example predict_proba_1d :
  predict_proba results_1d
  = Ok (Dataset
          [("causal_posterior"%string,
            DataArray ["time"; "state"]%string (of_mat [[1]; [1]]))]
          [("time"%string, CoordNum [qz 0; qz 1]);
           ("state"%string, CoordStr ["random_walk"%string])]).
Proof. compute_done. Qed.

End PredictProba.

(** ** The inference core *)

Section InferenceCore.
Import Core.

Lemma acausal_recursion_last (causal : list mat) continuous discrete :
  last (acausal_recursion causal continuous discrete) = last causal.
Proof.
  induction causal as [|causal_t later IH]; [reflexivity|]. simpl.
  destruct (acausal_recursion later continuous discrete) as [|next smoothed].
  - destruct later as [|x later]; [reflexivity|].
    rewrite last_cons in IH. simpl in IH. by destruct (last later).
  - rewrite !last_cons, <- IH, last_cons. by destruct (last smoothed).
Qed.

Lemma unit_axis_off_on (slice : mat) : unit_axis_off (unit_axis_on slice) = slice.
Proof.
  unfold unit_axis_off, unit_axis_on. rewrite map_map.
  rewrite <- (map_id slice) at 2. apply map_ext. intros row.
  rewrite map_map. rewrite <- (map_id row) at 2. by apply map_ext.
Qed.

(** The terminal condition of the smoother: the last acausal slice is the
    last causal slice. *)
Lemma acausal_classify_last initial_conditions continuous discrete likelihood
    continuous' discrete' :
  let causal := _causal_classify initial_conditions continuous discrete likelihood in
  last (_acausal_classify causal continuous' discrete') = last causal.
Proof.
  simpl. unfold _acausal_classify, _causal_classify.
  rewrite !fmap_last, acausal_recursion_last, !fmap_last.
  destruct (last (causal_recursion _ _ _ _)) as [slice|]; [|reflexivity].
  simpl. by rewrite unit_axis_off_on.
Qed.

(** *** Shapes *)

Lemma normalize_to_probability_shape n m slice :
  has_shape n m slice -> has_shape n m (normalize_to_probability slice).
Proof.
  intros [Hlen Hrows]. unfold normalize_to_probability. split.
  - by rewrite length_map.
  - apply Forall_map. eapply Forall_impl; [exact Hrows|].
    intros row Hrow. simpl. by rewrite length_map.
Qed.

Lemma times_shape n m a b :
  has_shape n m a -> has_shape n m b -> has_shape n m (times a b).
Proof.
  intros [Ha Hra] [Hb Hrb]. unfold times. split.
  - rewrite length_zip_with. lia.
  - apply Forall_forall. intros row Hrow.
    apply elem_of_lookup_zip_with_1 in Hrow as (i & x & y & -> & Hx & Hy).
    apply list_elem_of_lookup_2 in Hx, Hy.
    pose proof (proj1 (Forall_forall _ _) Hra x Hx) as Hlx.
    pose proof (proj1 (Forall_forall _ _) Hrb y Hy) as Hly.
    simpl in *. rewrite length_zip_with. lia.
Qed.

Lemma predictive_prior_shape n m posterior continuous discrete :
  (1 <= n)%nat -> has_shape n m posterior ->
  has_shape n m (predictive_prior posterior continuous discrete).
Proof.
  intros Hn [Hlen Hrows]. unfold predictive_prior.
  assert (Hm : n_bins_of posterior = m).
  { unfold n_bins_of. destruct posterior as [|row rest]; simpl in *; [lia|].
    by inversion Hrows. }
  split.
  - by rewrite length_map, length_seq.
  - apply Forall_map, Forall_forall. intros s _. simpl.
    by rewrite length_map, length_seq.
Qed.

Lemma causal_steps_shape n m previous continuous discrete likelihood :
  (1 <= n)%nat -> has_shape n m previous ->
  Forall (has_shape n m) likelihood ->
  Forall (has_shape n m) (causal_steps previous continuous discrete likelihood).
Proof.
  intros Hn Hprev Hlik. revert previous Hprev.
  induction Hlik as [|l_t rest Hl Hrest IH]; intros previous Hprev; simpl.
  - constructor.
  - assert (Hpost : has_shape n m
              (normalize_to_probability
                 (times (predictive_prior previous continuous discrete) l_t))).
    { apply normalize_to_probability_shape, times_shape; [|done].
      by apply predictive_prior_shape. }
    constructor; [done|]. by apply IH.
Qed.

Lemma causal_recursion_shape n m initial_conditions continuous discrete likelihood :
  (1 <= n)%nat -> has_shape n m initial_conditions ->
  Forall (has_shape n m) likelihood ->
  Forall (has_shape n m)
    (causal_recursion initial_conditions continuous discrete likelihood).
Proof.
  intros Hn Hic Hlik. unfold causal_recursion.
  destruct Hlik as [|l_0 rest Hl Hrest]; [constructor|].
  assert (Hpost : has_shape n m
            (normalize_to_probability (times initial_conditions l_0))).
  { by apply normalize_to_probability_shape, times_shape. }
  constructor; [done|]. by apply causal_steps_shape.
Qed.

Lemma causal_recursion_length initial_conditions continuous discrete likelihood :
  length (causal_recursion initial_conditions continuous discrete likelihood)
  = length likelihood.
Proof.
  unfold causal_recursion. destruct likelihood as [|l_0 rest]; [reflexivity|].
  simpl. f_equal. generalize (normalize_to_probability (times initial_conditions l_0)).
  induction rest as [|l_t rest IH]; intros previous; simpl; [reflexivity|].
  f_equal. apply IH.
Qed.

End InferenceCore.

(** ** Row sums of the continuous transition builders *)

Section BuilderRows.
Context `{ScipyStats}.

Lemma rows_sum_to_1_or_0_row_sums (x y : mat) :
  row_sums x = row_sums y -> rows_sum_to_1_or_0 y -> rows_sum_to_1_or_0 x.
Proof.
  unfold rows_sum_to_1_or_0, row_sums. intros Hxy Hy.
  apply (Forall_map sum (fun s => s = 1 \/ s = 0)). rewrite Hxy.
  by apply Forall_map.
Qed.

Lemma identity_shape (n : nat) : has_shape n n (Np.identity n).
Proof.
  unfold Np.identity. split; [by rewrite length_map, length_seq|].
  apply Forall_map, Forall_forall. intros i _. simpl.
  by rewrite length_map, length_seq.
Qed.

Lemma identity_rows (n : nat) : Forall (fun row => sum row = 1) (Np.identity n).
Proof.
  unfold Np.identity. apply Forall_map, Forall_forall. intros i Hi. simpl.
  apply elem_of_seq in Hi. rewrite sum_diag_row by lia. ring.
Qed.

Lemma matrix_power_shape (n : nat) (m : mat) (k : nat) :
  has_shape n n m -> has_shape n n (matrix_power m k).
Proof.
  intros Hm. destruct k as [|k]; simpl.
  - destruct Hm as [-> _]. apply identity_shape.
  - by apply power_succ_shape.
Qed.

(** The power keeps the rows summing to 1 or 0 when no mass enters the
    bins whose row is 0. *)
Lemma matrix_power_rows (n : nat) (m : mat) (k : nat) :
  has_shape n n m -> rows_sum_to_1_or_0 m -> no_mass_into_zero_rows m ->
  rows_sum_to_1_or_0 (matrix_power m k).
Proof.
  intros Hm H01 Hcol. destruct k as [|k]; simpl.
  - eapply Forall_impl; [apply identity_rows|]. intros row Hrow. by left.
  - eapply rows_sum_to_1_or_0_row_sums; [|exact H01].
    by apply (power_succ_row_sums n).
Qed.

(** *** Non-negative rows *)

Lemma sum_nonneg (v : list Qc) : Forall (fun a => 0 <= a) v -> 0 <= sum v.
Proof.
  induction 1 as [|a v Ha _ IH]; [done|].
  rewrite sum_cons. by apply Qcplus_nonneg_nonneg.
Qed.

Lemma sum_pos (v : list Qc) (a : Qc) :
  Forall (fun a => 0 <= a) v -> a ∈ v -> 0 < a -> 0 < sum v.
Proof.
  intros Hv Ha Hpos. induction Hv as [|b v Hb Hv IH]; [by apply elem_of_nil in Ha|].
  rewrite sum_cons. apply elem_of_cons in Ha as [<- | Ha].
  - apply Qcplus_pos_nonneg; [done|]. by apply sum_nonneg.
  - apply Qcplus_nonneg_pos; [done|]. by apply IH.
Qed.

Lemma normalized_row_sum_pos (row : list Qc) :
  0 < sum row ->
  sum (map (fun a => StateTransition.divide_nan_to_zero a (sum row)) row) = 1.
Proof.
  intros Hpos. rewrite normalized_row_sum. rewrite decide_False; [done|].
  intros Hz. rewrite Hz in Hpos. by apply Qclt_not_eq in Hpos.
Qed.
(** *** Builders that mask and normalise *)

Lemma mask_then_normalize (n : nat) (flat : list bool) (x m : mat) :
  has_shape n n x ->
  (t ← zero_rows flat x; t ← zero_cols flat t;
   Ok (StateTransition._normalize_row_probability t)) = Ok m ->
  length flat = n /\
  m = StateTransition._normalize_row_probability (masked flat x).
Proof.
  intros Hx Hm.
  assert (Hflat : length flat = n).
  { unfold zero_rows in Hm. destruct (decide (length flat = length x)) as [Hl|];
      [|discriminate]. destruct Hx as [Hx _]. congruence. }
  split; [done|].
  pose proof (zero_rows_cols n flat x Hflat Hx) as Hmask.
  destruct (zero_rows flat x) as [x1|e]; simpl in *; [|discriminate].
  rewrite Hmask in Hm. simpl in Hm. by injection Hm as <-.
Qed.

Lemma ones_shape (n : nat) : has_shape n n (ones n n).
Proof.
  split; [apply length_replicate|]. apply Forall_replicate, length_replicate.
Qed.

Lemma uniform_state_transition_rows (centers : mat) interior m :
  StateTransition.uniform_state_transition centers interior = Ok m ->
  has_shape (length centers) (length centers) m /\ rows_sum_to_1_or_0 m.
Proof.
  unfold StateTransition.uniform_state_transition. intros Hm.
  apply (mask_then_normalize (length centers)) in Hm as [Hflat ->];
    [|apply ones_shape].
  split; [|apply normalize_rows_sum_to_1_or_0].
  apply normalize_shape, masked_shape; [done|apply ones_shape].
Qed.

Lemma identity_rows_sum (centers : mat) interior m :
  StateTransition.identity centers interior = Ok m ->
  has_shape (length centers) (length centers) m /\ rows_sum_to_1_or_0 m.
Proof.
  unfold StateTransition.identity. intros Hm.
  apply (mask_then_normalize (length centers)) in Hm as [Hflat ->];
    [|apply identity_shape].
  split; [|apply normalize_rows_sum_to_1_or_0].
  apply normalize_shape, masked_shape; [done|apply identity_shape].
Qed.

(** *** Random walks *)

Hypothesis pdf_positive : forall mean cov x, 0 < multivariate_normal_pdf mean cov x.

Lemma gaussian_kernel_shape (centers : mat) cov :
  has_shape (length centers) (length centers)
    (StateTransition.gaussian_kernel centers cov).
Proof.
  unfold StateTransition.gaussian_kernel. split; [by rewrite length_map|].
  apply Forall_map, Forall_forall. intros x _. simpl. by rewrite length_map.
Qed.

Lemma gaussian_kernel_lookup (centers : mat) cov i j row a :
  StateTransition.gaussian_kernel centers cov !! i = Some row ->
  row !! j = Some a -> 0 < a.
Proof.
  unfold StateTransition.gaussian_kernel. intros Hrow Ha.
  apply list_lookup_fmap_Some in Hrow as (x & -> & _).
  apply list_lookup_fmap_Some in Ha as (bin & -> & _).
  apply pdf_positive.
Qed.

Lemma masked_row_nonneg flat (centers : mat) cov i row :
  masked flat (StateTransition.gaussian_kernel centers cov) !! i = Some row ->
  Forall (fun a => 0 <= a) row.
Proof.
  intros Hrow. apply Forall_lookup. intros j a Ha.
  destruct (masked_lookup _ _ _ _ _ _ Hrow Ha)
    as (bi & bj & rx & k & _ & _ & Hrx & Hk & ->).
  destruct (bi && bj); [|done].
  apply Qclt_le_weak. by eapply gaussian_kernel_lookup.
Qed.

(** The densities are stacked exactly when there are two or more bins and
    scipy accepts the parameters of every bin. *)
Lemma stacked_densities_accepts (centers : mat) cov :
  Forall (fun bin => multivariate_normal_error bin cov = None) centers ->
  StateTransition.stacked_densities centers cov
  = match centers with
    | [] => Raise ValueError
    | [_] => Raise AxisError
    | _ => Ok (StateTransition.gaussian_kernel centers cov)
    end.
Proof.
  intros Hok. unfold StateTransition.stacked_densities.
  assert (Hall : mapM (fun bin => match multivariate_normal_error bin cov with
                                  | Some e => Raise e
                                  | None => Ok tt
                                  end) centers
                 = Ok (map (fun _ => tt) centers)).
  { induction Hok as [|bin rest Hbin _ IH]; [reflexivity|].
    simpl. rewrite Hbin. simpl. by rewrite IH. }
  by rewrite Hall.
Qed.

Lemma stacked_densities_inv (centers : mat) cov kernel :
  StateTransition.stacked_densities centers cov = Ok kernel ->
  kernel = StateTransition.gaussian_kernel centers cov /\
  (2 <= length centers)%nat /\
  Forall (fun bin => multivariate_normal_error bin cov = None) centers.
Proof.
  unfold StateTransition.stacked_densities. intros Hk.
  assert (Hok : Forall (fun bin => multivariate_normal_error bin cov = None) centers).
  { destruct (mapM _ centers) as [units|] eqn:Hunits; [|discriminate].
    clear Hk. revert units Hunits.
    induction centers as [|bin rest IH]; intros units Hunits; [constructor|].
    simpl in Hunits.
    destruct (multivariate_normal_error bin cov) eqn:Hbin; [discriminate|].
    simpl in Hunits.
    destruct (mapM _ rest) as [units'|]; [|discriminate].
    constructor; [done|]. by apply (IH units'). }
  destruct (mapM _ centers) as [units|]; [|discriminate]. simpl in Hk.
  destruct centers as [|b1 [|b2 rest]]; try discriminate.
  injection Hk as <-. split; [done|]. split; [simpl; lia|done].
Qed.

(** What [random_walk_with_absorbing_boundaries] has computed when it
    returns. *)
Lemma random_walk_with_absorbing_boundaries_inv (centers : mat) cov interior
    replay_speed m :
  StateTransition.random_walk_with_absorbing_boundaries centers cov interior
    replay_speed = Ok m ->
  length (ravel_F interior) = length centers /\
  m = matrix_power
        (StateTransition._normalize_row_probability
           (masked (ravel_F interior) (StateTransition.gaussian_kernel centers cov)))
        replay_speed.
Proof.
  unfold StateTransition.random_walk_with_absorbing_boundaries. intros Hm.
  destruct (StateTransition.stacked_densities centers cov) as [kernel|] eqn:Hkernel;
    [|discriminate].
  apply stacked_densities_inv in Hkernel as (-> & _ & _). simpl in Hm.
  set (kernel := StateTransition.gaussian_kernel centers cov) in *.
  set (flat := ravel_F interior) in *.
  assert (Hnorm : exists t,
            (t' ← zero_rows flat kernel; t' ← zero_cols flat t';
             Ok (StateTransition._normalize_row_probability t')) = Ok t /\
            m = matrix_power t replay_speed).
  { destruct (zero_rows flat kernel) as [t1|e]; simpl in *; [|discriminate].
    destruct (zero_cols flat t1) as [t2|e]; simpl in *; [|discriminate].
    injection Hm as <-. by eexists. }
  destruct Hnorm as (t & Ht & ->).
  apply (mask_then_normalize (length centers)) in Ht as [Hflat ->];
    [done|apply gaussian_kernel_shape].
Qed.

Lemma random_walk_with_absorbing_boundaries_rows (centers : mat) cov interior
    replay_speed m :
  StateTransition.random_walk_with_absorbing_boundaries centers cov interior
    replay_speed = Ok m ->
  has_shape (length centers) (length centers) m /\ rows_sum_to_1_or_0 m.
Proof.
  intros Hm.
  apply random_walk_with_absorbing_boundaries_inv in Hm as [Hflat ->].
  set (n := length centers) in *.
  set (kernel := StateTransition.gaussian_kernel centers cov) in *.
  set (flat := ravel_F interior) in *.
  pose proof (gaussian_kernel_shape centers cov) as Hkernel. fold n kernel in Hkernel.
  assert (Hshape : has_shape n n
            (StateTransition._normalize_row_probability (masked flat kernel))).
  { by apply normalize_shape, masked_shape. }
  split; [by apply matrix_power_shape|].
  apply (matrix_power_rows n); [done|apply normalize_rows_sum_to_1_or_0|].
  intros j rowj Hj Hzero.
  unfold StateTransition._normalize_row_probability in Hj.
  apply list_lookup_fmap_Some in Hj as (mrow & -> & Hmrow).
  assert (Hbj : flat !! j = Some false).
  { unfold masked in Hmrow.
    apply lookup_zip_with_Some in Hmrow as (bj & krow & -> & Hbj & Hkrow).
    destruct bj; [exfalso|done].
    assert (exists a, krow !! j = Some a) as [a Ha].
    { apply lookup_lt_is_Some.
      destruct Hkernel as [_ Hrows].
      rewrite (proj1 (Forall_lookup _ _) Hrows j krow Hkrow).
      rewrite <- Hflat. by apply lookup_lt_Some in Hbj. }
    assert (Hpos : 0 < sum (zip_with (fun (bj : bool) a => if true && bj then a else 0)
                              flat krow)).
    { apply (sum_pos _ a).
      - apply (masked_row_nonneg flat centers cov j). unfold masked. fold kernel.
        apply lookup_zip_with_Some. by exists true, krow.
      - apply (list_elem_of_lookup_2 _ j). apply lookup_zip_with_Some.
        by exists true, a.
      - by eapply gaussian_kernel_lookup. }
    rewrite normalized_row_sum_pos in Hzero by done.
    revert Hzero. compute_done. }
  apply Forall_forall. intros row Hrow.
  apply list_elem_of_In, in_map_iff in Hrow as (mrow' & <- & Hmrow').
  apply list_elem_of_In, list_elem_of_lookup_1 in Hmrow' as [i Hi].
  rewrite nth_lookup, list_lookup_fmap.
  destruct (mrow' !! j) as [a|] eqn:Ha; [|reflexivity]. simpl.
  destruct (masked_lookup _ _ _ _ _ _ Hi Ha)
    as (bi & bj & rx & k & _ & Hbj' & _ & _ & ->).
  rewrite Hbj in Hbj'. injection Hbj' as <-.
  rewrite andb_false_r. unfold StateTransition.divide_nan_to_zero.
  destruct (decide _); [done|]. unfold Qcdiv. ring.
Qed.

Lemma random_walk_inv (centers : mat) cov replay_speed m :
  StateTransition.random_walk centers cov replay_speed = Ok m ->
  (2 <= length centers)%nat /\
  Forall (fun bin => multivariate_normal_error bin cov = None) centers /\
  m = matrix_power
        (StateTransition._normalize_row_probability
           (StateTransition.gaussian_kernel centers cov))
        replay_speed.
Proof.
  unfold StateTransition.random_walk. intros Hm.
  destruct (StateTransition.stacked_densities centers cov) as [kernel|] eqn:Hkernel;
    [|discriminate].
  apply stacked_densities_inv in Hkernel as (-> & Hlen & Hok). simpl in Hm.
  by injection Hm as <-.
Qed.

Lemma random_walk_rows (centers : mat) cov replay_speed m :
  StateTransition.random_walk centers cov replay_speed = Ok m ->
  has_shape (length centers) (length centers) m /\ rows_sum_to_1_or_0 m.
Proof.
  intros Hm. apply random_walk_inv in Hm as (_ & _ & ->).
  set (n := length centers).
  set (kernel := StateTransition.gaussian_kernel centers cov).
  pose proof (gaussian_kernel_shape centers cov) as Hkernel. fold n kernel in Hkernel.
  assert (Hshape : has_shape n n (StateTransition._normalize_row_probability kernel)).
  { by apply normalize_shape. }
  split; [by apply matrix_power_shape|].
  apply (matrix_power_rows n); [done|apply normalize_rows_sum_to_1_or_0|].
  intros j rowj Hj Hzero. exfalso.
  unfold StateTransition._normalize_row_probability in Hj.
  apply list_lookup_fmap_Some in Hj as (krow & -> & Hkrow).
  assert (exists a, krow !! j = Some a) as [a Ha].
  { apply lookup_lt_is_Some. destruct Hkernel as [Hlen Hrows].
    rewrite (proj1 (Forall_lookup _ _) Hrows j krow Hkrow).
    rewrite <- Hlen. by apply lookup_lt_Some in Hkrow. }
  assert (Hpos : 0 < sum krow).
  { apply (sum_pos _ a).
    - apply Forall_lookup. intros c b Hb. apply Qclt_le_weak.
      by eapply gaussian_kernel_lookup.
    - by apply (list_elem_of_lookup_2 _ j).
    - by eapply gaussian_kernel_lookup. }
  rewrite normalized_row_sum_pos in Hzero by done.
  revert Hzero. compute_done.
Qed.

End BuilderRows.

(** ** Reasoning about methods *)

Section Methods.
Context `{ScipyStats} `{Library}.
Import Classifier Xr.

Lemma wp_run {A} (m : M A) (Q : result A -> world -> Prop) (w : world) r w' :
  wp m Q w -> m w = (r, w') -> Q r w'.
Proof. unfold wp. intros HQ Hrun. by rewrite Hrun in HQ. Qed.

Lemma wp_returns {A} (m : M A) (P : world -> Prop) (w : world) a w' :
  wp m (fun r w' => r = Ok a -> P w') w -> m w = (Ok a, w') -> P w'.
Proof. intros Hwp Hrun. exact (wp_run _ _ _ _ _ Hwp Hrun eq_refl). Qed.

Lemma wp_mono {A} (m : M A) (Q Q' : result A -> world -> Prop) (w : world) :
  (forall r w', Q r w' -> Q' r w') -> wp m Q w -> wp m Q' w.
Proof. unfold wp. auto. Qed.

Lemma wp_ret {A} (a : A) (Q : result A -> world -> Prop) (w : world) :
  Q (Ok a) w -> wp (mret a) Q w.
Proof. done. Qed.

Lemma wp_raise {A} (e : exn) (Q : result A -> world -> Prop) (w : world) :
  Q (Raise e) w -> wp (raise e) Q w.
Proof. done. Qed.

Lemma wp_lift {A} (r : result A) (Q : result A -> world -> Prop) (w : world) :
  Q r w -> wp (lift r) Q w.
Proof. done. Qed.

Lemma wp_bind {A B} (m : M A) (f : A -> M B) (Q : result B -> world -> Prop)
    (w : world) :
  wp m (fun r w1 => match r with
                    | Ok a => wp (f a) Q w1
                    | Raise e => Q (Raise e) w1
                    end) w ->
  wp (m ≫= f) Q w.
Proof.
  unfold wp, mbind, M_bind. destruct (m w) as [[a|e] w1]; simpl; auto.
Qed.

Lemma wp_getattr (name : string) (Q : result pyval -> world -> Prop) (w : world) :
  match attrs w !! name with
  | Some v => Q (Ok v) w
  | None => Q (Raise AttributeError) w
  end ->
  wp (getattr name) Q w.
Proof. unfold wp, getattr. by destruct (attrs w !! name). Qed.

Lemma wp_setattr (name : string) (v : pyval) (Q : result unit -> world -> Prop)
    (w : world) :
  Q (Ok tt) (World (<[name := v]> (attrs w)) (heap w)) -> wp (setattr name v) Q w.
Proof. done. Qed.

Lemma wp_alloc (o : pyobj) (Q : result loc -> world -> Prop) (w : world) :
  (forall l, heap w !! l = None ->
     Q (Ok l) (World (attrs w) (<[l := o]> (heap w)))) ->
  wp (alloc o) Q w.
Proof.
  intros HQ. unfold wp, alloc. simpl. apply HQ.
  apply not_elem_of_dom, is_fresh.
Qed.

Lemma wp_load (l : loc) (Q : result pyobj -> world -> Prop) (w : world) :
  match heap w !! l with
  | Some o => Q (Ok o) w
  | None => Q (Raise TypeError) w
  end ->
  wp (load l) Q w.
Proof. unfold wp, load. by destruct (heap w !! l). Qed.

Lemma wp_store (l : loc) (o : pyobj) (Q : result unit -> world -> Prop)
    (w : world) :
  Q (Ok tt) (World (attrs w) (<[l := o]> (heap w))) -> wp (store l o) Q w.
Proof. done. Qed.

Lemma reads_run {A} (m : M A) (w : world) : reads m -> snd (m w) = w.
Proof. intros Hm. by apply (Hm (fun _ w' => w' = w)). Qed.

Lemma wp_reads {A} (m : M A) (Q : result A -> world -> Prop) (w : world) :
  reads m -> Q (fst (m w)) w -> wp m Q w.
Proof. intros Hm HQ. unfold wp. by rewrite reads_run. Qed.

Lemma reads_getattr name : reads (getattr name).
Proof. intros Q w HQ. apply wp_getattr. by destruct (attrs w !! name). Qed.

Lemma reads_load l : reads (load l).
Proof. intros Q w HQ. apply wp_load. by destruct (heap w !! l). Qed.

Lemma reads_ret {A} (a : A) : reads (mret a).
Proof. intros Q w HQ. apply wp_ret, HQ. Qed.

Lemma reads_raise {A} e : reads (raise (A:=A) e).
Proof. intros Q w HQ. apply wp_raise, HQ. Qed.

Lemma reads_lift {A} (r : result A) : reads (lift r).
Proof. intros Q w HQ. apply wp_lift, HQ. Qed.

Lemma reads_bind {A B} (m : M A) (f : A -> M B) :
  reads m -> (forall a, reads (f a)) -> reads (m ≫= f).
Proof.
  intros Hm Hf Q w HQ. apply wp_bind, Hm. intros [a|e]; [|apply HQ].
  by apply Hf.
Qed.

Ltac reads_tac :=
  repeat first
    [ apply reads_bind; [|intros ?]
    | apply reads_getattr | apply reads_load | apply reads_ret
    | apply reads_raise | apply reads_lift
    | match goal with |- reads (match ?x with _ => _ end) => destruct x end ].

Lemma reads_attr_bool n : reads (attr_bool n).
Proof. unfold attr_bool. reads_tac. Qed.
Lemma reads_attr_int n : reads (attr_int n).
Proof. unfold attr_int. reads_tac. Qed.
Lemma reads_attr_float n : reads (attr_float n).
Proof. unfold attr_float. reads_tac. Qed.
Lemma reads_attr_str n : reads (attr_str n).
Proof. unfold attr_str. reads_tac. Qed.
Lemma reads_attr_shape n : reads (attr_shape n).
Proof. unfold attr_shape. reads_tac. Qed.
Lemma reads_attr_range n : reads (attr_range n).
Proof. unfold attr_range. reads_tac. Qed.
Lemma reads_attr_types n : reads (attr_types n).
Proof. unfold attr_types. reads_tac. Qed.
Lemma reads_attr_cov n : reads (attr_cov n).
Proof. unfold attr_cov. reads_tac. Qed.
Lemma reads_attr_obj n : reads (attr_obj n).
Proof. unfold attr_obj. reads_tac. Qed.
Lemma reads_attr_opt_obj n : reads (attr_opt_obj n).
Proof. unfold attr_opt_obj. reads_tac. Qed.
Lemma reads_attr_ref n : reads (attr_ref n).
Proof. unfold attr_ref. reads_tac. Qed.
Lemma reads_load_arr4 l : reads (load_arr4 l).
Proof. unfold load_arr4. reads_tac. Qed.
Lemma reads_attr_arr n : reads (attr_arr n).
Proof. unfold attr_arr, attr_ref, load_arr. reads_tac. Qed.
Lemma reads_attr_mat n : reads (attr_mat n).
Proof. unfold attr_mat, attr_ref, load_mat. reads_tac. Qed.
Lemma reads_attr_arr3 n : reads (attr_arr3 n).
Proof. unfold attr_arr3, attr_ref, load_arr3. reads_tac. Qed.
Lemma reads_attr_arr4 n : reads (attr_arr4 n).
Proof. unfold attr_arr4, attr_ref, load_arr4. reads_tac. Qed.
Lemma reads_attr_arrays n : reads (attr_arrays n).
Proof. unfold attr_arrays, attr_ref, load_arrays. reads_tac. Qed.
Lemma reads_attr_boolarr n : reads (attr_boolarr n).
Proof. unfold attr_boolarr, attr_ref, load_bool. reads_tac. Qed.
Lemma reads_attr_opaque n : reads (attr_opaque n).
Proof. unfold attr_opaque, attr_ref, load_opaque. reads_tac. Qed.

(** ** [predict] writes only to the arrays it has created *)

Lemma extends_refl w : extends w w.
Proof. done. Qed.

Lemma extends_alloc w0 w l o :
  extends w0 w -> heap w !! l = None ->
  extends w0 (World (attrs w) (<[l := o]> (heap w))) /\ heap w0 !! l = None.
Proof.
  intros [Hattrs Hheap] Hl.
  assert (Hl0 : heap w0 !! l = None).
  { destruct (heap w0 !! l) as [o'|] eqn:Ho; [|done].
    eapply lookup_weaken in Ho; [|exact Hheap]. congruence. }
  split; [|done]. split; [done|]. simpl. by apply insert_subseteq_r.
Qed.

Lemma extends_store w0 w l o :
  extends w0 w -> heap w0 !! l = None ->
  extends w0 (World (attrs w) (<[l := o]> (heap w))).
Proof. intros [Hattrs Hheap] Hl. split; [done|]. simpl. by apply insert_subseteq_r. Qed.

Ltac wp_pure :=
  repeat first
    [ apply wp_ret | apply wp_raise
    | apply wp_lift
    | apply wp_bind
    | match goal with
      | |- wp (match ?x with _ => _ end) _ _ => destruct x
      | |- match ?r with Ok _ => _ | Raise _ => _ end => destruct r
      end ].

Lemma masked_variable_extends w0 w new_shape flat key l :
  extends w0 w -> heap w0 !! l = None ->
  wp (masked_variable new_shape flat (key, l)) (fun _ w' => extends w0 w') w.
Proof.
  intros Hext Hl. unfold masked_variable.
  apply wp_bind, wp_reads; [apply reads_load_arr4|].
  destruct (fst (load_arr4 l w)) as [value|e]; [|done].
  apply wp_bind, wp_store.
  pose proof (extends_store w0 w l (OArr4 (mask value flat)) Hext Hl) as Hext'.
  wp_pure; done.
Qed.

Lemma mapM_extends {A B} (f : A -> M B) (l : list A) (P : A -> Prop) w0 w :
  (forall a w1, P a -> extends w0 w1 -> wp (f a) (fun _ w' => extends w0 w') w1) ->
  Forall P l -> extends w0 w ->
  wp (mapM f l) (fun _ w' => extends w0 w') w.
Proof.
  intros Hf Hl. revert w. induction Hl as [|a l Ha Hl IH]; intros w Hext.
  - by apply wp_ret.
  - simpl. apply wp_bind. eapply wp_mono; [|by apply Hf].
    intros [b|e] w1 Hext1; [|done]. simpl.
    apply wp_bind. eapply wp_mono; [|by apply IH].
    intros [k|e] w2 Hext2; [|done]. by apply wp_ret.
Qed.

Create HintDb reads.
Hint Resolve reads_attr_bool reads_attr_int reads_attr_float reads_attr_str
  reads_attr_shape reads_attr_range reads_attr_types reads_attr_cov
  reads_attr_obj reads_attr_opt_obj reads_attr_ref reads_load_arr4
  reads_attr_arr reads_attr_mat reads_attr_arr3 reads_attr_arr4
  reads_attr_arrays reads_attr_boolarr reads_attr_opaque reads_getattr : reads.

(** One step of a method that reads, computes, or creates an object. *)
Ltac wp_frame_step :=
  match goal with
  | |- extends _ _ => assumption
  | |- wp (mret _) _ _ => apply wp_ret
  | |- wp (raise _) _ _ => apply wp_raise
  | |- wp (lift ?r) _ _ => apply wp_lift; destruct r
  | |- wp (alloc ?o) _ ?w =>
      let l := fresh "l" in
      let Hl := fresh "Hl" in
      apply wp_alloc; intros l Hl;
      match goal with
      | Hext : extends ?w0 w |- _ =>
          destruct (extends_alloc w0 w l o Hext Hl); clear Hext
      end
  | |- wp (_ ≫= _) _ _ => apply wp_bind
  | |- wp (match ?x with _ => _ end) _ _ => destruct x
  | |- wp ?m _ ?w =>
      apply wp_reads; [solve [auto with reads] | destruct (fst (m w))]
  end.

Lemma predict_from_likelihood_extends w0 w n_states likelihood n_time time
    is_compute_acausal :
  extends w0 w ->
  wp (predict_from_likelihood n_states likelihood n_time time is_compute_acausal)
     (fun _ w' => extends w0 w') w.
Proof.
  intros Hext. unfold predict_from_likelihood.
  repeat wp_frame_step.
  all: repeat wp_frame_step.
  all: (eapply wp_mono;
        [|eapply (mapM_extends _ _ (fun e => heap w0 !! snd e = None));
          [intros [key l'] w1 Hl' Hw1; by apply masked_variable_extends
          |repeat constructor; assumption
          |assumption]]).
  all: intros [variables|e] w1 Hw1; [|assumption].
  all: repeat wp_frame_step.
Qed.

(** C8.  [predict], of either classifier, with any observations, time axis
    and [is_compute_acausal] flag, and whether it returns or raises, leaves
    the classifier with the attributes it had (the same values, and the same
    references to the grid, the track-interior mask, the initial conditions,
    the transition matrices and the observation model), and leaves every
    object that existed before the call as it was: the arrays it writes to
    are the ones it has created itself. *)
Theorem predict_leaves_fitted_state :
  (forall spikes time is_compute_acausal w,
     let w' := snd (SortedSpikesClassifier_predict spikes time is_compute_acausal w) in
     attrs w' = attrs w /\ heap w ⊆ heap w') /\
  (forall multiunits time is_compute_acausal w,
     let w' := snd (ClusterlessClassifier_predict multiunits time is_compute_acausal w) in
     attrs w' = attrs w /\ heap w ⊆ heap w').
Proof.
  split; intros obs time flag w.
  - change (wp (SortedSpikesClassifier_predict obs time flag)
               (fun _ w' => extends w w') w).
    pose proof (extends_refl w) as Hext.
    unfold SortedSpikesClassifier_predict.
    repeat wp_frame_step.
    by apply predict_from_likelihood_extends.
  - change (wp (ClusterlessClassifier_predict obs time flag)
               (fun _ w' => extends w w') w).
    pose proof (extends_refl w) as Hext.
    unfold ClusterlessClassifier_predict.
    repeat wp_frame_step.
    by apply predict_from_likelihood_extends.
Qed.

(** ** The track-interior mask passed to [fit] *)

Ltac wp_step :=
  match goal with
  | |- wp (mret _) _ _ => apply wp_ret
  | |- wp (raise _) _ _ => apply wp_raise
  | |- wp (lift ?r) _ _ => apply wp_lift; destruct r
  | |- wp (alloc _) _ _ => apply wp_alloc; intros ? ?
  | |- wp (store _ _) _ _ => apply wp_store
  | |- wp (setattr _ _) _ _ => apply wp_setattr
  | |- wp (setattr_new _ _) _ _ => unfold setattr_new
  | |- wp (_ ≫= _) _ _ => apply wp_bind
  | |- wp (match ?x with _ => _ end) _ _ => destruct x
  | |- wp ?m _ ?w =>
      apply wp_reads; [solve [auto with reads] | destruct (fst (m w))]
  end.

Lemma fit_place_grid_keeps_mask position center_well_id edge_order edge_spacing
    infer_track_interior supplied w :
  wp (fit_place_grid position None center_well_id edge_order edge_spacing
        infer_track_interior (Some supplied))
     (fun _ w' => attrs w' !! "is_track_interior_"%string
                  = attrs w !! "is_track_interior_"%string) w.
Proof.
  unfold fit_place_grid.
  repeat (wp_step; cbn [attrs heap]); by rewrite ?lookup_insert_ne by done.
Qed.

(** C3 (the code departs from it).  With no track graph, [fit_place_grid]
    called with a mask leaves the attribute [is_track_interior_] as it
    was -- unset on a new classifier, the mask of the previous fit on a
    fitted one -- and [fit] on a classifier that has no mask yet cannot
    succeed: the supplied mask is not used. *)
Theorem supplied_mask_is_not_used :
  (forall position center_well_id edge_order edge_spacing infer_track_interior
          supplied w,
     attrs (snd (fit_place_grid position None center_well_id edge_order
                   edge_spacing infer_track_interior (Some supplied) w))
       !! "is_track_interior_"%string
     = attrs w !! "is_track_interior_"%string) /\
  (forall position spikes is_training supplied center_well_id edge_order
          edge_spacing w,
     attrs w !! "is_track_interior_"%string = None ->
     exists e,
       fst (SortedSpikesClassifier_fit position spikes is_training (Some supplied)
              None center_well_id edge_order edge_spacing w) = Raise e).
Proof.
  split.
  - intros. apply fit_place_grid_keeps_mask.
  - intros position spikes is_training supplied cw eo es w Hw.
    change (wp (SortedSpikesClassifier_fit position spikes is_training
                  (Some supplied) None cw eo es)
               (fun r _ => exists e, r = Raise e) w).
    unfold SortedSpikesClassifier_fit.
    apply wp_bind, wp_reads; [auto with reads|].
    destruct (fst _) as [self_infer|e]; [|by eexists].
    apply wp_bind.
    eapply wp_mono; [|apply fit_place_grid_keeps_mask].
    intros [[]|e] w1 Hw1; [|by eexists].
    rewrite Hw in Hw1.
    unfold fit_initial_conditions.
    apply wp_bind.
    apply wp_bind, wp_reads; [auto with reads|].
    destruct (fst _) as [types|e]; [|by eexists].
    apply wp_bind, wp_reads; [auto with reads|].
    destruct (fst _) as [centers|e]; [|by eexists].
    apply wp_bind. unfold attr_boolarr, attr_ref.
    apply wp_bind, wp_bind, wp_getattr. rewrite Hw1. by eexists.
Qed.

(** ** Attribute reads of a classifier whose attributes are known *)

Lemma wp_attr_types name t (Q : result (list (list string)) -> world -> Prop) w :
  attrs w !! name = Some (PTypes t) -> Q (Ok t) w -> wp (attr_types name) Q w.
Proof.
  intros Hname HQ. unfold attr_types. apply wp_bind, wp_getattr.
  rewrite Hname. by apply wp_ret.
Qed.

Lemma wp_attr_ref name l (Q : result loc -> world -> Prop) w :
  attrs w !! name = Some (PRef l) -> Q (Ok l) w -> wp (attr_ref name) Q w.
Proof.
  intros Hname HQ. unfold attr_ref. apply wp_bind, wp_getattr.
  rewrite Hname. by apply wp_ret.
Qed.

Lemma wp_attr_arr name l a (Q : result ndarray -> world -> Prop) w :
  attrs w !! name = Some (PRef l) -> heap w !! l = Some (OArr a) ->
  Q (Ok a) w -> wp (attr_arr name) Q w.
Proof.
  intros Hname Hl HQ. unfold attr_arr. apply wp_bind, (wp_attr_ref name l); [done|].
  unfold load_arr. apply wp_bind, wp_load. rewrite Hl. by apply wp_ret.
Qed.

Lemma wp_attr_boolarr name l a (Q : result bool_ndarray -> world -> Prop) w :
  attrs w !! name = Some (PRef l) -> heap w !! l = Some (OBool a) ->
  Q (Ok a) w -> wp (attr_boolarr name) Q w.
Proof.
  intros Hname Hl HQ. unfold attr_boolarr.
  apply wp_bind, (wp_attr_ref name l); [done|].
  unfold load_bool. apply wp_bind, wp_load. rewrite Hl. by apply wp_ret.
Qed.

(** ** Initial conditions *)

Lemma sum_uniform_on_track (centers : mat) (interior : bool_ndarray) :
  (1 <= count_interior (ravel_F interior))%nat ->
  sum (InitialConditions.uniform_on_track centers interior) = 1.
Proof.
  intros Hk. unfold InitialConditions.uniform_on_track.
  fold (count_interior (ravel_F interior)).
  set (k := count_interior (ravel_F interior)) in *.
  rewrite (sum_map_ext _ (fun b : bool => (1 / of_nat k) * (if b then 1 else 0))).
  - rewrite sum_map_scale, sum_interior_flags. fold k.
    unfold Qcdiv. rewrite Qcmult_1_l, Qcmult_comm.
    apply Qcmult_inv_r, of_nat_neq_0. lia.
  - intros [] _; ring.
Qed.

Lemma sum_unit_axis (n : Qc) (v : list Qc) :
  sum (map sum (map (fun a => [a / n]) v)) = sum v / n.
Proof.
  rewrite map_map, <- sum_map_div. apply sum_map_ext. intros a _. simpl. ring.
Qed.

Lemma sum_replicate (n : nat) (c : Qc) : sum (replicate n c) = of_nat n * c.
Proof.
  induction n as [|n IH]; simpl replicate.
  - rewrite of_nat_0. simpl. ring.
  - rewrite sum_cons, IH, of_nat_S. ring.
Qed.

Lemma stacked_uniform (n : nat) (centers : mat) (interior : bool_ndarray) :
  (1 <= n)%nat -> (1 <= count_interior (ravel_F interior))%nat ->
  uniform_over_interior (ravel_F interior)
    (map (map (fun a => [a / of_nat n]))
         (replicate n (InitialConditions.uniform_on_track centers interior))).
Proof.
  intros Hn Hk.
  set (ic0 := InitialConditions.uniform_on_track centers interior).
  split.
  - unfold total. rewrite map_map.
    rewrite (sum_map_ext _ (fun _ => sum ic0 / of_nat n)).
    + rewrite sum_map_const, length_replicate.
      unfold ic0. rewrite sum_uniform_on_track by done.
      unfold Qcdiv. rewrite Qcmult_1_l.
      apply Qcmult_inv_r, of_nat_neq_0. lia.
    + intros v Hv. apply elem_of_replicate in Hv as [-> _].
      apply sum_unit_axis.
  - intros s b row entry Hrow Hentry.
    rewrite length_map, length_replicate.
    rewrite list_lookup_fmap in Hrow.
    destruct (replicate n ic0 !! s) as [v|] eqn:Hv; simpl in Hrow; [|discriminate].
    apply lookup_replicate in Hv as [-> _]. injection Hrow as <-.
    rewrite list_lookup_fmap in Hentry. unfold ic0 in Hentry.
    unfold InitialConditions.uniform_on_track in Hentry.
    rewrite list_lookup_fmap in Hentry.
    destruct (ravel_F interior !! b) as [flag|] eqn:Hflag; simpl in Hentry;
      [|discriminate].
    injection Hentry as <-. exists flag. split; [done|].
    fold (count_interior (ravel_F interior)).
    destruct flag; f_equal.
    + field. split; apply of_nat_neq_0; lia.
    + unfold Qcdiv. ring.
Qed.

Lemma stacked_rows (n : nat) (q : Qc) (centers : mat) (interior : bool_ndarray) :
  Forall (fun row : mat => length row = length (ravel_F interior))
    (map (map (fun a => [a / q]))
         (replicate n (InitialConditions.uniform_on_track centers interior))).
Proof.
  apply Forall_map, Forall_replicate. simpl.
  unfold InitialConditions.uniform_on_track. by rewrite !length_map.
Qed.

Lemma np_stack_replicate {A} (n : nat) (x : A) :
  (1 <= n)%nat -> np_stack (replicate n x) = Ok (replicate n x).
Proof. destruct n as [|n]; [lia|done]. Qed.

(** ** The posteriors returned by [predict] *)

Lemma wp_load_arr4 l a (Q : result (list (list mat)) -> world -> Prop) w :
  heap w !! l = Some (OArr4 a) -> Q (Ok a) w -> wp (load_arr4 l) Q w.
Proof.
  intros Hl HQ. unfold load_arr4. apply wp_bind, wp_load. rewrite Hl.
  by apply wp_ret.
Qed.

Lemma wp_attr_arr3 name l a (Q : result (list mat) -> world -> Prop) w :
  attrs w !! name = Some (PRef l) -> heap w !! l = Some (OArr3 a) ->
  Q (Ok a) w -> wp (attr_arr3 name) Q w.
Proof.
  intros Hname Hl HQ. unfold attr_arr3.
  apply wp_bind, (wp_attr_ref name l); [done|].
  unfold load_arr3. apply wp_bind, wp_load. rewrite Hl. by apply wp_ret.
Qed.

Lemma wp_attr_arr4 name l a (Q : result (list (list mat)) -> world -> Prop) w :
  attrs w !! name = Some (PRef l) -> heap w !! l = Some (OArr4 a) ->
  Q (Ok a) w -> wp (attr_arr4 name) Q w.
Proof.
  intros Hname Hl HQ. unfold attr_arr4.
  apply wp_bind, (wp_attr_ref name l); [done|].
  by apply (wp_load_arr4 l a).
Qed.

Lemma masked_variable_spec new_shape flat key l value
    (Q : result (string * data_array) -> world -> Prop) w :
  heap w !! l = Some (OArr4 value) ->
  Q ((fun da => (key, da)) <$> labelled new_shape flat value)
    (World (attrs w) (<[l := OArr4 (mask value flat)]> (heap w))) ->
  wp (masked_variable new_shape flat (key, l)) Q w.
Proof.
  intros Hl HQ. unfold masked_variable.
  apply wp_bind, (wp_load_arr4 l value); [done|].
  apply wp_bind, wp_store. apply wp_bind, wp_lift.
  unfold labelled in HQ.
  destruct (squeeze_last (mask value flat)) as [squeezed|e]; [|done].
  simpl in HQ.
  destruct new_shape as [[|n0 [|n1 [|n2 [|n3 [|n4 shape]]]]]|];
    try (by apply wp_raise).
  - apply wp_bind, wp_lift.
    destruct (reshape4 n0 n1 n2 n3 squeezed) as [reshaped|e]; [|done].
    by apply wp_ret.
  - by apply wp_ret.
Qed.

Lemma mapM_cons {A B} (f : A -> M B) (a : A) (l : list A) :
  mapM f (a :: l) = (y ← f a; k ← mapM f l; mret (y :: k)).
Proof. reflexivity. Qed.

Lemma mapM_nil {A B} (f : A -> M B) : mapM f [] = mret [].
Proof. reflexivity. Qed.

Ltac wp_read x :=
  apply wp_bind, wp_reads; [solve [auto with reads]|];
  match goal with
  | |- match fst ?run with _ => _ end =>
      destruct (fst run) as [x|?]; [|by intros; simplify_eq]
  end.

Lemma predict_from_likelihood_variables w n_states likelihood n_time time
    li ic lt cst :
  attrs w !! "initial_conditions_"%string = Some (PRef li) ->
  heap w !! li = Some (OArr3 ic) ->
  attrs w !! "continuous_state_transition_"%string = Some (PRef lt) ->
  heap w !! lt = Some (OArr4 cst) ->
  wp (predict_from_likelihood n_states likelihood n_time time true)
     (fun r _ => forall ds, r = Ok ds ->
        exists stacked dst dst' new_shape flat da_l da_c da_a,
          np_stack_axis1 likelihood n_states = Ok stacked /\
          (new_shape = None \/
           exists shape, new_shape = Some ([n_time; n_states] ++ shape)) /\
          let causal := _causal_classify ic cst dst (newaxis stacked) in
          labelled new_shape flat causal = Ok da_c /\
          labelled new_shape flat (_acausal_classify causal cst dst') = Ok da_a /\
          data_vars ds = [("likelihood"%string, da_l);
                          ("causal_posterior"%string, da_c);
                          ("acausal_posterior"%string, da_a)]) w.
Proof.
  intros Hli Hic Hlt Hcst. unfold predict_from_likelihood.
  apply wp_bind, wp_lift.
  destruct (np_stack_axis1 likelihood n_states) as [stacked|e] eqn:Hstack;
    [|intros ? ?; discriminate].
  apply wp_bind, wp_alloc. intros l1 Hl1.
  assert (li <> l1) by congruence. assert (lt <> l1) by congruence.
  apply wp_bind, (wp_attr_arr3 _ li ic); [done|by simpl; rewrite lookup_insert_ne|].
  apply wp_bind, (wp_attr_arr4 _ lt cst); [done|by simpl; rewrite lookup_insert_ne|].
  wp_read dst.
  apply wp_bind, (wp_load_arr4 l1 (newaxis stacked));
    [by simpl; rewrite lookup_insert_eq|].
  apply wp_bind, wp_alloc. intros l2 Hl2. simpl in Hl2.
  apply lookup_insert_None in Hl2 as [Hl2 Hl12].
  assert (li <> l2) by congruence. assert (lt <> l2) by congruence.
  set (causal := _causal_classify ic cst dst (newaxis stacked)).
  apply wp_bind. apply wp_bind, (wp_load_arr4 l2 causal);
    [by simpl; rewrite lookup_insert_eq|].
  apply wp_bind, (wp_attr_arr4 _ lt cst);
    [done|by simpl; rewrite !lookup_insert_ne|].
  wp_read dst'.
  apply wp_bind, wp_alloc. intros l3 Hl3. simpl in Hl3.
  apply lookup_insert_None in Hl3 as [Hl3 Hl23].
  apply lookup_insert_None in Hl3 as [Hl3 Hl13].
  set (acausal := _acausal_classify causal cst dst').
  apply wp_ret. simpl app.
  wp_read centers. apply wp_bind.
  destruct centers as [v|d rows]; [apply wp_raise; intros ? ?; discriminate|].
  apply wp_ret.
  destruct (decide (1 < d)%nat) as [Hd|Hd].
  - wp_read centers_shape. wp_read edges.
    apply wp_bind, wp_lift.
    destruct (index edges 0) as [edges_0|?]; [|intros ? ?; discriminate].
    wp_read edges'.
    apply wp_bind, wp_lift.
    destruct (index edges' 1) as [edges_1|?]; [|intros ? ?; discriminate].
    wp_read types.
    apply wp_bind, wp_lift.
    destruct (np_diag types) as [state|?]; [|intros ? ?; discriminate].
    wp_read interior.
    pose (new_shape := Some ([n_time; n_states] ++ centers_shape)).
    pose (flat := ravel_F interior).
    apply wp_bind. rewrite !mapM_cons, mapM_nil.
    apply wp_bind, (masked_variable_spec _ _ _ _ (newaxis stacked));
      [simpl; by simplify_map_eq|].
    destruct (labelled _ _ (newaxis stacked)) as [da_l|?];
      [|simpl; intros ? ?; discriminate].
    simpl fmap. apply wp_bind.
    apply wp_bind, (masked_variable_spec _ _ _ _ causal);
      [simpl; by simplify_map_eq|].
    destruct (labelled _ _ causal) as [da_c|?] eqn:Hda_c;
      [|simpl; intros ? ?; discriminate].
    simpl fmap. apply wp_bind.
    apply wp_bind, (masked_variable_spec _ _ _ _ acausal);
      [simpl; by simplify_map_eq|].
    destruct (labelled _ _ acausal) as [da_a|?] eqn:Hda_a;
      [|simpl; intros ? ?; discriminate].
    simpl fmap. apply wp_bind, wp_ret, wp_ret, wp_ret, wp_lift.
    intros ds Hds. unfold xr_Dataset in Hds.
    destruct (forallb _ _); [|discriminate]. injection Hds as <-.
    exists stacked, dst, dst', new_shape, flat, da_l, da_c, da_a.
    repeat split; try done. right. by eexists.
  - wp_read edges.
    apply wp_bind, wp_lift.
    destruct (index edges 0) as [edges_0|?]; [|intros ? ?; discriminate].
    wp_read types.
    apply wp_bind, wp_lift.
    destruct (np_diag types) as [state|?]; [|intros ? ?; discriminate].
    wp_read interior.
    pose (flat := ravel_F interior).
    apply wp_bind. rewrite !mapM_cons, mapM_nil.
    apply wp_bind, (masked_variable_spec _ _ _ _ (newaxis stacked));
      [simpl; by simplify_map_eq|].
    destruct (labelled _ _ (newaxis stacked)) as [da_l|?];
      [|simpl; intros ? ?; discriminate].
    simpl fmap. apply wp_bind.
    apply wp_bind, (masked_variable_spec _ _ _ _ causal);
      [simpl; by simplify_map_eq|].
    destruct (labelled _ _ causal) as [da_c|?] eqn:Hda_c;
      [|simpl; intros ? ?; discriminate].
    simpl fmap. apply wp_bind.
    apply wp_bind, (masked_variable_spec _ _ _ _ acausal);
      [simpl; by simplify_map_eq|].
    destruct (labelled _ _ acausal) as [da_a|?] eqn:Hda_a;
      [|simpl; intros ? ?; discriminate].
    simpl fmap. apply wp_bind, wp_ret, wp_ret, wp_ret, wp_lift.
    intros ds Hds. unfold xr_Dataset in Hds.
    destruct (forallb _ _); [|discriminate]. injection Hds as <-.
    exists stacked, dst, dst', None, flat, da_l, da_c, da_a.
    repeat split; try done. by left.
Qed.

(** *** The final time index of a labelled array *)

Lemma squeeze_mask (flat : list bool) (value : list (list mat)) squeezed :
  squeeze_last (mask value flat) = Ok squeezed ->
  squeezed = map (masked_slice flat) value.
Proof.
  unfold squeeze_last. destruct (forallb _ _); [|discriminate].
  intros [= <-]. unfold mask. by rewrite map_map.
Qed.

Lemma labelled_1d_final flat value da :
  labelled None flat value = Ok da ->
  da_dims da = ["time"; "state"; "position"]%string /\
  final_time (da_values da)
  = (fun slice => of_mat (masked_slice flat slice)) <$> last value.
Proof.
  unfold labelled.
  destruct (squeeze_last (mask value flat)) as [squeezed|e] eqn:Hsq; [|discriminate].
  apply squeeze_mask in Hsq as ->. intros [= <-]. split; [reflexivity|].
  simpl. unfold of_arr3. rewrite !fmap_last. by destruct (last value).
Qed.

Lemma last_chunks {A} (n k : nat) (l : list A) :
  last (chunks (S n) k l) = Some (take k (drop (n * k) l)).
Proof.
  revert l. induction n as [|n IH]; intros l.
  - reflexivity.
  - change (chunks (S (S n)) k l) with (take k l :: chunks (S n) k (drop k l)).
    by rewrite last_cons, IH, drop_drop.
Qed.

Lemma labelled_2d_final n0 n1 n2 n3 flat value x da :
  labelled (Some [n0; n1; n2; n3]) flat value = Ok da ->
  (1 <= n0)%nat -> last value = Some x ->
  length (concat (masked_slice flat x)) = (n1 * n2 * n3)%nat ->
  da_dims da = ["time"; "state"; "x_position"; "y_position"]%string /\
  final_time (da_values da)
  = Some (final_block n1 n2 n3 (concat (masked_slice flat x))).
Proof.
  unfold labelled. intros Hda Hn0 Hlast Hx.
  destruct (squeeze_last (mask value flat)) as [squeezed|e] eqn:Hsq; [|discriminate].
  apply squeeze_mask in Hsq as ->. simpl in Hda. unfold reshape4 in Hda.
  destruct (decide _) as [Hlen|]; [|discriminate].
  injection Hda as <-. split; [reflexivity|].
  apply last_Some in Hlast as [value' ->].
  destruct n0 as [|n0']; [lia|].
  cbn [da_values]. unfold of_arr4, swap_last_axes, final_time.
  rewrite !fmap_last. rewrite last_chunks. cbn [fmap option_fmap option_map].
  f_equal. unfold final_block. do 4 f_equal.
  rewrite map_app, concat_app, concat_app in *. cbn [map concat] in *.
  rewrite app_nil_r in *. rewrite length_app in Hlen.
  rewrite drop_app_length'; [|nia].
  apply take_ge. lia.
Qed.

Lemma length_concat_shape (n m : nat) (a : mat) :
  has_shape n m a -> length (concat a) = (n * m)%nat.
Proof.
  intros [<- Hrows]. induction Hrows as [|row a Hrow _ IH]; [reflexivity|].
  simpl. rewrite length_app, IH, Hrow. lia.
Qed.

Lemma masked_slice_shape (n m : nat) (flat : list bool) (slice : mat) :
  has_shape n m slice ->
  has_shape n m (masked_slice flat (Core.unit_axis_on slice)).
Proof.
  intros [Hlen Hrows]. unfold masked_slice, Core.unit_axis_on. split.
  - by rewrite !length_map.
  - rewrite !Forall_map. eapply Forall_impl; [exact Hrows|].
    intros row Hrow. simpl. by rewrite length_map, length_imap, length_map.
Qed.

Lemma length_concat_slices (z : nat) (g : list mat -> mat) (value : list (list mat)) :
  Forall (fun slice => length (concat (g slice)) = z) value ->
  length (concat (concat (map g value))) = (length value * z)%nat.
Proof.
  induction 1 as [|slice value Hslice _ IH]; [reflexivity|].
  simpl. rewrite concat_app, length_app, IH, Hslice. lia.
Qed.

Lemma labelled_2d_length n0 n1 n2 n3 flat value da :
  labelled (Some [n0; n1; n2; n3]) flat value = Ok da ->
  length (concat (concat (map (masked_slice flat) value)))
  = (n0 * n1 * n2 * n3)%nat.
Proof.
  unfold labelled.
  destruct (squeeze_last (mask value flat)) as [squeezed|e] eqn:Hsq; [|discriminate].
  apply squeeze_mask in Hsq as ->. simpl. unfold reshape4.
  by destruct (decide _).
Qed.

Lemma labelled_shape_inv shape flat value da :
  labelled (Some shape) flat value = Ok da ->
  exists n0 n1 n2 n3, shape = [n0; n1; n2; n3].
Proof.
  unfold labelled.
  destruct (squeeze_last (mask value flat)); [|discriminate]. simpl.
  destruct shape as [|n0 [|n1 [|n2 [|n3 [|n4 shape]]]]]; try discriminate.
  intros _. by exists n0, n1, n2, n3.
Qed.

Lemma stacked_likelihood_shape n_states n_time n_bins likelihood stacked :
  np_stack_axis1 likelihood n_states = Ok stacked ->
  has_shape n_time n_bins likelihood ->
  (1 <= n_states)%nat /\ length stacked = n_time /\
  Forall (has_shape n_states n_bins) stacked.
Proof.
  intros Hstack [Hlen Hrows]. unfold np_stack_axis1 in Hstack.
  destruct n_states as [|n]; [discriminate|]. injection Hstack as <-.
  split; [lia|]. split; [by rewrite length_map|].
  apply Forall_map. eapply Forall_impl; [exact Hrows|].
  intros row Hrow. simpl. split; [simpl; by rewrite length_replicate|].
  constructor; [done|]. by apply Forall_replicate.
Qed.

Lemma causal_classify_shape n_states n_time n_bins ic cst dst stacked :
  (1 <= n_states)%nat -> length ic = n_states ->
  Forall (fun row => length row = n_bins) ic ->
  length stacked = n_time ->
  Forall (has_shape n_states n_bins) stacked ->
  exists slices,
    Core._causal_classify ic cst dst (newaxis stacked) = Core.unit_axis_on <$> slices /\
    length slices = n_time /\
    Forall (has_shape n_states n_bins) slices.
Proof.
  intros Hn Hic Hrows Hlen Hstacked. unfold Core._causal_classify.
  assert (Hoff : Core.unit_axis_off <$> newaxis stacked = stacked).
  { unfold newaxis. change (map (map (map (fun x : Qc => [x]))) stacked)
      with (Core.unit_axis_on <$> stacked).
    rewrite <- list_fmap_compose.
    trans (id <$> stacked); [|apply list_fmap_id].
    apply list_fmap_ext. intros i slice _. simpl. apply unit_axis_off_on. }
  rewrite Hoff. eexists. split; [reflexivity|]. split.
  - by rewrite causal_recursion_length.
  - apply causal_recursion_shape; [done| |done]. split.
    + unfold Core.unit_axis_off. by rewrite length_map.
    + unfold Core.unit_axis_off. apply Forall_map.
      eapply Forall_impl; [exact Hrows|]. intros row Hrow. simpl.
      by rewrite length_map.
Qed.

Lemma labelled_final_agree new_shape flat n_states n_time n_bins slices acausal
    da_c da_a :
  (1 <= n_time)%nat -> length slices = n_time ->
  Forall (has_shape n_states n_bins) slices ->
  last acausal = last (Core.unit_axis_on <$> slices) ->
  (new_shape = None \/
   exists shape, new_shape = Some ([n_time; n_states] ++ shape)) ->
  labelled new_shape flat (Core.unit_axis_on <$> slices) = Ok da_c ->
  labelled new_shape flat acausal = Ok da_a ->
  exists final,
    da_dims da_a = da_dims da_c /\
    head (da_dims da_c) = Some "time"%string /\
    final_time (da_values da_c) = Some final /\
    final_time (da_values da_a) = Some final.
Proof.
  intros Hn Hlen Hshapes Hlast Hshape Hda_c Hda_a.
  destruct (last slices) as [s|] eqn:Hs.
  2:{ apply last_None in Hs. subst slices. simpl in Hlen. lia. }
  assert (Hx : last (Core.unit_axis_on <$> slices) = Some (Core.unit_axis_on s)).
  { by rewrite fmap_last, Hs. }
  rewrite Hx in Hlast.
  destruct Hshape as [-> | [shape ->]].
  - apply labelled_1d_final in Hda_c as [Hdims_c Hfin_c].
    apply labelled_1d_final in Hda_a as [Hdims_a Hfin_a].
    rewrite Hx in Hfin_c. rewrite Hlast in Hfin_a.
    eexists. rewrite Hdims_c, Hdims_a. repeat split; [exact Hfin_c|exact Hfin_a].
  - destruct (labelled_shape_inv _ _ _ _ Hda_c) as (n0 & n1 & n2 & n3 & Hshape).
    injection Hshape as <- <- ->.
    pose proof (labelled_2d_length _ _ _ _ _ _ _ Hda_c) as Htotal.
    assert (Hslice : Forall (fun slice =>
              length (concat (masked_slice flat slice)) = (n_states * n_bins)%nat)
              (Core.unit_axis_on <$> slices)).
    { apply Forall_fmap. eapply Forall_impl; [exact Hshapes|].
      intros slice Hslice. simpl.
      by apply (length_concat_shape n_states n_bins), masked_slice_shape. }
    rewrite (length_concat_slices _ _ _ Hslice), length_fmap, Hlen in Htotal.
    assert (Hsize : (n_states * n_bins = n_states * n2 * n3)%nat) by nia.
    assert (Hs_size : length (concat (masked_slice flat (Core.unit_axis_on s)))
                      = (n_states * n2 * n3)%nat).
    { rewrite <- Hsize.
      apply (length_concat_shape n_states n_bins), masked_slice_shape.
      revert Hshapes. rewrite Forall_forall. intros Hall. apply Hall.
      rewrite last_lookup in Hs.
      by apply list_elem_of_lookup_2 in Hs. }
    simpl app in *.
    destruct (labelled_2d_final _ _ _ _ _ _ _ _ Hda_c Hn Hx Hs_size)
      as [Hdims_c Hfin_c].
    destruct (labelled_2d_final _ _ _ _ _ _ _ _ Hda_a Hn Hlast Hs_size)
      as [Hdims_a Hfin_a].
    eexists. rewrite Hdims_c, Hdims_a. repeat split; [exact Hfin_c|exact Hfin_a].
Qed.

Lemma predict_from_likelihood_final w n_bins li ic lt cst likelihood n_time time :
  attrs w !! "initial_conditions_"%string = Some (PRef li) ->
  heap w !! li = Some (OArr3 ic) ->
  attrs w !! "continuous_state_transition_"%string = Some (PRef lt) ->
  heap w !! lt = Some (OArr4 cst) ->
  Forall (fun row => length row = n_bins) ic ->
  has_shape n_time n_bins likelihood -> (1 <= n_time)%nat ->
  wp (predict_from_likelihood (length ic) likelihood n_time time true)
     (fun r _ => forall ds, r = Ok ds -> final_posteriors_agree ds) w.
Proof.
  intros Hli Hic Hlt Hcst Hrows Hlik Hn.
  eapply wp_mono; [|by apply (predict_from_likelihood_variables w _ _ _ _ li ic lt cst)].
  intros r w1 Hvars ds Hds.
  destruct (Hvars ds Hds)
    as (stacked & dst & dst' & new_shape & flat & da_l & da_c & da_a
        & Hstack & Hshape & Hda_c & Hda_a & Hds_vars).
  destruct (stacked_likelihood_shape _ _ _ _ _ Hstack Hlik)
    as (Hstates & Hlen & Hstacked).
  destruct (causal_classify_shape (length ic) n_time n_bins ic cst dst stacked)
    as (slices & Hcausal & Hslices_len & Hslices); try done.
  pose proof (acausal_classify_last ic cst dst (newaxis stacked) cst dst') as Hlast.
  simpl in Hlast, Hda_c, Hda_a.
  rewrite Hcausal in Hlast, Hda_c, Hda_a.
  destruct (labelled_final_agree new_shape flat (length ic) n_time n_bins slices
              _ da_c da_a Hn Hslices_len Hslices Hlast Hshape Hda_c Hda_a)
    as (final & Hdims & Htime & Hfin_c & Hfin_a).
  exists da_c, da_a, final. rewrite Hds_vars.
  repeat split; try done.
  - apply list_elem_of_In. simpl. tauto.
  - apply list_elem_of_In. simpl. tauto.
Qed.

(** ** The fitted continuous transition tensor *)

Lemma length_points (centers : ndarray) : length (points centers) = shape0 centers.
Proof. destruct centers; simpl; [by rewrite length_map|done]. Qed.


Lemma zeros_good (n k : nat) :
  good_tensor n (replicate k (replicate k (zeros n n))).
Proof.
  apply Forall_replicate, Forall_replicate. split.
  - split; [apply length_replicate|]. apply Forall_replicate, length_replicate.
  - apply Forall_replicate. right. clear. induction n as [|n IH]; [done|].
    simpl. rewrite IH. ring.
Qed.

Lemma expand_same {A} (n : nat) (l : list A) : length l = n -> expand n l = Ok l.
Proof. intros Hl. unfold expand. by rewrite decide_True. Qed.

Lemma broadcast_to_same (n : nat) (value : mat) :
  has_shape n n value -> broadcast_to n n value = Ok value.
Proof.
  intros [Hlen Hrows]. unfold broadcast_to. rewrite expand_same by done. simpl.
  clear Hlen. induction Hrows as [|row value Hrow _ IH]; [reflexivity|].
  simpl. rewrite expand_same by done. simpl. by rewrite IH.
Qed.

Lemma assign_cell_good (n : nat) tensor row_ind column_ind value tensor' :
  good_tensor n tensor -> good_cell n value ->
  assign_cell tensor row_ind column_ind value = Ok tensor' ->
  good_tensor n tensor'.
Proof.
  intros Htensor Hvalue. unfold assign_cell.
  destruct (tensor !! row_ind) as [row|] eqn:Hrow; [|discriminate].
  destruct (row !! column_ind) as [cell|] eqn:Hcell; [|discriminate].
  pose proof (proj1 (Forall_lookup _ _) Htensor _ _ Hrow) as Hgood_row.
  pose proof (proj1 (Forall_lookup _ _) Hgood_row _ _ Hcell) as [[Hlen Hrows] _].
  assert (Hhd : length (hd [] cell) = n).
  { destruct cell as [|r rest]; simpl in *; [done|]. by inversion Hrows. }
  rewrite Hlen, Hhd, broadcast_to_same by apply Hvalue. simpl.
  intros [= <-]. apply Forall_insert; [done|]. by apply Forall_insert.
Qed.

Lemma wp_for_each {A} (I : world -> Prop) (P : A -> Prop) (l : list A)
    (body : A -> M unit) :
  (forall a w, P a -> I w -> wp (body a) (fun r w' => r = Ok tt -> I w') w) ->
  Forall P l ->
  forall w, I w -> wp (for_each l body) (fun r w' => r = Ok tt -> I w') w.
Proof.
  intros Hbody Hl. induction Hl as [|a l Ha _ IH]; intros w Hw.
  - by apply wp_ret.
  - simpl. apply wp_bind. eapply wp_mono; [|by apply Hbody].
    intros [[]|e] w1 Hw1; [|discriminate]. apply IH. by apply Hw1.
Qed.

Lemma Forall_enumerate {A} (P : A -> Prop) (l : list A) :
  Forall P l -> Forall (fun entry => P (snd entry)) (enumerate l).
Proof.
  intros Hl. unfold enumerate. apply Forall_forall. intros [i a] Hia.
  apply elem_of_zip_r in Hia. simpl.
  by apply (proj1 (Forall_forall _ _) Hl).
Qed.


Lemma wp_attr_arr_inv name (Q : result ndarray -> world -> Prop) w :
  (forall l a, attrs w !! name = Some (PRef l) -> heap w !! l = Some (OArr a) ->
     Q (Ok a) w) ->
  (forall e, Q (Raise e) w) ->
  wp (attr_arr name) Q w.
Proof.
  intros Hok Hraise. unfold attr_arr, attr_ref, load_arr.
  apply wp_bind, wp_bind, wp_getattr.
  destruct (attrs w !! name) as [v|] eqn:Hv; [|apply Hraise].
  destruct v as [| | | | | | | | | |l]; try (apply wp_raise, Hraise).
  apply wp_ret. simpl. apply wp_bind, wp_load.
  destruct (heap w !! l) as [o|] eqn:Ho; [|apply Hraise].
  destruct o; try (apply wp_raise, Hraise).
  apply wp_ret. by apply (Hok l).
Qed.


(** *** From [fit_continuous_state_transition] to a fitted classifier *)

Lemma fit_place_grid_keeps_types position track_graph center_well_id edge_order
    edge_spacing infer_track_interior is_track_interior w :
  wp (fit_place_grid position track_graph center_well_id edge_order edge_spacing
        infer_track_interior is_track_interior)
     (fun _ w' => attrs w' !! "continuous_transition_types"%string
                  = attrs w !! "continuous_transition_types"%string) w.
Proof.
  unfold fit_place_grid.
  repeat (wp_step; cbn [attrs heap]); by rewrite ?lookup_insert_ne by done.
Qed.

Lemma fit_initial_conditions_keeps_types position w :
  wp (fit_initial_conditions position)
     (fun _ w' => attrs w' !! "continuous_transition_types"%string
                  = attrs w !! "continuous_transition_types"%string) w.
Proof.
  unfold fit_initial_conditions.
  repeat (wp_step; cbn [attrs heap]); by rewrite ?lookup_insert_ne by done.
Qed.

Ltac keep_tensor :=
  repeat (wp_step; cbn [attrs heap]);
  match goal with
  | Hw : tensor_at _ _ _ |- _ => destruct Hw as [Hattr Hheap]
  end;
  simpl in *;
  (split; cbn [attrs heap];
   [ by rewrite ?lookup_insert_ne by done
   | repeat match goal with
            | Hl : <[_:=_]> _ !! _ = None |- _ =>
                apply lookup_insert_None in Hl as [Hl ?]
            end;
     repeat (rewrite lookup_insert_ne; [|congruence]); done ]).

Lemma fit_discrete_state_transition_keeps l tensor diag w :
  tensor_at l tensor w ->
  wp (fit_discrete_state_transition diag) (fun _ w' => tensor_at l tensor w') w.
Proof. intros Hw. unfold fit_discrete_state_transition. keep_tensor. Qed.

Lemma fit_place_fields_keeps l tensor position spikes is_training w :
  tensor_at l tensor w ->
  wp (fit_place_fields position spikes is_training)
     (fun _ w' => tensor_at l tensor w') w.
Proof. intros Hw. unfold fit_place_fields. keep_tensor. Qed.

Lemma fit_multiunits_keeps l tensor position multiunits is_training w :
  tensor_at l tensor w ->
  wp (fit_multiunits position multiunits is_training)
     (fun _ w' => tensor_at l tensor w') w.
Proof. intros Hw. unfold fit_multiunits. keep_tensor. Qed.

Lemma tensor_at_fitted l tensor w :
  tensor_at l tensor w -> fitted_tensor w = Some tensor.
Proof. intros [Hattr Hheap]. unfold fitted_tensor. by rewrite Hattr, Hheap. Qed.

Lemma good_tensor_rows n tensor :
  good_tensor n tensor -> Forall (Forall rows_sum_to_1_or_0) tensor.
Proof.
  intros Hgood. eapply Forall_impl; [exact Hgood|]. intros row Hrow.
  eapply Forall_impl; [exact Hrow|]. by intros cell [_ Hcell].
Qed.


(** Without a power to take, the rows of [empirical_movement] are the
    normalised rows. *)


(** ** Initial conditions of a fitted classifier *)

Lemma wp_attr_boolarr_inv name (Q : result bool_ndarray -> world -> Prop) w :
  (forall l a, attrs w !! name = Some (PRef l) -> heap w !! l = Some (OBool a) ->
     Q (Ok a) w) ->
  (forall e, Q (Raise e) w) ->
  wp (attr_boolarr name) Q w.
Proof.
  intros Hok Hraise. unfold attr_boolarr, attr_ref, load_bool.
  apply wp_bind, wp_bind, wp_getattr.
  destruct (attrs w !! name) as [v|] eqn:Hv; [|apply Hraise].
  destruct v as [| | | | | | | | | |l]; try (apply wp_raise, Hraise).
  apply wp_ret. simpl. apply wp_bind, wp_load.
  destruct (heap w !! l) as [o|] eqn:Ho; [|apply Hraise].
  destruct o; try (apply wp_raise, Hraise).
  apply wp_ret. by apply (Hok l).
Qed.

Lemma wp_attr_types_inv name (Q : result (list (list string)) -> world -> Prop) w :
  (forall t, attrs w !! name = Some (PTypes t) -> Q (Ok t) w) ->
  (forall e, Q (Raise e) w) ->
  wp (attr_types name) Q w.
Proof.
  intros Hok Hraise. unfold attr_types. apply wp_bind, wp_getattr.
  destruct (attrs w !! name) as [v|] eqn:Hv; [|apply Hraise].
  destruct v; try (apply wp_raise, Hraise). by apply wp_ret, Hok.
Qed.

Lemma fit_initial_conditions_wp position w :
  wp (fit_initial_conditions position)
     (fun r w' => r = Ok tt ->
        fitted_initial_conditions w' /\ one_slice_per_regime w') w.
Proof.
  unfold fit_initial_conditions.
  apply wp_bind, wp_attr_types_inv; [|by intros; simplify_eq].
  intros types Htypes.
  wp_read centers.
  apply wp_bind, wp_attr_boolarr_inv; [|by intros; simplify_eq].
  intros lm interior Hlm Hinterior.
  apply wp_bind, wp_lift.
  destruct (decide (length types = 0%nat)) as [Hzero|Hn].
  { rewrite Hzero. simpl. intros ?; discriminate. }
  rewrite np_stack_replicate by lia.
  unfold setattr_new. apply wp_bind, wp_alloc. intros l Hl.
  apply wp_setattr. intros _. split.
  2:{ exists types, l. eexists. cbn [attrs heap].
      rewrite lookup_insert_ne by done. rewrite !lookup_insert_eq.
      repeat split; [done|]. by rewrite length_map, length_replicate. }
  eexists l, _, lm, interior. cbn [attrs heap].
  split; [by rewrite lookup_insert_eq|].
  split; [by rewrite lookup_insert_eq|].
  split; [by rewrite lookup_insert_ne|].
  split; [rewrite lookup_insert_ne; [done|congruence]|].
  split; [rewrite length_map, length_replicate; lia|].
  split; [apply stacked_rows|].
  intros Hk. apply stacked_uniform; [lia|done].
Qed.

(** *** What the later steps of [fit] leave alone *)

Lemma assigns_refl names w : assigns names w w.
Proof. by split. Qed.

Lemma assigns_setattr names w0 w name v :
  name ∈ names -> assigns names w0 w ->
  assigns names w0 (World (<[name := v]> (attrs w)) (heap w)).
Proof.
  intros Hin [Hattrs Hheap]. split; [|done]. intros other Hother. simpl.
  rewrite lookup_insert_ne; [by apply Hattrs|]. by intros ->.
Qed.

Lemma assigns_store names w0 w l o :
  heap w0 !! l = None -> assigns names w0 w ->
  assigns names w0 (World (attrs w) (<[l := o]> (heap w))).
Proof.
  intros Hl [Hattrs Hheap]. split; [done|]. simpl. by apply insert_subseteq_r.
Qed.

Lemma assigns_alloc names w0 w l o :
  heap w !! l = None -> assigns names w0 w ->
  assigns names w0 (World (attrs w) (<[l := o]> (heap w))).
Proof.
  intros Hl Hw. apply assigns_store; [|done].
  destruct Hw as [_ Hheap]. by eapply lookup_weaken_None.
Qed.

Lemma assigning_ret names {A} (a : A) : assigning names (mret a).
Proof. intros w0 w Hw. by apply wp_ret. Qed.

Lemma assigning_raise names {A} (e : exn) : assigning names (raise (A:=A) e).
Proof. intros w0 w Hw. by apply wp_raise. Qed.

Lemma assigning_lift names {A} (r : result A) : assigning names (lift r).
Proof. intros w0 w Hw. by apply wp_lift. Qed.

Lemma assigning_reads names {A} (m : M A) : reads m -> assigning names m.
Proof. intros Hm w0 w Hw. by apply wp_reads. Qed.

Lemma assigning_bind names {A B} (m : M A) (f : A -> M B) :
  assigning names m -> (forall a, assigning names (f a)) ->
  assigning names (m ≫= f).
Proof.
  intros Hm Hf w0 w Hw. apply wp_bind. eapply wp_mono; [|by apply Hm].
  intros [a|e] w1 Hw1; [by apply Hf|done].
Qed.

Lemma assigning_setattr names name v :
  name ∈ names -> assigning names (setattr name v).
Proof. intros Hin w0 w Hw. by apply wp_setattr, assigns_setattr. Qed.

Lemma assigning_alloc names o : assigning names (alloc o).
Proof. intros w0 w Hw. apply wp_alloc. intros l Hl. by apply assigns_alloc. Qed.

Lemma assigning_setattr_new names name o :
  name ∈ names -> assigning names (setattr_new name o).
Proof.
  intros Hin. apply assigning_bind; [apply assigning_alloc|].
  intros l. by apply assigning_setattr.
Qed.

Ltac assigning_tac :=
  cbv zeta;
  repeat lazymatch goal with
    | |- assigning _ (mret _) => apply assigning_ret
    | |- assigning _ (raise _) => apply assigning_raise
    | |- assigning _ (lift _) => apply assigning_lift
    | |- assigning _ (setattr_new _ _) => apply assigning_setattr_new; compute_done
    | |- assigning _ (setattr _ _) => apply assigning_setattr; compute_done
    | |- assigning _ (_ ≫= _) => apply assigning_bind; [|intros ?]
    | |- assigning _ (match ?x with _ => _ end) => destruct x
    | |- assigning _ _ => apply assigning_reads; solve [auto with reads]
    end.

Lemma fit_discrete_state_transition_assigning diag :
  assigning later_attributes (fit_discrete_state_transition diag).
Proof. unfold fit_discrete_state_transition. assigning_tac. Qed.

Lemma fit_place_fields_assigning position spikes is_training :
  assigning later_attributes (fit_place_fields position spikes is_training).
Proof. unfold fit_place_fields. assigning_tac. Qed.

Lemma fit_multiunits_assigning position multiunits is_training :
  assigning later_attributes (fit_multiunits position multiunits is_training).
Proof. unfold fit_multiunits. assigning_tac. Qed.

(** The loop of [fit_continuous_state_transition] writes to the tensor that
    the method has just created, and to nothing else. *)
Lemma assign_cell_length tensor row_ind column_ind value tensor' :
  assign_cell tensor row_ind column_ind value = Ok tensor' ->
  length tensor' = length tensor.
Proof.
  unfold assign_cell.
  destruct (tensor !! row_ind) as [row|]; [|discriminate].
  destruct (row !! column_ind) as [cell|]; [|discriminate].
  destruct (broadcast_to _ _ _); [|discriminate].
  intros [= <-]. apply length_insert.
Qed.

Lemma fit_continuous_state_transition_assigns position is_training replay_speed
    types w0 w :
  assigns later_attributes w0 w ->
  wp (fit_continuous_state_transition position is_training replay_speed types)
     (fun r w' => r = Ok tt ->
        assigns later_attributes w0 w' /\
        exists l tensor, tensor_at l tensor w' /\ length tensor = length types) w.
Proof.
  intros Hw. unfold fit_continuous_state_transition.
  apply wp_bind.
  assert (Hfirst : wp (match replay_speed with
                       | Some speed => setattr "replay_speed" (PInt speed)
                       | None => mret tt
                       end)
                      (fun r w1 => r = Ok tt /\ assigns later_attributes w0 w1) w).
  { destruct replay_speed; [apply wp_setattr|apply wp_ret]; split; try done.
    apply assigns_setattr; [compute_done|done]. }
  eapply wp_mono; [|exact Hfirst].
  clear Hfirst Hw w. intros [[]|e] w [_ Hw]; [|discriminate].
  apply wp_bind, wp_setattr.
  apply (assigns_setattr _ _ _ "continuous_transition_types" (PTypes types))
    in Hw; [|compute_done].
  assert (Htypes : attrs (World (<["continuous_transition_types"%string := PTypes types]>
                                   (attrs w)) (heap w))
                     !! "continuous_transition_types"%string = Some (PTypes types))
    by apply lookup_insert_eq.
  revert Hw Htypes.
  generalize (World (<["continuous_transition_types"%string := PTypes types]>
                       (attrs w)) (heap w)).
  clear w. intros w Hw Htypes.
  wp_read centers.
  apply wp_bind, (wp_attr_types _ types); [done|].
  apply wp_bind. unfold setattr_new. apply wp_bind, wp_alloc. intros l Hl.
  apply wp_setattr. cbn [attrs heap].
  assert (Hfresh : heap w0 !! l = None).
  { destruct Hw as [_ Hheap]. by eapply lookup_weaken_None. }
  set (filled := fun w1 : world =>
         assigns later_attributes w0 w1 /\
         exists tensor, tensor_at l tensor w1 /\ length tensor = length types).
  assert (Hstart : filled
            (World (<["continuous_state_transition_"%string := PRef l]> (attrs w))
               (<[l := OArr4 (replicate (length types)
                                (replicate (length types)
                                   (zeros (shape0 centers) (shape0 centers))))]>
                  (heap w)))).
  { split.
    - apply (assigns_setattr _ _ (World (attrs w) _)); [compute_done|].
      by apply assigns_alloc.
    - eexists. split; [split; simpl; by rewrite lookup_insert_eq|].
      apply length_replicate. }
  revert Hstart. generalize (World
    (<["continuous_state_transition_"%string := PRef l]> (attrs w))
    (<[l := OArr4 (replicate (length types)
                     (replicate (length types)
                        (zeros (shape0 centers) (shape0 centers))))]> (heap w))).
  clear Hw Hl Htypes w. intros w Hw.
  wp_read types''.
  eapply wp_mono; [|apply (wp_for_each filled (fun _ => True))].
  - intros r w' Hfilled Hr. destruct (Hfilled Hr) as [Hassigns Htensor].
    split; [done|]. by exists l.
  - intros [row_ind row] w1 _ Hw1.
    apply (wp_for_each filled (fun _ => True)); [|by apply Forall_true|done].
    intros [column_ind transition_type] w2 _
      (Hw2 & tensor & [Hattr Hheap] & Hlength).
    apply wp_bind, wp_lift.
    destruct (getitem _ _) as [builder|?]; [|intros ?; discriminate].
    wp_read centers'. wp_read interior. wp_read edges. wp_read speed.
    wp_read position_range. wp_read movement_var. wp_read ind_to_node.
    wp_read distance.
    apply wp_bind, wp_lift.
    destruct (builder _) as [value|?]; [|intros ?; discriminate].
    apply wp_bind, (wp_attr_ref _ l); [done|].
    apply wp_bind, (wp_load_arr4 l tensor); [done|].
    apply wp_bind, wp_lift.
    destruct (assign_cell _ _ _ _) as [tensor'|?] eqn:Hassign;
      [|intros ?; discriminate].
    apply wp_store. intros _. split; [by apply assigns_store|].
    exists tensor'. split; [split; [done|by simpl; rewrite lookup_insert_eq]|].
    apply assign_cell_length in Hassign. congruence.
  - by apply Forall_true.
  - done.
Qed.

Lemma assigns_initial_conditions w0 w :
  assigns later_attributes w0 w ->
  fitted_initial_conditions w0 -> fitted_initial_conditions w.
Proof.
  intros [Hattrs Hheap] (l & ic & lm & interior & Hl & Hic & Hlm & Hint & Hrest).
  exists l, ic, lm, interior.
  rewrite !Hattrs by compute_done.
  split; [done|]. split; [by eapply lookup_weaken|].
  split; [done|]. split; [by eapply lookup_weaken|done].
Qed.

(** *** A fitted classifier *)

Lemma wp_conj {A} (m : M A) (Q1 Q2 : result A -> world -> Prop) (w : world) :
  wp m Q1 w -> wp m Q2 w -> wp m (fun r w' => Q1 r w' /\ Q2 r w') w.
Proof. by split. Qed.

Lemma fitted_shapes_intro w :
  fitted_initial_conditions w ->
  (exists (n_states : nat) l ic lt tensor,
     attrs w !! "initial_conditions_"%string = Some (PRef l) /\
     heap w !! l = Some (OArr3 ic) /\ length ic = n_states /\
     tensor_at lt tensor w /\ length tensor = n_states) ->
  exists n_bins, fitted_shapes w n_bins.
Proof.
  intros (l & ic & lm & interior & Hl & Hic & _ & _ & _ & Hrows & _)
         (n & l' & ic' & lt & tensor & Hl' & Hic' & Hlen & [Hlt Htensor] & Hlen').
  assert (l' = l) as -> by congruence. assert (ic' = ic) as -> by congruence.
  exists (length (ravel_F interior)), l, ic, lt, tensor.
  repeat split; try done. congruence.
Qed.

Lemma fit_keeps_initial_conditions (observation_model : M unit) position
    is_training track_graph center_well_id edge_order edge_spacing
    is_track_interior w :
  assigning later_attributes observation_model ->
  (forall l tensor w1, tensor_at l tensor w1 ->
     wp observation_model (fun _ w' => tensor_at l tensor w') w1) ->
  wp (self_infer ← attr_bool "infer_track_interior";
      fit_place_grid position track_graph center_well_id edge_order edge_spacing
        self_infer is_track_interior;;
      fit_initial_conditions position;;
      types ← attr_types "continuous_transition_types";
      fit_continuous_state_transition position is_training None types;;
      fit_discrete_state_transition None;;
      observation_model)
     (fun r w' => r = Ok tt ->
        fitted_initial_conditions w' /\ exists n_bins, fitted_shapes w' n_bins) w.
Proof.
  intros Hmodel Hkeeps.
  wp_read self_infer.
  apply wp_bind. apply (wp_mono _ (fun _ _ => True)); [|done].
  intros [[]|e] w1 _; [|discriminate].
  apply wp_bind. eapply wp_mono; [|apply fit_initial_conditions_wp].
  intros [[]|e] w2 Hw2; [|discriminate].
  destruct (Hw2 eq_refl) as (Hfitted & types & l & ic & Htypes & Hl & Hic & Hlen).
  apply wp_bind, (wp_attr_types _ types); [done|].
  apply wp_bind.
  eapply wp_mono;
    [|apply fit_continuous_state_transition_assigns, assigns_refl].
  intros [[]|e] w3 Hw3; [|discriminate].
  destruct (Hw3 eq_refl) as (Hassigns3 & lt & tensor & Htensor3 & Hlen3).
  apply wp_bind.
  eapply wp_mono;
    [|apply wp_conj;
       [by apply fit_discrete_state_transition_assigning
       |by apply (fit_discrete_state_transition_keeps lt tensor)]].
  intros [[]|e] w4 [Hassigns4 Htensor4]; [|discriminate].
  eapply wp_mono;
    [|apply wp_conj; [by apply Hmodel|by apply (Hkeeps lt tensor)]].
  intros r w5 [Hassigns5 Htensor5] _. simpl in Hassigns5, Htensor5.
  pose proof (assigns_initial_conditions w2 w5 Hassigns5 Hfitted) as Hfitted5.
  split; [done|]. apply fitted_shapes_intro; [done|].
  destruct Hassigns5 as [Hattrs Hheap].
  exists (length types), l, ic, lt, tensor.
  rewrite Hattrs by compute_done.
  split; [done|]. split; [by eapply lookup_weaken|done].
Qed.

(** ** The posteriors at the final time index *)

(** C4.  Take a classifier whose initial conditions have the shape
    (n_states, n_bins, 1) of its transition tensor -- every classifier that
    [fit] has returned from is one -- and observations of at least one time
    bin for which the observation model yields a likelihood of shape
    (n_time, n_bins).  Whenever [predict], of either classifier, returns with
    [is_compute_acausal] enabled, the dataset has [causal_posterior] and
    [acausal_posterior] over the same axes and the two are the same array at
    the final time index. *)
Theorem acausal_equals_causal_at_final_time :
  (forall w n_bins spikes time ds w',
     fitted_shapes w n_bins ->
     (forall place_fields interior likelihood,
        estimate_spiking_likelihood spikes place_fields interior = Ok likelihood ->
        has_shape (length spikes) n_bins likelihood) ->
     (1 <= length spikes)%nat ->
     SortedSpikesClassifier_predict spikes time true w = (Ok ds, w') ->
     final_posteriors_agree ds) /\
  (forall w n_bins multiunits time ds w',
     fitted_shapes w n_bins ->
     (forall centers models intensities occupancy rates flat likelihood,
        estimate_multiunit_likelihood multiunits centers models intensities
          occupancy rates flat = Ok likelihood ->
        has_shape (length multiunits) n_bins likelihood) ->
     (1 <= length multiunits)%nat ->
     ClusterlessClassifier_predict multiunits time true w = (Ok ds, w') ->
     final_posteriors_agree ds) /\
  (forall w position spikes is_training is_track_interior track_graph
          center_well_id edge_order edge_spacing w',
     SortedSpikesClassifier_fit position spikes is_training is_track_interior
       track_graph center_well_id edge_order edge_spacing w = (Ok tt, w') ->
     exists n_bins, fitted_shapes w' n_bins) /\
  (forall w position multiunits is_training is_track_interior track_graph
          center_well_id edge_order edge_spacing w',
     ClusterlessClassifier_fit position multiunits is_training is_track_interior
       track_graph center_well_id edge_order edge_spacing w = (Ok tt, w') ->
     exists n_bins, fitted_shapes w' n_bins).
Proof.
  split; [|split; [|split]].
  - intros w n_bins spikes time ds w'
      (li & ic & lt & cst & Hli & Hic & Hlt & Hcst & Hstates & Hrows) Hlik Hn Hrun.
    refine (wp_run _ (fun r _ => forall ds, r = Ok ds -> final_posteriors_agree ds)
              _ _ _ _ Hrun ds eq_refl).
    unfold SortedSpikesClassifier_predict.
    apply wp_bind, (wp_attr_arr4 _ lt cst); [done..|].
    wp_read place_fields. wp_read interior.
    apply wp_bind, wp_lift.
    destruct (estimate_spiking_likelihood _ _ _) as [likelihood|e] eqn:Hrun_lik;
      [|intros ? ?; discriminate].
    rewrite <- Hstates.
    by apply (predict_from_likelihood_final w n_bins li ic lt cst); eauto.
  - intros w n_bins multiunits time ds w'
      (li & ic & lt & cst & Hli & Hic & Hlt & Hcst & Hstates & Hrows) Hlik Hn Hrun.
    refine (wp_run _ (fun r _ => forall ds, r = Ok ds -> final_posteriors_agree ds)
              _ _ _ _ Hrun ds eq_refl).
    unfold ClusterlessClassifier_predict.
    apply wp_bind, (wp_attr_arr4 _ lt cst); [done..|].
    wp_read centers. wp_read models. wp_read intensities. wp_read occupancy.
    wp_read rates. wp_read interior.
    apply wp_bind, wp_lift.
    destruct (estimate_multiunit_likelihood _ _ _ _ _ _ _) as [likelihood|e]
      eqn:Hrun_lik; [|intros ? ?; discriminate].
    rewrite <- Hstates.
    by apply (predict_from_likelihood_final w n_bins li ic lt cst); eauto.
  - intros w position spikes is_training is_track_interior track_graph
      center_well_id edge_order edge_spacing w' Hrun.
    refine (wp_returns _ (fun w' => exists n_bins, fitted_shapes w' n_bins)
              _ _ _ _ Hrun).
    unfold SortedSpikesClassifier_fit.
    eapply wp_mono;
      [|apply fit_keeps_initial_conditions;
         [apply fit_place_fields_assigning
         |intros; by apply fit_place_fields_keeps]].
    intros r w1 Hw1 Hr. by apply Hw1.
  - intros w position multiunits is_training is_track_interior track_graph
      center_well_id edge_order edge_spacing w' Hrun.
    refine (wp_returns _ (fun w' => exists n_bins, fitted_shapes w' n_bins)
              _ _ _ _ Hrun).
    unfold ClusterlessClassifier_fit.
    eapply wp_mono;
      [|apply fit_keeps_initial_conditions;
         [apply fit_multiunits_assigning
         |intros; by apply fit_multiunits_keeps]].
    intros r w1 Hw1 Hr. by apply Hw1.
Qed.

(** ** Uniform initial conditions *)

(** C5.  On a classifier with at least one regime whose mask has [k >= 1]
    interior bins, [fit_initial_conditions] returns and sets
    [initial_conditions_] to an array with the axes (state, bin, 1) that
    sums to 1 over all (regime, bin) pairs, is [1 / (n_states * k)] at every
    (regime, interior bin), and is 0 at every exterior bin of every regime.
    Whenever [fit], of either classifier, returns, the classifier has such
    initial conditions for the mask it has, and the later steps of [fit] have
    left both as they were. *)
Theorem fit_initial_conditions_uniform :
  (forall w position types lc centers lm interior,
     attrs w !! "continuous_transition_types"%string = Some (PTypes types) ->
     (1 <= length types)%nat ->
     attrs w !! "place_bin_centers_"%string = Some (PRef lc) ->
     heap w !! lc = Some (OArr centers) ->
     attrs w !! "is_track_interior_"%string = Some (PRef lm) ->
     heap w !! lm = Some (OBool interior) ->
     (1 <= count_interior (ravel_F interior))%nat ->
     exists w' l ic,
       fit_initial_conditions position w = (Ok tt, w') /\
       attrs w' !! "initial_conditions_"%string = Some (PRef l) /\
       heap w' !! l = Some (OArr3 ic) /\
       length ic = length types /\
       uniform_over_interior (ravel_F interior) ic) /\
  (forall w position spikes is_training is_track_interior track_graph
          center_well_id edge_order edge_spacing w',
     SortedSpikesClassifier_fit position spikes is_training is_track_interior
       track_graph center_well_id edge_order edge_spacing w = (Ok tt, w') ->
     fitted_initial_conditions w') /\
  (forall w position multiunits is_training is_track_interior track_graph
          center_well_id edge_order edge_spacing w',
     ClusterlessClassifier_fit position multiunits is_training is_track_interior
       track_graph center_well_id edge_order edge_spacing w = (Ok tt, w') ->
     fitted_initial_conditions w').
Proof.
  split; [|split].
  - intros w position types lc centers lm interior
      Htypes Hn Hlc Hcenters Hlm Hinterior Hk.
    set (n := length types) in *.
    set (ic0 := InitialConditions.uniform_on_track (points centers) interior).
    set (ic := map (map (fun a => [a / of_nat n])) (replicate n ic0)).
    assert (Hrun : wp (fit_initial_conditions position)
              (fun r w' => r = Ok tt /\ exists l,
                 attrs w' !! "initial_conditions_"%string = Some (PRef l) /\
                 heap w' !! l = Some (OArr3 ic)) w).
    { unfold fit_initial_conditions.
      apply wp_bind, (wp_attr_types _ types); [done|].
      apply wp_bind, (wp_attr_arr _ lc centers); [done..|].
      apply wp_bind, (wp_attr_boolarr _ lm interior); [done..|].
      fold n. fold ic0.
      apply wp_bind, wp_lift. rewrite np_stack_replicate by done.
      unfold setattr_new. apply wp_bind, wp_alloc. intros l Hl.
      apply wp_setattr. split; [done|]. exists l. simpl.
      by rewrite !lookup_insert_eq. }
    unfold wp in Hrun.
    destruct (fit_initial_conditions position w) as [r w'].
    simpl in Hrun. destruct Hrun as (-> & l & Hattr & Hheap).
    exists w', l, ic. repeat split; try done.
    + unfold ic. by rewrite length_map, length_replicate.
    + by apply stacked_uniform.
    + by apply stacked_uniform.
  - intros w position spikes is_training is_track_interior track_graph
      center_well_id edge_order edge_spacing w' Hrun.
    refine (wp_returns _ fitted_initial_conditions _ _ _ _ Hrun).
    unfold SortedSpikesClassifier_fit.
    eapply wp_mono;
      [|apply fit_keeps_initial_conditions;
         [apply fit_place_fields_assigning
         |intros; by apply fit_place_fields_keeps]].
    intros r w1 Hw1 Hr. by apply Hw1.
  - intros w position multiunits is_training is_track_interior track_graph
      center_well_id edge_order edge_spacing w' Hrun.
    refine (wp_returns _ fitted_initial_conditions _ _ _ _ Hrun).
    unfold ClusterlessClassifier_fit.
    eapply wp_mono;
      [|apply fit_keeps_initial_conditions;
         [apply fit_multiunits_assigning
         |intros; by apply fit_multiunits_keeps]].
    intros r w1 Hw1 Hr. by apply Hw1.
Qed.


(** * Further properties *)

(** ** Rows that sum to 1, and their powers *)

Lemma stochastic_power (n : nat) (m : mat) (k : nat) :
  has_shape n n m -> Forall (fun row => sum row = 1) m ->
  Forall (fun row => sum row = 1) (matrix_power m k).
Proof.
  intros Hm Hone. destruct k as [|k]; simpl.
  - apply identity_rows.
  - assert (H01 : rows_sum_to_1_or_0 m).
    { eapply Forall_impl; [exact Hone|]. intros row Hrow. by left. }
    assert (Hcol : no_mass_into_zero_rows m).
    { intros j rowj Hj Hz. exfalso.
      pose proof (proj1 (Forall_lookup _ _) Hone j rowj Hj) as H1. simpl in H1.
      rewrite Hz in H1. revert H1. compute_done. }
    pose proof (power_succ_row_sums n m k Hm H01 Hcol) as Hsums.
    unfold row_sums in Hsums.
    apply (Forall_map sum (fun s => s = 1)). rewrite Hsums.
    by apply Forall_map.
Qed.

Lemma map_const_replicate {A B} (c : B) (l : list A) :
  map (fun _ => c) l = replicate (length l) c.
Proof. induction l as [|a l IH]; [done|]. simpl. by rewrite IH. Qed.

(** X1.  [_fix_zero_bins] is the repair that [empirical_movement] leaves
    out.  On a square array with at least one row it overwrites every row
    that sums to 0 with [1 / n_bins] and keeps the others; after it the
    normalised array, and every power of it, has all rows summing to 1.  On
    an array without rows it divides by zero. *)
Theorem fix_zero_bins_restores_row_sums :
  StateTransition._fix_zero_bins [] = Raise ZeroDivisionError /\
  forall (n : nat) (m : mat),
    (1 <= n)%nat -> has_shape n n m ->
    exists fixed,
      StateTransition._fix_zero_bins m = Ok fixed /\
      has_shape n n fixed /\
      (forall i row, m !! i = Some row ->
         fixed !! i = Some (if decide (sum row = 0)
                            then replicate n (1 / of_nat n) else row)) /\
      forall k,
        Forall (fun row => sum row = 1)
          (matrix_power (StateTransition._normalize_row_probability fixed) k).
Proof.
  split; [reflexivity|].
  intros n m Hn [Hlen Hrows]. unfold StateTransition._fix_zero_bins.
  rewrite Hlen, decide_False by lia.
  set (fix_row := fun row : list Qc =>
         if decide (sum row = 0) then map (fun _ => 1 / of_nat n) row else row).
  assert (Hfixed : forall row, length row = n ->
            fix_row row = (if decide (sum row = 0)
                           then replicate n (1 / of_nat n) else row)).
  { intros row Hrow. unfold fix_row. destruct (decide (sum row = 0)); [|done].
    by rewrite map_const_replicate, Hrow. }
  assert (Hshape : has_shape n n (map fix_row m)).
  { split; [by rewrite length_map|].
    apply Forall_map. eapply Forall_impl; [exact Hrows|].
    intros row Hrow. simpl. rewrite Hfixed by done.
    destruct (decide (sum row = 0)); [apply length_replicate|done]. }
  exists (map fix_row m). split; [done|]. split; [done|]. split.
  - intros i row Hrow.
    change (map fix_row m) with (fix_row <$> m).
    rewrite list_lookup_fmap, Hrow. simpl. f_equal. apply Hfixed.
    by apply (proj1 (Forall_lookup _ _) Hrows i).
  - intros k. apply (stochastic_power n); [by apply normalize_shape|].
    unfold StateTransition._normalize_row_probability.
    rewrite map_map. apply Forall_map. eapply Forall_impl; [exact Hrows|].
    intros row Hrow. simpl. rewrite normalized_row_sum.
    rewrite decide_False; [done|].
    rewrite Hfixed by done. destruct (decide (sum row = 0)); [|done].
    rewrite sum_replicate. unfold Qcdiv. rewrite Qcmult_1_l, Qcmult_inv_r.
    + compute_done.
    + apply of_nat_neq_0. lia.
Qed.

(** ** Non-negative matrices with rows summing to at most 1 *)

Lemma of_nat_nonneg (n : nat) : 0 <= of_nat n.
Proof.
  induction n as [|n IH]; [by rewrite of_nat_0|].
  rewrite of_nat_S. by apply Qcplus_nonneg_nonneg.
Qed.

Lemma nth_nonneg (i : nat) (v : list Qc) :
  Forall (fun a => 0 <= a) v -> 0 <= nth i v 0.
Proof.
  intros Hv. revert i. induction Hv as [|a v Ha _ IH]; intros [|i]; simpl; auto.
Qed.

Lemma dot_nonneg (u v : list Qc) :
  Forall (fun a => 0 <= a) u -> Forall (fun a => 0 <= a) v -> 0 <= dot u v.
Proof.
  intros Hu. revert v. induction Hu as [|a u Ha _ IH]; intros v Hv.
  - done.
  - destruct Hv as [|b v Hb Hv]; [done|].
    rewrite dot_cons. apply Qcplus_nonneg_nonneg; [|by apply IH].
    by apply Qcmult_nonneg_nonneg.
Qed.

Lemma dot_le_sum (u v : list Qc) :
  Forall (fun a => 0 <= a) u -> Forall (fun s => s <= 1) v -> dot u v <= sum u.
Proof.
  intros Hu. revert v. induction Hu as [|a u Ha Hu IH]; intros v Hv.
  - done.
  - destruct Hv as [|b v Hb Hv].
    + rewrite dot_nil_r. by apply sum_nonneg, Forall_cons.
    + rewrite dot_cons, sum_cons. apply Qcplus_le_compat; [|by apply IH].
      rewrite <- (Qcmult_1_r a) at 2. by apply Qcmult_le_mono_nonneg_l.
Qed.

Lemma col_nonneg (b : mat) (j : nat) :
  Forall (Forall (fun a => 0 <= a)) b -> Forall (fun a => 0 <= a) (col b j).
Proof.
  intros Hb. unfold col. apply Forall_map. eapply Forall_impl; [exact Hb|].
  intros row Hrow. simpl. by apply nth_nonneg.
Qed.

Lemma matmul_substochastic (n : nat) (a b : mat) :
  substochastic a -> has_shape n n b -> substochastic b ->
  substochastic (matmul a b).
Proof.
  intros Ha Hb Hsub. unfold substochastic, matmul.
  apply Forall_map. eapply Forall_impl; [exact Ha|].
  intros row [Hrow Hsum]. simpl.
  rewrite (has_shape_hd n n b Hb) by done. split.
  - apply Forall_map, Forall_forall. intros j _. simpl.
    apply dot_nonneg; [done|]. apply col_nonneg.
    eapply Forall_impl; [exact Hsub|]. by intros r [Hr _].
  - rewrite (sum_vecmat n b row) by apply Hb.
    eapply Qcle_trans; [|exact Hsum].
    apply dot_le_sum; [done|]. unfold row_sums. apply Forall_map.
    eapply Forall_impl; [exact Hsub|]. by intros r [_ Hr].
Qed.

Lemma power_succ_substochastic (n : nat) (m : mat) (k : nat) :
  has_shape n n m -> substochastic m -> substochastic (power_succ m k).
Proof.
  intros Hm Hsub. induction k as [|k IH]; [done|]. simpl.
  apply (matmul_substochastic n); [done| |done]. by apply power_succ_shape.
Qed.

Lemma identity_substochastic (n : nat) : substochastic (Np.identity n).
Proof.
  apply Forall_forall. intros row Hrow. split.
  - unfold Np.identity in Hrow.
    apply list_elem_of_In, in_map_iff in Hrow as (i & <- & _).
    apply Forall_map, Forall_forall. intros j _. simpl.
    by destruct (decide (i = j)).
  - rewrite (proj1 (Forall_forall _ _) (identity_rows n) row Hrow). done.
Qed.

Lemma matrix_power_substochastic (n : nat) (m : mat) (k : nat) :
  has_shape n n m -> substochastic m -> substochastic (matrix_power m k).
Proof.
  intros Hm Hsub. destruct k as [|k]; simpl.
  - apply identity_substochastic.
  - by apply (power_succ_substochastic n).
Qed.

Lemma normalize_substochastic (x : mat) :
  Forall (Forall (fun a => 0 <= a)) x ->
  substochastic (StateTransition._normalize_row_probability x).
Proof.
  intros Hx. unfold substochastic, StateTransition._normalize_row_probability.
  apply Forall_map. eapply Forall_impl; [exact Hx|].
  intros row Hrow. simpl. split.
  - apply Forall_map. eapply Forall_impl; [exact Hrow|].
    intros a Ha. simpl. unfold StateTransition.divide_nan_to_zero.
    destruct (decide (sum row = 0)) as [|Hnz]; [done|].
    apply Qcmult_nonneg_nonneg; [done|].
    apply Qclt_le_weak, Qcinv_pos.
    destruct (Qcle_lt_or_eq _ _ (sum_nonneg row Hrow)) as [Hpos|Heq];
      [done|by symmetry in Heq].
  - rewrite normalized_row_sum. by destruct (decide (sum row = 0)).
Qed.

(** ** The histogram of [empirical_movement] *)


Lemma histogramdd_ok {R} n_dims sample bins (range : option (list R)) shape counts :
  histogramdd n_dims sample bins range = Ok (shape, counts) ->
  length bins = n_dims /\
  shape = map (fun e => (length e - 1)%nat) bins /\
  length counts = product shape /\
  Forall (fun a => 0 <= a) counts /\
  (sample = [] -> Forall (fun a => a = 0) counts).
Proof.
  unfold histogramdd.
  destruct (bool_decide_reflect (length bins = n_dims)) as [Hbins|]; [|discriminate].
  simpl.
  destruct (match range with Some r => _ | None => _ end); [discriminate|].
  destruct (negb _); [discriminate|].
  intros [= <- <-]. split; [done|]. split; [done|].
  split; [by rewrite length_map, length_seq|]. split.
  - apply Forall_map, Forall_forall. intros f _. apply of_nat_nonneg.
  - intros ->. apply Forall_map, Forall_forall. intros f _. simpl.
    apply of_nat_0.
Qed.

Lemma reshape_F_ok (n m : nat) (flat : list Qc) (x : mat) (P : Qc -> Prop) :
  reshape_F n m flat = Ok x -> P 0 -> Forall P flat ->
  has_shape n m x /\ Forall (Forall P) x.
Proof.
  unfold reshape_F. destruct (decide _); [|discriminate].
  intros [= <-] Hzero Hflat. split.
  - split; [by rewrite length_map, length_seq|].
    apply Forall_map, Forall_forall. intros r _. simpl.
    by rewrite length_map, length_seq.
  - apply Forall_map, Forall_forall. intros r _. simpl.
    apply Forall_map, Forall_forall. intros c _. simpl.
    destruct (nth_in_or_default (r + n * c) flat 0) as [Hin | ->]; [|done].
    by apply (proj1 (Forall_forall _ _) Hflat), list_elem_of_In.
Qed.

(** What [empirical_movement] has computed when it returns. *)
Lemma of_nat_pos (n : nat) : (1 <= n)%nat -> 0 < of_nat n.
Proof.
  intros Hn.
  destruct (Qcle_lt_or_eq _ _ (of_nat_nonneg n)) as [Hpos|Hzero]; [done|].
  exfalso. apply (of_nat_neq_0 n); [lia|done].
Qed.

(** ** The mask is applied before the pairs are formed *)














(** Samples 0 and 2 are not adjacent in time, yet with sample 1 masked out
    they are counted as one movement from bin 1 to bin 0. *)
Example empirical_movement_skips_masked_sample :
  StateTransition.empirical_movement (R:=unit) (Arr1 [qz 3; qz 3; qz 1])
    [[qz 0; qz 2; qz 4]] (Some [true; false; true]) 1 None
  = Ok [[0; 1]; [0; 0]].
Proof. compute_done. Qed.

Lemma empirical_movement_inv {R} position edges is_training replay_speed
    (position_extent : option (list R)) m :
  StateTransition.empirical_movement position edges is_training replay_speed
    position_extent = Ok m ->
  exists selected counts x,
    bool_index
      (match is_training with
       | None => replicate (shape0 position) true
       | Some flags => flags
       end)
      (match Core.atleast_2d position with
       | Arr1 v => []
       | Arr2 _ rows => rows
       end) = Ok selected /\
    length edges = n_position_dims position /\
    Forall (fun a => 0 <= a) counts /\
    ((length selected <= 1)%nat -> Forall (fun a => a = 0) counts) /\
    reshape_F (n_grid_bins edges) (n_grid_bins edges) counts = Ok x /\
    m = matrix_power (StateTransition._normalize_row_probability x) replay_speed.
Proof.
  unfold StateTransition.empirical_movement.
  assert (Hdims : forall d rows, Core.atleast_2d position = Arr2 d rows ->
            d = n_position_dims position).
  { intros d rows. destruct position; simpl; congruence. }
  destruct (Core.atleast_2d position) as [?|d rows]; [discriminate|].
  specialize (Hdims d rows eq_refl).
  destruct (bool_index _ rows) as [selected|?]; [|discriminate]. simpl.
  destruct (histogramdd _ _ _ _) as [[shape counts]|?] eqn:Hhist; [|discriminate].
  simpl.
  apply histogramdd_ok in Hhist as (Hbins & -> & Hlen & Hnonneg & Hempty).
  rewrite length_app in Hbins.
  assert (Hedges : length edges = d) by lia.
  rewrite map_app, take_app_length' by (by rewrite length_map).
  fold (n_grid_bins edges).
  destruct (reshape_F _ _ _) as [x|?] eqn:Hx; [|discriminate]. simpl.
  intros [= <-]. exists selected, counts, x.
  repeat split; try done; [congruence|].
  intros Hfew. apply Hempty.
  destruct selected as [|s1 [|s2 selected]]; simpl in *; [done|done|lia].
Qed.

(** X2.  For every replay speed that is an integer [>= 0] (a natural number
    here; a negative one, for which NumPy inverts the matrix, is outside
    this statement), the matrix that [empirical_movement] returns is square
    with one row per bin of the grid, has no negative entry and no row
    summing to more than 1; it returns only when there is one array of
    edges per position dimension. *)
Theorem empirical_movement_substochastic {R} position edges is_training
    replay_speed (position_extent : option (list R)) m :
  StateTransition.empirical_movement position edges is_training replay_speed
    position_extent = Ok m ->
  length edges = n_position_dims position /\
  has_shape (n_grid_bins edges) (n_grid_bins edges) m /\
  substochastic m.
Proof.
  intros Hm.
  apply empirical_movement_inv in Hm
    as (selected & counts & x & _ & Hedges & Hnonneg & _ & Hx & ->).
  apply (reshape_F_ok _ _ _ _ (fun a => 0 <= a)) in Hx as [Hshape Hx];
    [|done|done].
  split; [done|]. split.
  - by apply matrix_power_shape, normalize_shape.
  - apply (matrix_power_substochastic (n_grid_bins edges));
      [by apply normalize_shape|by apply normalize_substochastic].
Qed.

Lemma dot_zero_l (u v : list Qc) : Forall (fun a => a = 0) u -> dot u v = 0.
Proof.
  intros Hu. revert v. induction Hu as [|a u -> _ IH]; intros [|b v]; try done.
  rewrite dot_cons, IH. ring.
Qed.

Lemma dot_zero_r (u v : list Qc) : Forall (fun a => a = 0) v -> dot u v = 0.
Proof.
  intros Hv. revert u. induction Hv as [|b v -> _ IH]; intros [|a u]; try done.
  rewrite dot_cons, IH. ring.
Qed.

Lemma matmul_zero_l (a b : mat) :
  Forall (Forall (fun e => e = 0)) a -> Forall (Forall (fun e => e = 0)) (matmul a b).
Proof.
  intros Ha. unfold matmul. apply Forall_map.
  eapply Forall_impl; [exact Ha|]. intros row Hrow. simpl.
  apply Forall_map, Forall_forall. intros j _. simpl. by apply dot_zero_l.
Qed.

(** X3.  With fewer than two training samples there is no movement to
    count: for a replay speed of at least 1 [empirical_movement], when it
    returns, returns the all-zero matrix. *)
Theorem empirical_movement_without_movement {R} position edges is_training
    replay_speed (position_extent : option (list R)) selected m :
  ndarray_bool_index is_training position = Ok selected ->
  (shape0 selected <= 1)%nat -> (1 <= replay_speed)%nat ->
  StateTransition.empirical_movement position edges (Some is_training)
    replay_speed position_extent = Ok m ->
  has_shape (n_grid_bins edges) (n_grid_bins edges) m /\
  Forall (Forall (fun a => a = 0)) m.
Proof.
  intros Hsel Hfew Hspeed Hm.
  apply empirical_movement_inv in Hm
    as (selected' & counts & x & Hsel' & _ & Hnonneg & Hzero & Hx & ->).
  split.
  { apply (reshape_F_ok _ _ _ _ (fun a => 0 <= a)) in Hx as [Hshape _];
      [|done|done].
    by apply matrix_power_shape, normalize_shape. }
  assert (Hlen : length selected' = shape0 selected).
  { destruct position as [v|d rows]; simpl in Hsel, Hsel'.
    - rewrite bool_index_fmap in Hsel'.
      destruct (bool_index is_training v) as [sel|]; [|discriminate].
      simpl in Hsel, Hsel'. injection Hsel as <-. injection Hsel' as <-.
      simpl. by rewrite length_map.
    - destruct (bool_index is_training rows) as [sel|]; [|discriminate].
      simpl in Hsel. injection Hsel as <-. by injection Hsel' as <-. }
  apply (reshape_F_ok _ _ _ _ (fun a => a = 0)) in Hx as [_ Hx];
    [|done|apply Hzero; lia].
  assert (Hnorm : Forall (Forall (fun a => a = 0))
                    (StateTransition._normalize_row_probability x)).
  { unfold StateTransition._normalize_row_probability. apply Forall_map.
    eapply Forall_impl; [exact Hx|]. intros row Hrow. simpl.
    apply Forall_map. eapply Forall_impl; [exact Hrow|]. intros a ->. simpl.
    unfold StateTransition.divide_nan_to_zero.
    destruct (decide _); [done|]. unfold Qcdiv. ring. }
  destruct replay_speed as [|[|k]]; [lia|done|].
  simpl. by apply matmul_zero_l.
Qed.

(** X4.  [empirical_movement] rejects a training mask that does not have one
    flag per sample with an IndexError, and, given such a mask, a list of
    edges that does not have one array per position dimension with a
    ValueError. *)
Theorem empirical_movement_rejects {R} position edges is_training replay_speed
    (position_extent : option (list R)) :
  (length is_training <> shape0 position ->
   StateTransition.empirical_movement position edges (Some is_training)
     replay_speed position_extent = Raise IndexError) /\
  (length is_training = shape0 position ->
   length edges <> n_position_dims position ->
   StateTransition.empirical_movement position edges (Some is_training)
     replay_speed position_extent = Raise ValueError).
Proof.
  unfold StateTransition.empirical_movement. split.
  - intros Hmask. destruct position as [v|d rows]; simpl in *.
    + unfold bool_index. rewrite length_map. by rewrite decide_False.
    + unfold bool_index. by rewrite decide_False.
  - intros Hmask Hedges.
    assert (Hhist : forall d sample,
              d = n_position_dims position ->
              histogramdd (d + d) sample (edges ++ edges) position_extent
              = Raise ValueError).
    { intros d sample ->. unfold histogramdd.
      rewrite bool_decide_eq_false_2; [done|]. rewrite length_app. lia. }
    destruct position as [v|d rows]; simpl in *.
    + unfold bool_index at 1. rewrite length_map, decide_True by done. simpl.
      by rewrite (Hhist 1%nat).
    + unfold bool_index at 1. rewrite decide_True by done. simpl.
      by rewrite Hhist.
Qed.


(** ** The builders and the track interior *)

(** X5.  Normalising a matrix without negative entries twice is normalising
    it once, and the normalised matrix has no negative entry and no row
    summing to more than 1. *)
Theorem normalize_row_probability_idempotent (x : mat) :
  Forall (Forall (fun a => 0 <= a)) x ->
  StateTransition._normalize_row_probability
    (StateTransition._normalize_row_probability x)
  = StateTransition._normalize_row_probability x /\
  substochastic (StateTransition._normalize_row_probability x).
Proof.
  intros Hx. split; [|by apply normalize_substochastic].
  unfold StateTransition._normalize_row_probability. rewrite map_map.
  apply map_ext_in. intros row _.
  rewrite normalized_row_sum, map_map. apply map_ext. intros a.
  unfold StateTransition.divide_nan_to_zero.
  destruct (decide (sum row = 0)) as [Hz|Hnz].
  - by rewrite decide_True.
  - rewrite decide_False by compute_done. unfold Qcdiv.
    replace (/ 1) with 1 by compute_done. ring.
Qed.

Lemma kernel_row_sum_pos (centers : mat) cov i row :
  (forall mean cov x, 0 < multivariate_normal_pdf mean cov x) ->
  StateTransition.gaussian_kernel centers cov !! i = Some row -> 0 < sum row.
Proof.
  intros Hpdf Hrow.
  assert (exists a, row !! i = Some a) as [a Ha].
  { apply lookup_lt_is_Some.
    destruct (gaussian_kernel_shape centers cov) as [Hlen Hrows].
    rewrite (proj1 (Forall_lookup _ _) Hrows i row Hrow).
    rewrite <- Hlen. by apply lookup_lt_Some in Hrow. }
  apply (sum_pos _ a).
  - apply Forall_lookup. intros c b Hb. apply Qclt_le_weak.
    exact (gaussian_kernel_lookup Hpdf centers cov i c row b Hrow Hb).
  - by apply (list_elem_of_lookup_2 _ i).
  - exact (gaussian_kernel_lookup Hpdf centers cov i i row a Hrow Ha).
Qed.

(** X6.  [random_walk] returns exactly when there are at least two bin
    centres and scipy accepts the parameters of every bin; without a bin it
    raises a ValueError and with a single accepted bin an AxisError, both
    from [np.stack].  When the density is positive everywhere, the matrix it
    returns is bins-by-bins and every row of it sums to 1, whatever the
    replay speed: no row of it is ever 0. *)
Theorem random_walk_rows_sum_to_1 (centers : mat) cov replay_speed :
  (forall mean cov x, 0 < multivariate_normal_pdf mean cov x) ->
  (forall m,
     StateTransition.random_walk centers cov replay_speed = Ok m ->
     (2 <= length centers)%nat /\
     Forall (fun bin => multivariate_normal_error bin cov = None) centers /\
     has_shape (length centers) (length centers) m /\
     Forall (fun row => sum row = 1) m) /\
  ((2 <= length centers)%nat ->
   Forall (fun bin => multivariate_normal_error bin cov = None) centers ->
   exists m, StateTransition.random_walk centers cov replay_speed = Ok m) /\
  (centers = [] ->
   StateTransition.random_walk centers cov replay_speed = Raise ValueError) /\
  (forall bin, centers = [bin] -> multivariate_normal_error bin cov = None ->
   StateTransition.random_walk centers cov replay_speed = Raise AxisError).
Proof.
  intros Hpdf. split; [|split; [|split]].
  - intros m Hm. apply random_walk_inv in Hm as (Hlen & Hok & ->).
    split; [done|]. split; [done|].
    pose proof (gaussian_kernel_shape centers cov) as Hkernel.
    assert (Hshape : has_shape (length centers) (length centers)
              (StateTransition._normalize_row_probability
                 (StateTransition.gaussian_kernel centers cov))).
    { by apply normalize_shape. }
    split; [by apply matrix_power_shape|].
    apply (stochastic_power (length centers)); [done|].
    unfold StateTransition._normalize_row_probability.
    apply Forall_map, Forall_lookup. intros i row Hrow. simpl.
    apply normalized_row_sum_pos. by apply (kernel_row_sum_pos centers cov i).
  - intros Hlen Hok. unfold StateTransition.random_walk.
    rewrite stacked_densities_accepts by done.
    destruct centers as [|b1 [|b2 rest]]; simpl in Hlen; [lia|lia|].
    by eexists.
  - intros ->. reflexivity.
  - intros bin -> Hbin. unfold StateTransition.random_walk.
    rewrite stacked_densities_accepts; [done|]. by repeat constructor.
Qed.

Lemma normalize_masked_zero_outside (flat : list bool) (x : mat) :
  zero_outside flat (StateTransition._normalize_row_probability (masked flat x)).
Proof.
  intros i j row a Hrow Ha Hout.
  unfold StateTransition._normalize_row_probability in Hrow.
  apply list_lookup_fmap_Some in Hrow as (mrow & -> & Hmrow).
  apply list_lookup_fmap_Some in Ha as (v & -> & Hv).
  destruct (masked_lookup _ _ _ _ _ _ Hmrow Hv)
    as (bi & bj & rx & k & Hbi & Hbj & _ & _ & ->).
  assert (bi && bj = false) as ->.
  { destruct Hout as [Hi|Hj].
    - rewrite Hi in Hbi. by injection Hbi as <-.
    - rewrite Hj in Hbj. injection Hbj as <-. apply andb_false_r. }
  unfold StateTransition.divide_nan_to_zero.
  destruct (decide _); [done|]. unfold Qcdiv. ring.
Qed.

Lemma matmul_lookup (a b : mat) (i j : nat) (row : list Qc) (e : Qc) :
  matmul a b !! i = Some row -> row !! j = Some e ->
  exists u, a !! i = Some u /\ e = dot u (col b j).
Proof.
  unfold matmul. intros Hrow He.
  apply list_lookup_fmap_Some in Hrow as (u & -> & Hu).
  apply list_lookup_fmap_Some in He as (j' & -> & Hj').
  apply lookup_seq in Hj' as [Hj' _]. simpl in Hj'. subst j'. by exists u.
Qed.

Lemma power_succ_zero_outside (flat : list bool) (t : mat) (k : nat) :
  zero_outside flat t -> zero_outside flat (power_succ t k).
Proof.
  intros Hz. induction k as [|k IH]; [done|]. simpl.
  intros i j row e Hrow He Hout.
  destruct (matmul_lookup _ _ _ _ _ _ Hrow He) as (u & Hu & ->).
  destruct Hout as [Hi|Hj].
  - apply dot_zero_l, Forall_lookup. intros c a Ha.
    apply (Hz i c u a Hu Ha). by left.
  - apply dot_zero_r. unfold col. apply Forall_map, Forall_lookup.
    intros l r Hr. simpl. rewrite nth_lookup.
    destruct (r !! j) as [a|] eqn:Ha; simpl; [|done].
    apply (IH l j r a Hr Ha). by right.
Qed.

Lemma masked_kernel_row_sum_pos (flat : list bool) (centers : mat) cov i mrow :
  (forall mean cov x, 0 < multivariate_normal_pdf mean cov x) ->
  length flat = length centers ->
  masked flat (StateTransition.gaussian_kernel centers cov) !! i = Some mrow ->
  flat !! i = Some true -> 0 < sum mrow.
Proof.
  intros Hpdf Hflat Hmrow Hbi.
  pose proof Hmrow as Hmasked. unfold masked in Hmrow.
  apply lookup_zip_with_Some in Hmrow as (bi & krow & -> & Hbi' & Hkrow).
  rewrite Hbi in Hbi'. injection Hbi' as <-.
  assert (exists a, krow !! i = Some a) as [a Ha].
  { apply lookup_lt_is_Some.
    destruct (gaussian_kernel_shape centers cov) as [_ Hrows].
    rewrite (proj1 (Forall_lookup _ _) Hrows i krow Hkrow).
    rewrite <- Hflat. by apply lookup_lt_Some in Hbi. }
  apply (sum_pos _ a).
  - exact (masked_row_nonneg Hpdf flat centers cov i _ Hmasked).
  - apply (list_elem_of_lookup_2 _ i). apply lookup_zip_with_Some.
    by exists true, a.
  - exact (gaussian_kernel_lookup Hpdf centers cov i i krow a Hkrow Ha).
Qed.

(** X7.  When the density is positive everywhere and the replay speed is at
    least 1, the matrix of [random_walk_with_absorbing_boundaries] has only
    zeros in the row and in the column of every exterior bin, and the row of
    every interior bin sums to 1.  With a replay speed of 0 it is the identity
    matrix, exterior bins included. *)
Theorem absorbing_boundaries_respect_track (centers : mat) cov interior :
  (forall mean cov x, 0 < multivariate_normal_pdf mean cov x) ->
  (forall replay_speed m,
     (1 <= replay_speed)%nat ->
     StateTransition.random_walk_with_absorbing_boundaries centers cov interior
       replay_speed = Ok m ->
     zero_outside (ravel_F interior) m /\
     forall i row, m !! i = Some row -> ravel_F interior !! i = Some true ->
       sum row = 1) /\
  (forall m,
     StateTransition.random_walk_with_absorbing_boundaries centers cov interior 0
     = Ok m ->
     m = Np.identity (length centers)).
Proof.
  intros Hpdf. split.
  - intros replay_speed m Hspeed Hm.
    apply random_walk_with_absorbing_boundaries_inv in Hm as [Hflat ->].
    set (flat := ravel_F interior) in *.
    set (kernel := StateTransition.gaussian_kernel centers cov).
    set (t := StateTransition._normalize_row_probability (masked flat kernel)).
    destruct replay_speed as [|k]; [lia|]. simpl.
    assert (Hzero : zero_outside flat t) by apply normalize_masked_zero_outside.
    split; [by apply power_succ_zero_outside|].
    assert (Hshape : has_shape (length centers) (length centers) t).
    { apply normalize_shape, masked_shape; [done|apply gaussian_kernel_shape]. }
    assert (Hinterior : forall j rowj, t !! j = Some rowj ->
              flat !! j = Some true -> sum rowj = 1).
    { intros j rowj Hj Hbj. unfold t, StateTransition._normalize_row_probability in Hj.
      apply list_lookup_fmap_Some in Hj as (mrow & -> & Hmrow).
      apply normalized_row_sum_pos.
      by apply (masked_kernel_row_sum_pos flat centers cov j). }
    assert (Hcol : no_mass_into_zero_rows t).
    { intros j rowj Hj Hsum.
      assert (Hbj : flat !! j = Some false).
      { destruct (flat !! j) as [[|]|] eqn:Hbj; [exfalso|done|exfalso].
        - rewrite (Hinterior j rowj Hj Hbj) in Hsum. revert Hsum. compute_done.
        - apply lookup_ge_None_1 in Hbj. apply lookup_lt_Some in Hj.
          destruct Hshape as [Hlen _]. lia. }
      apply Forall_lookup. intros i row Hrow. rewrite nth_lookup.
      destruct (row !! j) as [a|] eqn:Ha; simpl; [|done].
      apply (Hzero i j row a Hrow Ha). by right. }
    pose proof (power_succ_row_sums (length centers) t k Hshape
                  (normalize_rows_sum_to_1_or_0 _) Hcol) as Hsums.
    intros i row Hrow Hbi.
    apply (f_equal (fun l => l !! i)) in Hsums. unfold row_sums in Hsums.
    change (map sum) with (fmap (M:=list) sum) in Hsums.
    rewrite !list_lookup_fmap, Hrow in Hsums. simpl in Hsums.
    destruct (t !! i) as [trow|] eqn:Htrow; simpl in Hsums; [|discriminate].
    injection Hsums as ->. by apply (Hinterior i).
  - intros m Hm.
    apply random_walk_with_absorbing_boundaries_inv in Hm as [Hflat ->]. simpl.
    f_equal. unfold StateTransition._normalize_row_probability, masked.
    rewrite length_map, length_zip_with.
    destruct (gaussian_kernel_shape centers cov) as [-> _]. lia.
Qed.

Lemma masked_identity_row (n : nat) (flat : list bool) (i : nat) (bi : bool) :
  length flat = n -> flat !! i = Some bi ->
  zip_with (fun (bj : bool) a => if bi && bj then a else 0) flat
           (map (fun j => if decide (i = j) then 1 else 0) (seq 0 n))
  = map (fun j => if decide (i = j) then (if bi then 1 else 0) else 0) (seq 0 n).
Proof.
  intros Hflat Hbi. apply list_eq. intros j.
  rewrite lookup_zip_with.
  change (map ?f ?l) with (f <$> l). rewrite !list_lookup_fmap.
  destruct (decide (j < n)%nat) as [Hj|Hj].
  - rewrite lookup_seq_lt by done. simpl.
    destruct (flat !! j) as [bj|] eqn:Hbj.
    + simpl. f_equal. destruct (decide (i = j)) as [->|].
      * rewrite Hbi in Hbj. injection Hbj as <-. by destruct bi.
      * by destruct (bi && bj).
    + apply lookup_ge_None_1 in Hbj. lia.
  - rewrite lookup_seq_ge by lia. simpl.
    by destruct (flat !! j).
Qed.

(** X8.  The matrix of the [identity] builder is bins-by-bins; its entry
    [(i, j)] is 1 when [i = j] and bin [i] is interior, and 0 otherwise. *)
Theorem identity_stays_on_track (centers : mat) interior m :
  StateTransition.identity centers interior = Ok m ->
  has_shape (length centers) (length centers) m /\
  forall i j row a, m !! i = Some row -> row !! j = Some a ->
    a = if bool_decide (i = j /\ ravel_F interior !! i = Some true) then 1 else 0.
Proof.
  intros Hm. split; [by apply (identity_rows_sum centers interior)|].
  unfold StateTransition.identity in Hm.
  apply (mask_then_normalize (length centers)) in Hm as [Hflat ->];
    [|apply identity_shape].
  set (flat := ravel_F interior) in *. set (n := length centers) in *.
  intros i j row a Hrow Ha.
  unfold StateTransition._normalize_row_probability in Hrow.
  apply list_lookup_fmap_Some in Hrow as (mrow & -> & Hmrow).
  apply list_lookup_fmap_Some in Ha as (v & -> & Hv).
  destruct (masked_lookup _ _ _ _ _ _ Hmrow Hv)
    as (bi & bj & rx & e & Hbi & Hbj & Hrx & He & ->).
  unfold masked in Hmrow.
  apply lookup_zip_with_Some in Hmrow as (bi' & rx' & -> & Hbi' & Hrx').
  rewrite Hbi in Hbi'. injection Hbi' as <-.
  rewrite Hrx in Hrx'. injection Hrx' as <-.
  unfold Np.identity in Hrx.
  apply list_lookup_fmap_Some in Hrx as (i' & -> & Hi').
  apply lookup_seq in Hi' as [Hi' Hi]. simpl in Hi'. subst i'.
  apply list_lookup_fmap_Some in He as (j' & -> & Hj').
  apply lookup_seq in Hj' as [Hj' Hj]. simpl in Hj'. subst j'.
  rewrite (masked_identity_row n flat i bi Hflat Hbi).
  rewrite sum_diag_row by lia.
  unfold StateTransition.divide_nan_to_zero.
  destruct bi.
  - replace (1 + of_nat (n - 1) * 0) with (1 : Qc) by ring.
    rewrite decide_False by compute_done.
    destruct (decide (i = j)) as [->|Hne].
    + rewrite Hbi in Hbj. injection Hbj as <-. simpl.
      rewrite bool_decide_eq_true_2 by done. compute_done.
    + rewrite bool_decide_eq_false_2 by (intros [? _]; done).
      destruct bj; compute_done.
  - replace (0 + of_nat (n - 1) * 0) with (0 : Qc) by ring.
    rewrite decide_True by done. simpl.
    rewrite bool_decide_eq_false_2; [done|]. intros [_ Hint]. congruence.
Qed.

(** X9.  [uniform_state_transition] and [identity] return exactly when the
    flattened track interior has one flag per bin centre, and raise an
    IndexError otherwise.  [random_walk_with_absorbing_boundaries] stacks the
    densities first: without a bin it raises a ValueError and with a single
    accepted bin an AxisError, whatever the mask; with two or more accepted
    bins it returns exactly when there is one flag per bin centre, and raises
    an IndexError otherwise. *)
Theorem masked_builders_need_one_flag_per_bin (centers : mat) cov interior
    replay_speed :
  (length (ravel_F interior) = length centers ->
   (exists m, StateTransition.uniform_state_transition centers interior = Ok m) /\
   (exists m, StateTransition.identity centers interior = Ok m) /\
   ((2 <= length centers)%nat ->
    Forall (fun bin => multivariate_normal_error bin cov = None) centers ->
    exists m, StateTransition.random_walk_with_absorbing_boundaries centers cov
                interior replay_speed = Ok m)) /\
  (length (ravel_F interior) <> length centers ->
   StateTransition.uniform_state_transition centers interior = Raise IndexError /\
   StateTransition.identity centers interior = Raise IndexError /\
   ((2 <= length centers)%nat ->
    Forall (fun bin => multivariate_normal_error bin cov = None) centers ->
    StateTransition.random_walk_with_absorbing_boundaries centers cov interior
      replay_speed = Raise IndexError)) /\
  (centers = [] ->
   StateTransition.random_walk_with_absorbing_boundaries centers cov interior
     replay_speed = Raise ValueError) /\
  (forall bin, centers = [bin] -> multivariate_normal_error bin cov = None ->
   StateTransition.random_walk_with_absorbing_boundaries centers cov interior
     replay_speed = Raise AxisError) /\
  (forall m,
     StateTransition.random_walk_with_absorbing_boundaries centers cov interior
       replay_speed = Ok m ->
     (2 <= length centers)%nat /\
     Forall (fun bin => multivariate_normal_error bin cov = None) centers /\
     length (ravel_F interior) = length centers).
Proof.
  unfold StateTransition.uniform_state_transition, StateTransition.identity,
    StateTransition.random_walk_with_absorbing_boundaries.
  set (n := length centers). set (flat := ravel_F interior).
  assert (Hmask : forall x, has_shape n n x -> length flat = n ->
            exists t, zero_rows flat x = Ok t /\ zero_cols flat t = Ok (masked flat x)).
  { intros x Hx Hflat. pose proof (zero_rows_cols n flat x Hflat Hx) as Hxm.
    destruct (zero_rows flat x) as [t|]; [|discriminate]. by exists t. }
  assert (Hraise : forall x, has_shape n n x -> length flat <> n ->
            zero_rows flat x = Raise IndexError).
  { intros x [Hx _] Hflat. unfold zero_rows. rewrite decide_False; [done|congruence]. }
  assert (Hstack : (2 <= n)%nat ->
            Forall (fun bin => multivariate_normal_error bin cov = None) centers ->
            StateTransition.stacked_densities centers cov
            = Ok (StateTransition.gaussian_kernel centers cov)).
  { intros Hn Hok. rewrite stacked_densities_accepts by done.
    clear Hmask Hraise. subst n.
    destruct centers as [|b1 [|b2 rest]]; simpl in Hn; [lia|lia|done]. }
  split; [|split; [|split; [|split]]].
  - intros Hflat.
    destruct (Hmask _ (ones_shape n) Hflat) as (t1 & -> & Ht1).
    destruct (Hmask _ (identity_shape n) Hflat) as (t2 & -> & Ht2).
    simpl. rewrite Ht1, Ht2. simpl.
    split; [by eexists|]. split; [by eexists|].
    intros Hn Hok. rewrite Hstack by done. simpl.
    destruct (Hmask _ (gaussian_kernel_shape centers cov) Hflat) as (t3 & -> & Ht3).
    simpl. rewrite Ht3. simpl. by eexists.
  - intros Hflat.
    rewrite (Hraise _ (ones_shape n) Hflat), (Hraise _ (identity_shape n) Hflat).
    split; [done|]. split; [done|].
    intros Hn Hok. rewrite Hstack by done. simpl.
    by rewrite (Hraise _ (gaussian_kernel_shape centers cov) Hflat).
  - intros Hcenters. subst n. by rewrite Hcenters.
  - intros bin Hcenters Hbin. subst n. rewrite Hcenters.
    rewrite stacked_densities_accepts; [done|]. by repeat constructor.
  - intros m Hm.
    destruct (StateTransition.stacked_densities centers cov) as [kernel|] eqn:Hkernel;
      [|discriminate].
    apply stacked_densities_inv in Hkernel as (-> & Hlen & Hok).
    split; [done|]. split; [done|]. simpl in Hm.
    destruct (decide (length flat = n)) as [|Hflat]; [done|].
    rewrite (Hraise _ (gaussian_kernel_shape centers cov) Hflat) in Hm.
    discriminate.
Qed.

(** X10.  For at least one state, a single one included, [uniform_discrete]
    returns a states-by-states matrix with every entry [1 / n_states] and
    every row summing to 1. *)
Theorem uniform_discrete_rows (n : nat) :
  (1 <= n)%nat ->
  has_shape n n (StateTransition.uniform_discrete n) /\
  Forall (Forall (fun a => a = 1 / of_nat n)) (StateTransition.uniform_discrete n) /\
  Forall (fun row => sum row = 1) (StateTransition.uniform_discrete n).
Proof.
  intros Hn. unfold StateTransition.uniform_discrete, ones.
  change (map ?f ?l) with (f <$> l). rewrite !fmap_replicate.
  split; [|split].
  - split; [apply length_replicate|]. apply Forall_replicate, length_replicate.
  - apply Forall_replicate, Forall_replicate. done.
  - apply Forall_replicate. rewrite sum_replicate.
    unfold Qcdiv. rewrite Qcmult_1_l. apply Qcmult_inv_r, of_nat_neq_0. lia.
Qed.


(** ** The dataset of [predict] *)

Lemma wp_mapM {A B} (f : A -> M B) (P : A -> B -> Prop) (l : list A) (w : world) :
  (forall a w1, wp (f a) (fun r _ => forall y, r = Ok y -> P a y) w1) ->
  wp (mapM f l) (fun r _ => forall ys, r = Ok ys -> Forall2 P l ys) w.
Proof.
  intros Hf. revert w. induction l as [|a l IH]; intros w.
  - apply wp_ret. intros ys [= <-]. constructor.
  - rewrite mapM_cons. apply wp_bind. eapply wp_mono; [|apply Hf].
    intros [y|e] w1 Hy; [|intros ys Hys; discriminate].
    apply wp_bind. eapply wp_mono; [|apply IH].
    intros [k|e] w2 Hk; [|intros ys Hys; discriminate].
    apply wp_ret. intros ys [= <-]. constructor; [by apply Hy|by apply Hk].
Qed.

Lemma masked_variable_dims new_shape flat key l w :
  wp (masked_variable new_shape flat (key, l))
     (fun r _ => forall kv, r = Ok kv ->
        fst kv = key /\
        da_dims (snd kv)
        = match new_shape with
          | Some _ => ["time"; "state"; "x_position"; "y_position"]%string
          | None => ["time"; "state"; "position"]%string
          end) w.
Proof.
  unfold masked_variable. wp_read loaded.
  apply wp_bind, wp_store. apply wp_bind, wp_lift.
  destruct (squeeze_last _) as [squeezed|?]; [|intros ? ?; discriminate].
  destruct new_shape as [[|n0 [|n1 [|n2 [|n3 [|n4 shape]]]]]|];
    try (apply wp_raise; intros ? ?; discriminate).
  - apply wp_bind, wp_lift.
    destruct (reshape4 n0 n1 n2 n3 squeezed) as [reshaped|?];
      [|intros ? ?; discriminate].
    apply wp_ret. by intros kv [= <-].
  - apply wp_ret. by intros kv [= <-].
Qed.

Lemma labelled_variables (dims : list string) (results : list (string * loc))
    (variables : list (string * data_array)) :
  Forall2 (fun (e : string * loc) (kv : string * data_array) =>
             fst kv = fst e /\ da_dims (snd kv) = dims) results variables ->
  map fst variables = map fst results /\
  Forall (fun kv => da_dims (snd kv) = dims) variables.
Proof.
  induction 1 as [|e kv results variables [Hname Hdims] _ [IHnames IHdims]];
    [done|].
  simpl. rewrite Hname, IHnames. split; [done|]. by constructor.
Qed.

Lemma predict_from_likelihood_predicted n_states likelihood n_time time
    is_compute_acausal w :
  wp (predict_from_likelihood n_states likelihood n_time time is_compute_acausal)
     (fun r _ => forall ds, r = Ok ds -> predicted is_compute_acausal ds) w.
Proof.
  unfold predict_from_likelihood.
  apply wp_bind, wp_lift.
  destruct (np_stack_axis1 likelihood n_states) as [stacked|?];
    [|intros ? ?; discriminate].
  apply wp_bind, wp_alloc. intros l1 _.
  generalize (World (attrs w) (<[l1 := OArr4 (newaxis stacked)]> (heap w))).
  clear w. intros w.
  wp_read ic. wp_read cst. wp_read dst. wp_read likelihood4.
  apply wp_bind, wp_alloc. intros l2 _.
  generalize (World (attrs w)
                (<[l2 := OArr4 (_causal_classify ic cst dst likelihood4)]> (heap w))).
  clear w. intros w.
  apply wp_bind.
  apply (wp_mono _ (fun r _ => forall rs, r = Ok rs ->
           map fst rs
           = ["likelihood"; "causal_posterior"]%string
             ++ (if is_compute_acausal then ["acausal_posterior"%string] else []))).
  2:{ destruct is_compute_acausal.
      - wp_read causal. wp_read cst'. wp_read dst'.
        apply wp_bind, wp_alloc. intros l3 _. apply wp_ret. by intros rs [= <-].
      - apply wp_ret. by intros rs [= <-]. }
  clear w. intros [rs|?] w Hrs; [|intros ? ?; discriminate].
  specialize (Hrs rs eq_refl).
  wp_read centers. apply wp_bind.
  destruct centers as [v|d rows]; [apply wp_raise; intros ? ?; discriminate|].
  apply wp_ret.
  destruct (decide (1 < d)%nat) as [Hd|Hd].
  - wp_read centers_shape. wp_read edges.
    apply wp_bind, wp_lift.
    destruct (index edges 0) as [edges_0|?]; [|intros ? ?; discriminate].
    wp_read edges'.
    apply wp_bind, wp_lift.
    destruct (index edges' 1) as [edges_1|?]; [|intros ? ?; discriminate].
    wp_read types.
    apply wp_bind, wp_lift.
    destruct (np_diag types) as [state|?]; [|intros ? ?; discriminate].
    wp_read interior.
    apply wp_bind.
    eapply wp_mono;
      [|apply (wp_mapM _ (fun e kv =>
                  fst kv = fst e /\
                  da_dims (snd kv)
                  = ["time"; "state"; "x_position"; "y_position"]%string));
        intros [key l] w1; apply masked_variable_dims].
    intros [variables|?] w1 Hvars; [|intros ? ?; discriminate].
    apply wp_lift. intros ds Hds. unfold xr_Dataset in Hds.
    destruct (forallb _ _); [|discriminate]. injection Hds as <-.
    destruct (labelled_variables _ _ _ (Hvars variables eq_refl)) as [Hnames Hdims].
    split; [cbn [data_vars]; by rewrite Hnames|]. left. by split.
  - wp_read edges.
    apply wp_bind, wp_lift.
    destruct (index edges 0) as [edges_0|?]; [|intros ? ?; discriminate].
    wp_read types.
    apply wp_bind, wp_lift.
    destruct (np_diag types) as [state|?]; [|intros ? ?; discriminate].
    wp_read interior.
    apply wp_bind.
    eapply wp_mono;
      [|apply (wp_mapM _ (fun e kv =>
                  fst kv = fst e /\
                  da_dims (snd kv) = ["time"; "state"; "position"]%string));
        intros [key l] w1; apply (masked_variable_dims None)].
    intros [variables|?] w1 Hvars; [|intros ? ?; discriminate].
    apply wp_lift. intros ds Hds. unfold xr_Dataset in Hds.
    destruct (forallb _ _); [|discriminate]. injection Hds as <-.
    destruct (labelled_variables _ _ _ (Hvars variables eq_refl)) as [Hnames Hdims].
    split; [cbn [data_vars]; by rewrite Hnames|]. right. by split.
Qed.

Lemma predict_predicted :
  (forall spikes time is_compute_acausal w,
     wp (SortedSpikesClassifier_predict spikes time is_compute_acausal)
        (fun r _ => forall ds, r = Ok ds -> predicted is_compute_acausal ds) w) /\
  (forall multiunits time is_compute_acausal w,
     wp (ClusterlessClassifier_predict multiunits time is_compute_acausal)
        (fun r _ => forall ds, r = Ok ds -> predicted is_compute_acausal ds) w).
Proof.
  split.
  - intros spikes time is_compute_acausal w.
    unfold SortedSpikesClassifier_predict.
    wp_read cst. wp_read place_fields. wp_read interior.
    apply wp_bind, wp_lift.
    destruct (estimate_spiking_likelihood _ _ _) as [likelihood|?];
      [|intros ? ?; discriminate].
    apply predict_from_likelihood_predicted.
  - intros multiunits time is_compute_acausal w.
    unfold ClusterlessClassifier_predict.
    wp_read cst. wp_read centers. wp_read joint_pdf_models.
    wp_read ground_process_intensities. wp_read occupancy. wp_read mean_rates.
    wp_read interior.
    apply wp_bind, wp_lift.
    destruct (estimate_multiunit_likelihood _ _ _ _ _ _ _) as [likelihood|?];
      [|intros ? ?; discriminate].
    apply predict_from_likelihood_predicted.
Qed.

(** X11.  A dataset that [predict], of either classifier, returns holds the
    variables [likelihood] and [causal_posterior], followed by
    [acausal_posterior] exactly when [is_compute_acausal] is set; all of them
    are over (time, state, x_position, y_position) or all over
    (time, state, position), and the dataset has one coordinate for each of
    these axes. *)
Theorem predict_returns_labelled_dataset :
  (forall spikes time is_compute_acausal w ds w',
     SortedSpikesClassifier_predict spikes time is_compute_acausal w = (Ok ds, w') ->
     predicted is_compute_acausal ds) /\
  (forall multiunits time is_compute_acausal w ds w',
     ClusterlessClassifier_predict multiunits time is_compute_acausal w = (Ok ds, w') ->
     predicted is_compute_acausal ds).
Proof.
  split.
  - intros spikes time is_compute_acausal w ds w' Hrun.
    exact (wp_run _ _ _ _ _
             (proj1 predict_predicted spikes time is_compute_acausal w)
             Hrun ds eq_refl).
  - intros multiunits time is_compute_acausal w ds w' Hrun.
    exact (wp_run _ _ _ _ _
             (proj2 predict_predicted multiunits time is_compute_acausal w)
             Hrun ds eq_refl).
Qed.

Lemma map_fst_filter {B} (dims : list string) (l : list (string * B)) :
  map fst (filter (fun c => fst c ∉ dims) l)
  = filter (fun d => d ∉ dims) (map fst l).
Proof.
  induction l as [|c l IH]; [done|]. simpl map at 2.
  destruct (decide (fst c ∉ dims)) as [Hc|Hc].
  - rewrite !filter_cons_True by done. simpl. by rewrite IH.
  - by rewrite !filter_cons_False by done.
Qed.

Lemma reduce_marginal (dims all : list string) (ds : dataset) :
  Forall (fun kv => da_dims (snd kv) = all) (data_vars ds) ->
  filter (fun d => d ∉ dims) all = ["time"; "state"]%string ->
  filter (fun d => d ∉ dims) (map fst (coords ds)) = ["time"; "state"]%string ->
  marginal_of ds (reduce dims ds).
Proof.
  intros Hvars Hall Hcoords. unfold marginal_of, reduce. cbn [data_vars coords].
  split; [by rewrite map_map|]. split.
  - apply Forall_map. eapply Forall_impl; [exact Hvars|].
    intros kv Hkv. cbn [snd reduce_var da_dims]. by rewrite Hkv.
  - by rewrite map_fst_filter.
Qed.

Lemma predicted_marginal (is_compute_acausal : bool) (ds : dataset) :
  predicted is_compute_acausal ds ->
  exists out, predict_proba ds = Ok out /\ marginal_of ds out.
Proof.
  intros [_ [[Hvars Hcoords]|[Hvars Hcoords]]].
  - exists (reduce ["x_position"; "y_position"]%string ds). split.
    + unfold predict_proba, dataset_sum. rewrite decide_True; [done|].
      unfold dataset_dims. rewrite Hcoords.
      repeat (apply Forall_cons; split;
              [apply elem_of_app; right; compute_done|]).
      apply Forall_nil_2.
    + apply (reduce_marginal _ _ _ Hvars); [reflexivity|].
      rewrite Hcoords. reflexivity.
  - exists (reduce ["position"]%string ds). split.
    + assert (Hno : ~ has_xy ds).
      { intros [Hx _]. unfold dataset_dims in Hx. rewrite Hcoords in Hx.
        apply elem_of_app in Hx as [Hx|Hx]; [|revert Hx; compute_done].
        apply list_elem_of_In, in_flat_map in Hx as (kv & Hkv & Hx).
        apply list_elem_of_In in Hkv, Hx.
        rewrite (proj1 (Forall_forall _ _) Hvars kv Hkv) in Hx.
        revert Hx. compute_done. }
      apply sum_xy_fails_iff in Hno. unfold predict_proba. rewrite Hno.
      unfold dataset_sum. rewrite decide_True; [done|].
      unfold dataset_dims. rewrite Hcoords.
      repeat (apply Forall_cons; split;
              [apply elem_of_app; right; compute_done|]).
      apply Forall_nil_2.
    + apply (reduce_marginal _ _ _ Hvars); [reflexivity|].
      rewrite Hcoords. reflexivity.
Qed.

(** X12.  [predict_proba] never raises on a dataset that [predict], of
    either classifier, has returned: it returns the same variables, each
    over (time, state) only, with the coordinates of these two axes. *)
Theorem predict_proba_of_predict :
  (forall spikes time is_compute_acausal w ds w',
     SortedSpikesClassifier_predict spikes time is_compute_acausal w = (Ok ds, w') ->
     exists out, predict_proba ds = Ok out /\ marginal_of ds out) /\
  (forall multiunits time is_compute_acausal w ds w',
     ClusterlessClassifier_predict multiunits time is_compute_acausal w = (Ok ds, w') ->
     exists out, predict_proba ds = Ok out /\ marginal_of ds out).
Proof.
  split.
  - intros spikes time is_compute_acausal w ds w' Hrun.
    apply (predicted_marginal is_compute_acausal).
    exact (wp_run _ _ _ _ _
             (proj1 predict_predicted spikes time is_compute_acausal w)
             Hrun ds eq_refl).
  - intros multiunits time is_compute_acausal w ds w' Hrun.
    apply (predicted_marginal is_compute_acausal).
    exact (wp_run _ _ _ _ _
             (proj2 predict_predicted multiunits time is_compute_acausal w)
             Hrun ds eq_refl).
Qed.


(** ** The training mask of the observation models *)

Lemma length_bool_index {A} (keep : list bool) (x y : list A) :
  bool_index keep x = Ok y -> length y = count_interior keep.
Proof.
  unfold bool_index, count_interior.
  destruct (decide (length keep = length x)) as [Hlen|]; [|discriminate].
  intros [= <-]. rewrite length_fmap.
  revert x Hlen. induction keep as [|b keep IH]; intros [|a x] Hlen;
    try done.
  change (zip (a :: x) (b :: keep)) with ((a, b) :: zip x keep).
  destruct b.
  - rewrite !filter_cons_True by done. simpl. f_equal. apply IH.
    by injection Hlen.
  - rewrite !filter_cons_False by done. apply IH. by injection Hlen.
Qed.

Lemma shape0_bool_index (keep : list bool) (position selected : ndarray) :
  ndarray_bool_index keep position = Ok selected ->
  shape0 selected = count_interior keep /\
  ndarray_bool_index (replicate (shape0 selected) true) selected = Ok selected.
Proof.
  destruct position as [v|d rows]; simpl.
  - destruct (bool_index keep v) as [sel|] eqn:Hsel; [|discriminate].
    intros [= <-]. simpl. split; [by eapply length_bool_index|].
    by rewrite bool_index_all_true.
  - destruct (bool_index keep rows) as [sel|] eqn:Hsel; [|discriminate].
    intros [= <-]. simpl. split; [by eapply length_bool_index|].
    by rewrite bool_index_all_true.
Qed.

Lemma squeeze_flags_many (flags : list bool) :
  length flags <> 1%nat -> squeeze_flags flags = Mask1 flags.
Proof. by destruct flags as [|flag [|flag' flags]]. Qed.

(** X13.  For a training mask with a number of flags other than one that
    selects a number of samples other than one, [fit_place_fields] and
    [fit_multiunits] with the mask are the same as without a mask on
    [position[is_training]] and the observations at the same samples: the
    observation model only sees the training samples.  Such a mask that does
    not have one flag per position sample raises an IndexError and leaves
    the classifier as it was.  A one-flag mask is a 0-d boolean after
    [squeeze()]: whatever the number of samples, the observation model is
    given the position and the observations with a new first axis, which
    holds them once for [True] and is empty for [False]. *)
Theorem observation_models_see_training_samples :
  (forall position spikes is_training selected_position selected_spikes w,
     length is_training <> 1%nat -> shape0 selected_position <> 1%nat ->
     ndarray_bool_index is_training position = Ok selected_position ->
     bool_index is_training spikes = Ok selected_spikes ->
     fit_place_fields position spikes (Some is_training) w
     = fit_place_fields selected_position selected_spikes None w) /\
  (forall position multiunits is_training selected_position selected_multiunits w,
     length is_training <> 1%nat -> shape0 selected_position <> 1%nat ->
     ndarray_bool_index is_training position = Ok selected_position ->
     bool_index is_training multiunits = Ok selected_multiunits ->
     fit_multiunits position multiunits (Some is_training) w
     = fit_multiunits selected_position selected_multiunits None w) /\
  (forall position spikes multiunits is_training w,
     length is_training <> 1%nat ->
     length is_training <> shape0 position ->
     fit_place_fields position spikes (Some is_training) w = (Raise IndexError, w) /\
     fit_multiunits position multiunits (Some is_training) w
     = (Raise IndexError, w)) /\
  (forall position spikes (flag : bool) w,
     fit_place_fields position spikes (Some [flag]) w
     = (place_bin_centers_ ← attr_arr "place_bin_centers_";
        penalty ← attr_float "spike_model_penalty";
        knot_spacing ← attr_float "knot_spacing";
        place_fields ← lift (estimate_place_fields
                               (Lifted (if flag then [position] else []))
                               (Lifted (if flag then [spikes] else []))
                               place_bin_centers_ penalty knot_spacing);
        setattr_new "place_fields_" (OOpaque place_fields)) w) /\
  (forall position multiunits (flag : bool) w,
     fit_multiunits position multiunits (Some [flag]) w
     = (place_bin_centers_ ← attr_arr "place_bin_centers_";
        model ← attr_obj "model";
        model_kwargs ← attr_obj "model_kwargs";
        occupancy_model ← attr_obj "occupancy_model";
        occupancy_kwargs ← attr_opt_obj "occupancy_kwargs";
        is_track_interior_ ← attr_boolarr "is_track_interior_";
        '(joint_pdf_models, ground_process_intensities, occupancy, mean_rates) ←
          lift (fit_multiunit_likelihood
                  (Lifted (if flag then [position] else []))
                  (Lifted (if flag then [multiunits] else []))
                  place_bin_centers_ model model_kwargs occupancy_model
                  occupancy_kwargs (ravel_F is_track_interior_));
        setattr_new "joint_pdf_models_" (OOpaque joint_pdf_models);;
        setattr_new "ground_process_intensities_"
          (OOpaque ground_process_intensities);;
        setattr_new "occupancy_" (OOpaque occupancy);;
        setattr_new "mean_rates_" (OOpaque mean_rates)) w).
Proof.
  split; [|split; [|split; [|split]]].
  - intros position spikes is_training selected_position selected_spikes w
      Hmany Hselected Hp Hs.
    destruct (shape0_bool_index _ _ _ Hp) as [Hlen Hall].
    unfold fit_place_fields.
    rewrite !squeeze_flags_many by (by rewrite ?length_replicate).
    unfold mask_index. rewrite Hp, Hs, Hall.
    rewrite Hlen, <- (length_bool_index _ _ _ Hs).
    by rewrite bool_index_all_true.
  - intros position multiunits is_training selected_position selected_multiunits w
      Hmany Hselected Hp Hs.
    destruct (shape0_bool_index _ _ _ Hp) as [Hlen Hall].
    unfold fit_multiunits.
    rewrite !squeeze_flags_many by (by rewrite ?length_replicate).
    unfold mask_index. rewrite Hp, Hs, Hall.
    rewrite Hlen, <- (length_bool_index _ _ _ Hs).
    by rewrite bool_index_all_true.
  - intros position spikes multiunits is_training w Hmany Hlen.
    assert (Hraise : ndarray_bool_index is_training position = Raise IndexError).
    { destruct position as [v|d rows]; simpl in *; unfold bool_index;
        by rewrite decide_False. }
    unfold fit_place_fields, fit_multiunits.
    rewrite !squeeze_flags_many by done.
    unfold mask_index. by rewrite Hraise.
  - intros position spikes flag w. reflexivity.
  - intros position multiunits flag w. reflexivity.
Qed.

(** ** The shape of the transition tensor *)

Lemma wp_for_each_collect {A} (I : world -> Prop) (P : A -> Prop) (l : list A)
    (body : A -> M unit) :
  (forall a w, I w -> wp (body a) (fun r w' => r = Ok tt -> I w' /\ P a) w) ->
  forall w, I w ->
    wp (for_each l body) (fun r w' => r = Ok tt -> I w' /\ Forall P l) w.
Proof.
  intros Hbody. induction l as [|a l IH]; intros w Hw.
  - apply wp_ret. intros _. split; [done|constructor].
  - simpl. apply wp_bind. eapply wp_mono; [|by apply Hbody].
    intros [[]|e] w1 Hw1; [|discriminate].
    destruct (Hw1 eq_refl) as [HI HP].
    eapply wp_mono; [|by apply IH].
    intros r w2 Hw2 Hr. destruct (Hw2 Hr) as [HI2 HPl].
    split; [done|by constructor].
Qed.

Lemma enumerate_lookup {A} (l : list A) (i : nat) (a : A) :
  l !! i = Some a -> enumerate l !! i = Some (i, a).
Proof.
  intros Ha. unfold enumerate. rewrite lookup_zip_with.
  rewrite lookup_seq_lt by (by eapply lookup_lt_Some). simpl. by rewrite Ha.
Qed.

Lemma enumerate_indices {A} (n : nat) (l : list A) :
  Forall (fun entry => (fst entry < n)%nat) (enumerate l) -> (length l <= n)%nat.
Proof.
  intros Hl. destruct (l !! n) as [a|] eqn:Ha.
  - pose proof (proj1 (Forall_lookup _ _) Hl n _ (enumerate_lookup l n a Ha)) as Hn.
    simpl in Hn. lia.
  - by apply lookup_ge_None_1.
Qed.

Lemma enumerate_values {A} (P : A -> Prop) (l : list A) :
  Forall (fun entry => P (snd entry)) (enumerate l) -> Forall P l.
Proof.
  intros Hl. apply Forall_lookup. intros i a Ha.
  exact (proj1 (Forall_lookup _ _) Hl i _ (enumerate_lookup l i a Ha)).
Qed.

Lemma length_expand {A} (n : nat) (l l' : list A) :
  expand n l = Ok l' -> length l' = n.
Proof.
  unfold expand. destruct (decide (length l = n)) as [Hl|_].
  - by intros [= <-].
  - destruct l as [|a [|b l]]; try discriminate.
    intros [= <-]. apply length_replicate.
Qed.

Lemma broadcast_to_shape (n m : nat) (value v : mat) :
  broadcast_to n m value = Ok v -> has_shape n m v.
Proof.
  unfold broadcast_to.
  destruct (expand n value) as [rows|] eqn:Hrows; [|discriminate]. simpl.
  apply length_expand in Hrows. rewrite <- Hrows. clear Hrows.
  revert v. induction rows as [|row rows IH]; intros v.
  - intros [= <-]. by split.
  - simpl.
    destruct (expand m row) as [row'|] eqn:Hrow; [|discriminate]. simpl.
    destruct (mapM (expand m) rows) as [rows'|]; [|discriminate]. simpl.
    intros [= <-]. destruct (IH rows' eq_refl) as [Hlen Hall].
    split; [simpl; by rewrite Hlen|].
    constructor; [by eapply length_expand|done].
Qed.

Lemma assign_cell_shape (n n_bins : nat) tensor row_ind column_ind value tensor' :
  transition_tensor_shape n n_bins tensor ->
  assign_cell tensor row_ind column_ind value = Ok tensor' ->
  transition_tensor_shape n n_bins tensor' /\ (row_ind < n)%nat /\ (column_ind < n)%nat.
Proof.
  intros [Hlen Hrows]. unfold assign_cell.
  destruct (tensor !! row_ind) as [row|] eqn:Hrow; [|discriminate].
  destruct (row !! column_ind) as [cell|] eqn:Hcell; [|discriminate].
  destruct (proj1 (Forall_lookup _ _) Hrows _ _ Hrow) as [Hrow_len Hcells].
  pose proof (proj1 (Forall_lookup _ _) Hcells _ _ Hcell) as Hshape.
  destruct (broadcast_to _ _ value) as [v|] eqn:Hv; [|discriminate]. simpl.
  apply broadcast_to_shape in Hv.
  rewrite (has_shape_hd n_bins n_bins cell Hshape) in Hv by done.
  destruct Hshape as [Hcell_len _]. rewrite Hcell_len in Hv.
  intros [= <-]. split; [|split].
  - split; [by rewrite length_insert|].
    apply Forall_insert; [done|]. split; [by rewrite length_insert|].
    by apply Forall_insert.
  - rewrite <- Hlen. by eapply lookup_lt_Some.
  - rewrite <- Hrow_len. by eapply lookup_lt_Some.
Qed.

Lemma fit_continuous_state_transition_shape position is_training replay_speed
    types w :
  wp (fit_continuous_state_transition position is_training replay_speed types)
     (fun r w' => r = Ok tt ->
        exists lc centers l tensor,
          attrs w' !! "place_bin_centers_"%string = Some (PRef lc) /\
          heap w' !! lc = Some (OArr centers) /\
          tensor_at l tensor w' /\
          transition_tensor_shape (length types) (shape0 centers) tensor /\
          attrs w' !! "continuous_transition_types"%string = Some (PTypes types) /\
          Forall (fun row => (length row <= length types)%nat) types) w.
Proof.
  unfold fit_continuous_state_transition.
  apply wp_bind.
  set (w1 := match replay_speed with
             | Some speed => World (<["replay_speed"%string := PInt speed]> (attrs w))
                                   (heap w)
             | None => w
             end).
  assert (Hfirst : forall Q : result unit -> world -> Prop, Q (Ok tt) w1 ->
            wp (match replay_speed with
                | Some speed => setattr "replay_speed" (PInt speed)
                | None => mret tt
                end) Q w).
  { intros Q HQ. destruct replay_speed; [by apply wp_setattr|by apply wp_ret]. }
  apply Hfirst. clear Hfirst. generalize w1. clear w w1. intros w.
  apply wp_bind, wp_setattr.
  apply wp_bind, wp_attr_arr_inv; [|by intros; simplify_eq].
  simpl. intros lc centers Hlc Hcenters.
  rewrite lookup_insert_ne in Hlc by done.
  apply wp_bind, (wp_attr_types _ types); [by simpl; rewrite lookup_insert_eq|].
  apply wp_bind. unfold setattr_new. apply wp_bind, wp_alloc.
  intros l Hl. simpl in Hl. assert (lc <> l) by congruence.
  apply wp_setattr. simpl.
  apply wp_bind, (wp_attr_types _ types);
    [by simpl; rewrite lookup_insert_ne, lookup_insert_eq|].
  set (fixed := <["continuous_state_transition_"%string := PRef l]>
                  (<["continuous_transition_types"%string := PTypes types]> (attrs w))).
  set (n := length types). set (n_bins := shape0 centers).
  set (shaping := fun w1 : world =>
         attrs w1 = fixed /\ heap w1 !! lc = Some (OArr centers) /\
         exists tensor, heap w1 !! l = Some (OArr4 tensor) /\
                        transition_tensor_shape n n_bins tensor).
  assert (Hstart : shaping
            (World fixed
               (<[l := OArr4 (replicate n (replicate n (zeros n_bins n_bins)))]>
                  (heap w)))).
  { split; [done|]. simpl. split; [by rewrite lookup_insert_ne|].
    eexists. split; [by rewrite lookup_insert_eq|].
    split; [apply length_replicate|]. apply Forall_replicate.
    split; [apply length_replicate|]. apply Forall_replicate.
    split; [apply length_replicate|]. apply Forall_replicate, length_replicate. }
  revert Hstart.
  generalize (World fixed
                (<[l := OArr4 (replicate n (replicate n (zeros n_bins n_bins)))]>
                   (heap w))).
  intros w1 Hw1.
  eapply wp_mono;
    [|apply (wp_for_each_collect shaping
               (fun entry => (length (snd entry) <= n)%nat)); [|exact Hw1]].
  - intros r w' Hpost Hr.
    destruct (Hpost Hr) as [(Hattrs & Hcenters' & tensor & Htensor & Hshape) Hrows].
    exists lc, centers, l, tensor. unfold tensor_at. rewrite Hattrs. unfold fixed.
    split; [by rewrite !lookup_insert_ne|]. split; [done|].
    split; [split; [by rewrite lookup_insert_eq|done]|]. split; [done|].
    split; [by rewrite lookup_insert_ne, lookup_insert_eq|].
    by apply enumerate_values.
  - intros [row_ind row] w2 Hw2. simpl snd.
    eapply wp_mono;
      [|apply (wp_for_each_collect shaping (fun entry => (fst entry < n)%nat));
        [|exact Hw2]].
    + intros r w' Hpost Hr. destruct (Hpost Hr) as [Hshaping Hcols].
      split; [done|]. by apply enumerate_indices.
    + intros [column_ind transition_type] w3 Hw3.
      destruct Hw3 as (Hattrs & Hcenters' & tensor & Htensor & Hshape).
      apply wp_bind, wp_lift.
      destruct (getitem _ _) as [builder|?]; [|intros ?; discriminate].
      wp_read centers'. wp_read interior. wp_read edges. wp_read speed.
      wp_read position_range. wp_read movement_var. wp_read ind_to_node.
      wp_read distance.
      apply wp_bind, wp_lift.
      destruct (builder _) as [cell|?]; [|intros ?; discriminate].
      apply wp_bind, (wp_attr_ref _ l);
        [rewrite Hattrs; unfold fixed; by rewrite lookup_insert_eq|].
      apply wp_bind, (wp_load_arr4 l tensor); [done|].
      apply wp_bind, wp_lift.
      destruct (assign_cell tensor row_ind column_ind cell) as [tensor'|?]
        eqn:Hassign; [|intros ?; discriminate].
      apply wp_store. intros _.
      destruct (assign_cell_shape _ _ _ _ _ _ _ Hshape Hassign)
        as (Hshape' & _ & Hcol).
      split; [|done]. split; [done|]. simpl. split; [by rewrite lookup_insert_ne|].
      exists tensor'. split; [by rewrite lookup_insert_eq|done].
Qed.

(** X14.  When [fit_continuous_state_transition] returns, the transition
    tensor has the shape (n_states, n_states, n_bins, n_bins), [n_states]
    being the number of rows of the grid of transition types and [n_bins]
    the number of bin centres, the grid is stored as
    [continuous_transition_types], and no row of the grid is longer than the
    number of its rows: with a longer row the method raises. *)
Theorem fit_continuous_state_transition_tensor_shape :
  forall position is_training replay_speed types w w',
    fit_continuous_state_transition position is_training replay_speed types w
    = (Ok tt, w') ->
    exists lc centers l tensor,
      attrs w' !! "place_bin_centers_"%string = Some (PRef lc) /\
      heap w' !! lc = Some (OArr centers) /\
      tensor_at l tensor w' /\
      transition_tensor_shape (length types) (shape0 centers) tensor /\
      attrs w' !! "continuous_transition_types"%string = Some (PTypes types) /\
      Forall (fun row => (length row <= length types)%nat) types.
Proof.
  intros position is_training replay_speed types w w' Hrun.
  exact (wp_run _ _ _ _ _
           (fit_continuous_state_transition_shape position is_training
              replay_speed types w) Hrun eq_refl).
Qed.

(** ** An empty grid of transition types *)

Lemma fit_initial_conditions_nonempty position w :
  wp (fit_initial_conditions position)
     (fun r _ => r = Ok tt ->
        exists types,
          attrs w !! "continuous_transition_types"%string = Some (PTypes types) /\
          (1 <= length types)%nat) w.
Proof.
  unfold fit_initial_conditions.
  apply wp_bind, wp_attr_types_inv; [|by intros; simplify_eq].
  intros types Htypes.
  wp_read centers. wp_read interior.
  apply wp_bind, wp_lift.
  destruct (decide (length types = 0%nat)) as [Hzero|Hn].
  { rewrite Hzero. simpl. intros ?; discriminate. }
  rewrite np_stack_replicate by lia.
  unfold setattr_new. apply wp_bind, wp_alloc. intros l Hl.
  apply wp_setattr. intros _. exists types. split; [done|lia].
Qed.

Lemma fit_needs_a_regime (observation_model : M unit) position is_training
    track_graph center_well_id edge_order edge_spacing is_track_interior w :
  attrs w !! "continuous_transition_types"%string = Some (PTypes []) ->
  wp (self_infer ← attr_bool "infer_track_interior";
      fit_place_grid position track_graph center_well_id edge_order edge_spacing
        self_infer is_track_interior;;
      fit_initial_conditions position;;
      types ← attr_types "continuous_transition_types";
      fit_continuous_state_transition position is_training None types;;
      fit_discrete_state_transition None;;
      observation_model)
     (fun r _ => r <> Ok tt) w.
Proof.
  intros Htypes.
  apply wp_bind, wp_reads; [auto with reads|].
  destruct (fst _) as [self_infer|?]; [|done].
  apply wp_bind. eapply wp_mono; [|apply fit_place_grid_keeps_types].
  intros [[]|e] w1 Hkeep; [|done].
  apply wp_bind. eapply wp_mono; [|apply fit_initial_conditions_nonempty].
  intros [[]|e] w2 Hw2; [|done].
  destruct (Hw2 eq_refl) as (types & Htypes' & Hlen).
  rewrite Hkeep, Htypes in Htypes'. injection Htypes' as <-. simpl in Hlen. lia.
Qed.

(** X15.  With an empty grid of transition types there is nothing to stack:
    [fit_initial_conditions] raises a ValueError and leaves the classifier
    as it was, and [fit], of either classifier, never returns. *)
Theorem empty_transition_types_raise :
  (forall position w lc centers lm interior,
     attrs w !! "continuous_transition_types"%string = Some (PTypes []) ->
     attrs w !! "place_bin_centers_"%string = Some (PRef lc) ->
     heap w !! lc = Some (OArr centers) ->
     attrs w !! "is_track_interior_"%string = Some (PRef lm) ->
     heap w !! lm = Some (OBool interior) ->
     fit_initial_conditions position w = (Raise ValueError, w)) /\
  (forall position spikes is_training is_track_interior track_graph
          center_well_id edge_order edge_spacing w,
     attrs w !! "continuous_transition_types"%string = Some (PTypes []) ->
     fst (SortedSpikesClassifier_fit position spikes is_training is_track_interior
            track_graph center_well_id edge_order edge_spacing w) <> Ok tt) /\
  (forall position multiunits is_training is_track_interior track_graph
          center_well_id edge_order edge_spacing w,
     attrs w !! "continuous_transition_types"%string = Some (PTypes []) ->
     fst (ClusterlessClassifier_fit position multiunits is_training
            is_track_interior track_graph center_well_id edge_order edge_spacing w)
     <> Ok tt).
Proof.
  split; [|split].
  - intros position w lc centers lm interior Htypes Hlc Hcenters Hlm Hinterior.
    assert (Hwp : wp (fit_initial_conditions position)
              (fun r w' => r = Raise ValueError /\ w' = w) w).
    { unfold fit_initial_conditions.
      apply wp_bind, (wp_attr_types _ []); [done|].
      apply wp_bind, (wp_attr_arr _ lc centers); [done..|].
      apply wp_bind, (wp_attr_boolarr _ lm interior); [done..|].
      apply wp_bind, wp_lift. done. }
    unfold wp in Hwp. destruct (fit_initial_conditions position w) as [r w'].
    simpl in Hwp. by destruct Hwp as [-> ->].
  - intros position spikes is_training is_track_interior track_graph
      center_well_id edge_order edge_spacing w Htypes.
    unfold SortedSpikesClassifier_fit. by apply fit_needs_a_regime.
  - intros position multiunits is_training is_track_interior track_graph
      center_well_id edge_order edge_spacing w Htypes.
    unfold ClusterlessClassifier_fit. by apply fit_needs_a_regime.
Qed.

(** ** Methods of a classifier that was not fitted *)

Lemma wp_outcome {A} (m : M A) (w : world) (r : result A) (w' : world) :
  wp m (fun r1 w1 => r1 = r /\ w1 = w') w -> m w = (r, w').
Proof.
  unfold wp. destruct (m w) as [r1 w1]. simpl. by intros [-> ->].
Qed.


(** X16.  A classifier without [continuous_state_transition_] cannot
    predict: [predict], of either classifier, raises an AttributeError and
    leaves the classifier as it was.  [fit_continuous_state_transition] on a
    classifier without [place_bin_centers_] raises an AttributeError too, but
    only after it has stored the replay speed and the transition types it
    was given. *)
Theorem unfitted_classifier_raises :
  (forall spikes multiunits time is_compute_acausal w,
     attrs w !! "continuous_state_transition_"%string = None ->
     SortedSpikesClassifier_predict spikes time is_compute_acausal w
     = (Raise AttributeError, w) /\
     ClusterlessClassifier_predict multiunits time is_compute_acausal w
     = (Raise AttributeError, w)) /\
  (forall position is_training replay_speed types w,
     attrs w !! "place_bin_centers_"%string = None ->
     fit_continuous_state_transition position is_training (Some replay_speed)
       types w
     = (Raise AttributeError,
        World (<["continuous_transition_types"%string := PTypes types]>
                 (<["replay_speed"%string := PInt replay_speed]> (attrs w)))
              (heap w))).
Proof.
  split.
  - intros spikes multiunits time is_compute_acausal w Hmissing.
    split; apply wp_outcome.
    + unfold SortedSpikesClassifier_predict, attr_arr4, attr_ref.
      apply wp_bind, wp_bind, wp_bind, wp_getattr. by rewrite Hmissing.
    + unfold ClusterlessClassifier_predict, attr_arr4, attr_ref.
      apply wp_bind, wp_bind, wp_bind, wp_getattr. by rewrite Hmissing.
  - intros position is_training replay_speed types w Hmissing.
    apply wp_outcome. unfold fit_continuous_state_transition.
    apply wp_bind, wp_setattr. apply wp_bind, wp_setattr.
    unfold attr_arr, attr_ref.
    apply wp_bind, wp_bind, wp_bind, wp_getattr. cbn [attrs heap].
    rewrite !lookup_insert_ne by done. by rewrite Hmissing.
Qed.

(** ** What [fit] leaves alone *)

Lemma wp_for_each_always {A} (I : world -> Prop) (l : list A) (body : A -> M unit) :
  (forall a w, I w -> wp (body a) (fun _ w' => I w') w) ->
  forall w, I w -> wp (for_each l body) (fun _ w' => I w') w.
Proof.
  intros Hbody. induction l as [|a l IH]; intros w Hw.
  - by apply wp_ret.
  - simpl. apply wp_bind. eapply wp_mono; [|by apply Hbody].
    intros [[]|e] w1 Hw1; [by apply IH|done].
Qed.

Lemma fit_continuous_state_transition_assigning position is_training
    replay_speed types :
  assigning fitted_attributes
    (fit_continuous_state_transition position is_training replay_speed types).
Proof.
  intros w0 w Hw. unfold fit_continuous_state_transition.
  apply wp_bind.
  assert (Hfirst : wp (match replay_speed with
                       | Some speed => setattr "replay_speed" (PInt speed)
                       | None => mret tt
                       end)
                      (fun r w1 => r = Ok tt /\ assigns fitted_attributes w0 w1) w).
  { destruct replay_speed; [apply wp_setattr|apply wp_ret]; split; try done.
    apply assigns_setattr; [compute_done|done]. }
  eapply wp_mono; [|exact Hfirst].
  clear Hfirst Hw w. intros [[]|e] w [Hr Hw]; [|discriminate].
  apply wp_bind, wp_setattr.
  apply (assigns_setattr _ _ _ "continuous_transition_types" (PTypes types))
    in Hw; [|compute_done].
  revert Hw.
  generalize (World (<["continuous_transition_types"%string := PTypes types]>
                       (attrs w)) (heap w)).
  clear w. intros w Hw.
  apply wp_bind, wp_reads; [auto with reads|].
  destruct (fst _) as [centers|?]; [|done].
  apply wp_bind, wp_reads; [auto with reads|].
  destruct (fst _) as [types'|?]; [|done].
  apply wp_bind. unfold setattr_new. apply wp_bind, wp_alloc. intros l Hl.
  apply wp_setattr. cbn [attrs heap].
  assert (Hfresh : heap w0 !! l = None).
  { destruct Hw as [_ Hheap]. by eapply lookup_weaken_None. }
  set (filling_own := fun w1 : world =>
         assigns fitted_attributes w0 w1 /\
         attrs w1 !! "continuous_state_transition_"%string = Some (PRef l)).
  assert (Hstart : filling_own
            (World (<["continuous_state_transition_"%string := PRef l]> (attrs w))
               (<[l := OArr4 (replicate (length types')
                                (replicate (length types')
                                   (zeros (shape0 centers) (shape0 centers))))]>
                  (heap w)))).
  { split; [|by simpl; rewrite lookup_insert_eq].
    apply (assigns_setattr _ _ (World (attrs w) _)); [compute_done|].
    by apply assigns_alloc. }
  revert Hstart. generalize (World
    (<["continuous_state_transition_"%string := PRef l]> (attrs w))
    (<[l := OArr4 (replicate (length types')
                     (replicate (length types')
                        (zeros (shape0 centers) (shape0 centers))))]> (heap w))).
  clear Hw Hl w. intros w Hw.
  apply wp_bind, wp_reads; [auto with reads|].
  destruct (fst _) as [types''|?]; [|by destruct Hw].
  eapply wp_mono; [|apply (wp_for_each_always filling_own); [|exact Hw]].
  - by intros r w' [Hassigns _].
  - intros [row_ind row] w1 Hw1.
    apply (wp_for_each_always filling_own); [|exact Hw1].
    intros [column_ind transition_type] w2 Hw2.
    apply wp_bind, wp_lift.
    destruct (getitem _ _) as [builder|?]; [|exact Hw2].
    do 8 (apply wp_bind, wp_reads; [auto with reads|];
          destruct (fst _); [|exact Hw2]).
    apply wp_bind, wp_lift.
    destruct (builder _) as [cell|?]; [|exact Hw2].
    apply wp_bind, (wp_attr_ref _ l); [by destruct Hw2|].
    apply wp_bind, wp_reads; [auto with reads|].
    destruct (fst _) as [tensor|?]; [|exact Hw2].
    apply wp_bind, wp_lift.
    destruct (assign_cell _ _ _ _) as [tensor'|?]; [|exact Hw2].
    apply wp_store. destruct Hw2 as [Hassigns Hattr].
    split; [by apply assigns_store|done].
Qed.

Lemma fit_assigning (observation_model : M unit) position is_training
    track_graph center_well_id edge_order edge_spacing is_track_interior :
  assigning fitted_attributes observation_model ->
  assigning fitted_attributes
    (self_infer ← attr_bool "infer_track_interior";
     fit_place_grid position track_graph center_well_id edge_order edge_spacing
       self_infer is_track_interior;;
     fit_initial_conditions position;;
     types ← attr_types "continuous_transition_types";
     fit_continuous_state_transition position is_training None types;;
     fit_discrete_state_transition None;;
     observation_model).
Proof.
  intros Hmodel.
  apply assigning_bind; [apply assigning_reads; auto with reads|]. intros self_infer.
  apply assigning_bind; [unfold fit_place_grid; assigning_tac|]. intros _.
  apply assigning_bind; [unfold fit_initial_conditions; assigning_tac|]. intros _.
  apply assigning_bind; [apply assigning_reads; auto with reads|]. intros types.
  apply assigning_bind; [apply fit_continuous_state_transition_assigning|].
  intros _.
  apply assigning_bind; [unfold fit_discrete_state_transition; assigning_tac|].
  intros _. exact Hmodel.
Qed.

(** X17.  [fit], of either classifier, with any arguments and whether it
    returns or raises, assigns no attribute other than the grid, the mask,
    the initial conditions, the transition matrices, the observation model,
    [infer_track_interior], [replay_speed], [continuous_transition_types]
    and [discrete_transition_diag], and leaves every object that existed
    before the call as it was: a second [fit] does not write into the arrays
    of the first. *)
Theorem fit_assigns_fitted_attributes_only :
  (forall position spikes is_training is_track_interior track_graph
          center_well_id edge_order edge_spacing w,
     assigns fitted_attributes w
       (snd (SortedSpikesClassifier_fit position spikes is_training
               is_track_interior track_graph center_well_id edge_order
               edge_spacing w))) /\
  (forall position multiunits is_training is_track_interior track_graph
          center_well_id edge_order edge_spacing w,
     assigns fitted_attributes w
       (snd (ClusterlessClassifier_fit position multiunits is_training
               is_track_interior track_graph center_well_id edge_order
               edge_spacing w))).
Proof.
  split.
  - intros position spikes is_training is_track_interior track_graph
      center_well_id edge_order edge_spacing w.
    unfold SortedSpikesClassifier_fit.
    apply (fit_assigning (fit_place_fields _ spikes is_training));
      [unfold fit_place_fields; assigning_tac|apply assigns_refl].
  - intros position multiunits is_training is_track_interior track_graph
      center_well_id edge_order edge_spacing w.
    unfold ClusterlessClassifier_fit.
    apply (fit_assigning (fit_multiunits _ multiunits is_training));
      [unfold fit_multiunits; assigning_tac|apply assigns_refl].
Qed.


(** ** The diagonal value is not validated *)

(** X18.  [strong_diagonal_discrete] does not look at the value of [diag]:
    with at least two states it returns, whatever [diag] is, the
    states-by-states matrix with [diag] on the diagonal and
    [(1 - diag) / (n_states - 1)] everywhere else: a negative [diag] is
    kept as it is, and for [diag > 1] every off-diagonal entry is
    negative. *)
Theorem strong_diagonal_discrete_any_diag (n : nat) (diag : Qc) :
  (2 <= n)%nat ->
  exists m,
    StateTransition.strong_diagonal_discrete n diag = Ok m /\
    has_shape n n m /\
    (forall i row, m !! i = Some row -> row !! i = Some diag) /\
    (forall i j row x, m !! i = Some row -> row !! j = Some x -> i <> j ->
       x = (1 - diag) / of_nat (n - 1) /\ (1 < diag -> x < 0)).
Proof.
  intros Hn. unfold StateTransition.strong_diagonal_discrete.
  assert (Hoff : qz (Z.of_nat n - 1) = of_nat (n - 1)).
  { unfold of_nat. f_equal. lia. }
  rewrite decide_False by lia.
  eexists. split; [reflexivity|]. split; [|split].
  - split; [by rewrite length_map, length_seq|].
    apply Forall_map, Forall_forall. intros i _. simpl.
    by rewrite length_map, length_seq.
  - intros i row Hrow.
    apply list_lookup_fmap_Some in Hrow as (i' & -> & Hi').
    apply lookup_seq in Hi' as [Hi' Hlt]. simpl in Hi'. subst i'.
    assert (Hdiag : map (fun j : nat => if decide (i = j) then 1 * diag else
                                          (1 - diag) / qz (Z.of_nat n - 1))
                      (seq 0 n) !! i = Some diag).
    { rewrite list_lookup_fmap, lookup_seq_lt by done. simpl.
      rewrite decide_True by done. f_equal. ring. }
    exact Hdiag.
  - intros i j row x Hrow Hx Hij.
    apply list_lookup_fmap_Some in Hrow as (i' & -> & Hi').
    apply lookup_seq in Hi' as [Hi' _]. simpl in Hi'. subst i'.
    apply list_lookup_fmap_Some in Hx as (j' & -> & Hj').
    apply lookup_seq in Hj' as [Hj' _]. simpl in Hj'. subst j'.
    rewrite decide_False by done. rewrite Hoff.
    split; [done|]. intros Hdiag.
    unfold Qcdiv.
    replace 0 with (0 * / of_nat (n - 1)) by ring.
    apply Qcmult_lt_compat_r; [apply Qcinv_pos, of_nat_pos; lia|].
    apply (proj1 (Qclt_minus_iff _ _)) in Hdiag.
    apply Qclt_minus_iff. by replace (0 + - (1 - diag)) with (diag + - 1) by ring.
Qed.

(** ** The grid and the mask without a track graph *)

Lemma wp_getattr_inv name (Q : result pyval -> world -> Prop) w :
  (forall v, attrs w !! name = Some v -> Q (Ok v) w) ->
  Q (Raise AttributeError) w ->
  wp (getattr name) Q w.
Proof.
  intros Hok Hraise. apply wp_getattr.
  destruct (attrs w !! name) as [v|]; [by apply Hok|done].
Qed.

Lemma wp_attr_float_inv name (Q : result Qc -> world -> Prop) w :
  (forall q, attrs w !! name = Some (PFloat q) -> Q (Ok q) w) ->
  (forall e, Q (Raise e) w) ->
  wp (attr_float name) Q w.
Proof.
  intros Hok Hraise. unfold attr_float.
  apply wp_bind, wp_getattr_inv; [|apply Hraise].
  intros v Hv. destruct v; try (apply wp_raise, Hraise).
  apply wp_ret. by apply Hok.
Qed.

Lemma wp_attr_range_inv name
    (Q : result (option (list (option (Qc * Qc)))) -> world -> Prop) w :
  (forall range,
     attrs w !! name = Some (match range with
                             | Some r => PRange r
                             | None => PNone
                             end) ->
     Q (Ok range) w) ->
  (forall e, Q (Raise e) w) ->
  wp (attr_range name) Q w.
Proof.
  intros Hok Hraise. unfold attr_range.
  apply wp_bind, wp_getattr_inv; [|apply Hraise].
  intros v Hv. destruct v; try (apply wp_raise, Hraise).
  - apply wp_ret. by apply (Hok None).
  - apply wp_ret. by apply (Hok (Some r)).
Qed.

Lemma wp_attr_bool_inv name (Q : result bool -> world -> Prop) w :
  (forall b, attrs w !! name = Some (PBool b) -> Q (Ok b) w) ->
  (forall e, Q (Raise e) w) ->
  wp (attr_bool name) Q w.
Proof.
  intros Hok Hraise. unfold attr_bool.
  apply wp_bind, wp_getattr_inv; [|apply Hraise].
  intros v Hv. destruct v; try (apply wp_raise, Hraise).
  apply wp_ret. by apply Hok.
Qed.

Lemma wp_attr_bool name b (Q : result bool -> world -> Prop) w :
  attrs w !! name = Some (PBool b) -> Q (Ok b) w -> wp (attr_bool name) Q w.
Proof.
  intros Hname HQ. unfold attr_bool. apply wp_bind, wp_getattr.
  rewrite Hname. by apply wp_ret.
Qed.

Lemma wp_attr_shape name shape (Q : result (list nat) -> world -> Prop) w :
  attrs w !! name = Some (PShape shape) -> Q (Ok shape) w ->
  wp (attr_shape name) Q w.
Proof.
  intros Hname HQ. unfold attr_shape. apply wp_bind, wp_getattr.
  rewrite Hname. by apply wp_ret.
Qed.

Lemma wp_attr_arrays name l a (Q : result (list (list Qc)) -> world -> Prop) w :
  attrs w !! name = Some (PRef l) -> heap w !! l = Some (OArrays a) ->
  Q (Ok a) w -> wp (attr_arrays name) Q w.
Proof.
  intros Hname Hl HQ. unfold attr_arrays.
  apply wp_bind, (wp_attr_ref name l); [done|].
  unfold load_arrays. apply wp_bind, wp_load. rewrite Hl. by apply wp_ret.
Qed.

Lemma length_flat_map_const {A B} (f : A -> list B) (k : nat) (l : list A) :
  (forall a, a ∈ l -> length (f a) = k) ->
  length (flat_map f l) = (length l * k)%nat.
Proof.
  induction l as [|a l IH]; intros Hf; [done|].
  simpl. rewrite length_app, IH, Hf; [done|by left|].
  intros b Hb. apply Hf. by right.
Qed.

Lemma np_ones_bool_all_true (shape : list nat) (interior : bool_ndarray) :
  np_ones_bool shape = Ok interior ->
  Forall (fun b => b = true) (ravel_F interior) /\
  length (ravel_F interior) = product shape.
Proof.
  destruct shape as [|n [|m [|k shape]]]; try discriminate; intros [= <-].
  - simpl. split; [by apply Forall_replicate|].
    rewrite length_replicate. unfold product. simpl. lia.
  - unfold ravel_F.
    assert (Hhd : length (hd [] (replicate n (replicate m true)))
                  = if decide (n = 0%nat) then 0%nat else m).
    { destruct n as [|n]; simpl; [done|apply length_replicate]. }
    rewrite Hhd. split.
    + apply Forall_flat_map, Forall_forall. intros j Hj.
      apply elem_of_seq in Hj.
      apply Forall_map, Forall_replicate. simpl.
      rewrite nth_lookup, lookup_replicate_2; [done|].
      destruct (decide (n = 0%nat)); lia.
    + rewrite (length_flat_map_const _ n).
      * rewrite length_seq. unfold product. simpl.
        destruct (decide (n = 0%nat)); subst; lia.
      * intros j _. by rewrite length_map, length_replicate.
Qed.

Lemma fit_place_grid_without_graph_wp position center_well_id edge_order
    edge_spacing infer_track_interior w :
  wp (fit_place_grid position None center_well_id edge_order edge_spacing
        infer_track_interior None)
     (fun r w' => r = Ok tt ->
        exists size range old edges place_bin_edges centers shape l interior,
          attrs w !! "place_bin_size"%string = Some (PFloat size) /\
          attrs w !! "infer_track_interior"%string = Some (PBool old) /\
          get_grid position size range old
          = Ok (edges, place_bin_edges, centers, shape) /\
          attrs w' !! "infer_track_interior"%string
          = Some (PBool infer_track_interior) /\
          attrs w' !! "centers_shape_"%string = Some (PShape shape) /\
          attrs w' !! "is_track_interior_"%string = Some (PRef l) /\
          heap w' !! l = Some (OBool interior) /\
          if infer_track_interior
          then get_track_interior position edges = Ok interior
          else Forall (fun b => b = true) (ravel_F interior) /\
               length (ravel_F interior) = product shape) w.
Proof.
  unfold fit_place_grid.
  apply wp_bind, wp_attr_float_inv; [|by intros; simplify_eq].
  intros size Hsize.
  apply wp_bind, wp_attr_range_inv; [|by intros; simplify_eq].
  intros range Hrange.
  apply wp_bind, wp_attr_bool_inv; [|by intros; simplify_eq].
  intros old Hold.
  apply wp_bind, wp_lift.
  destruct (get_grid position size range old)
    as [[[[edges place_bin_edges] centers] shape]|?] eqn:Hgrid;
    [|intros ?; discriminate].
  unfold setattr_new.
  apply wp_bind, wp_bind, wp_alloc. intros l1 Hl1. apply wp_setattr.
  apply wp_bind, wp_bind, wp_alloc. intros l2 Hl2. apply wp_setattr.
  apply wp_bind, wp_bind, wp_alloc. intros l3 Hl3. apply wp_setattr.
  do 4 apply wp_bind, wp_setattr.
  cbn [attrs heap] in *.
  apply lookup_insert_None in Hl3 as [Hl3 Hl23].
  apply lookup_insert_None in Hl3 as [Hl3 Hl13].
  apply lookup_insert_None in Hl2 as [Hl2 Hl12].
  apply wp_bind, (wp_attr_bool _ infer_track_interior);
    [by cbn [attrs]; rewrite lookup_insert_eq|].
  destruct infer_track_interior.
  - apply wp_bind, (wp_attr_arrays _ l1 edges);
      [cbn [attrs]; by simplify_map_eq|cbn [heap]; by simplify_map_eq|].
    apply wp_bind, wp_lift.
    destruct (get_track_interior position edges) as [interior|?] eqn:Hinterior;
      [|intros ?; discriminate].
    apply wp_bind, wp_alloc. intros l4 Hl4. apply wp_setattr. intros _.
    exists size, range, old, edges, place_bin_edges, centers, shape, l4, interior.
    cbn [attrs heap].
    split; [done|]. split; [done|]. split; [done|].
    split; [by simplify_map_eq|]. split; [by simplify_map_eq|].
    split; [by simplify_map_eq|]. split; [by simplify_map_eq|done].
  - apply wp_bind, (wp_attr_shape _ shape); [cbn [attrs]; by simplify_map_eq|].
    apply wp_bind, wp_lift.
    destruct (np_ones_bool shape) as [interior|?] eqn:Hinterior;
      [|intros ?; discriminate].
    apply wp_bind, wp_alloc. intros l4 Hl4. apply wp_setattr. intros _.
    exists size, range, old, edges, place_bin_edges, centers, shape, l4, interior.
    cbn [attrs heap].
    split; [done|]. split; [done|]. split; [done|].
    split; [by simplify_map_eq|]. split; [by simplify_map_eq|].
    split; [by simplify_map_eq|]. split; [by simplify_map_eq|].
    by apply np_ones_bool_all_true.
Qed.

(** X19.  Whenever [fit_place_grid] returns for a call without a track graph
    and without a supplied mask, the grid has been built by [get_grid] with
    the value that [infer_track_interior] had on the classifier before the
    call, the argument [infer_track_interior] is stored afterwards, and the
    mask follows the argument: it is what [get_track_interior] returns for
    the new edges when the argument is true, and it flags every one of the
    [product centers_shape_] bins as interior when it is false. *)
Theorem fit_place_grid_without_graph :
  forall position center_well_id edge_order edge_spacing infer_track_interior w w',
    fit_place_grid position None center_well_id edge_order edge_spacing
      infer_track_interior None w = (Ok tt, w') ->
    exists size range old edges place_bin_edges centers shape l interior,
      attrs w !! "place_bin_size"%string = Some (PFloat size) /\
      attrs w !! "infer_track_interior"%string = Some (PBool old) /\
      get_grid position size range old = Ok (edges, place_bin_edges, centers, shape) /\
      attrs w' !! "infer_track_interior"%string = Some (PBool infer_track_interior) /\
      attrs w' !! "centers_shape_"%string = Some (PShape shape) /\
      attrs w' !! "is_track_interior_"%string = Some (PRef l) /\
      heap w' !! l = Some (OBool interior) /\
      if infer_track_interior
      then get_track_interior position edges = Ok interior
      else Forall (fun b => b = true) (ravel_F interior) /\
           length (ravel_F interior) = product shape.
Proof.
  intros position center_well_id edge_order edge_spacing infer_track_interior
    w w' Hrun.
  exact (wp_run _ _ _ _ _
           (fit_place_grid_without_graph_wp position center_well_id edge_order
              edge_spacing infer_track_interior w) Hrun eq_refl).
Qed.


(** ** Row sums of the fitted continuous transition tensor *)

(** *** The matrix of [empirical_movement] and its powers *)

Lemma histogramdd_without_range {R} n_dims sample bins (range : option (list R)) res :
  histogramdd n_dims sample bins range = Ok res ->
  histogramdd (R:=unit) n_dims sample bins None = Ok res.
Proof.
  unfold histogramdd.
  destruct (negb (bool_decide (length bins = n_dims))); [discriminate|].
  destruct (match range with Some r => _ | None => _ end); [discriminate|].
  done.
Qed.

(** The matrix at any replay speed is the power of the matrix at replay
    speed 1, which does not depend on the position extent. *)
Lemma empirical_movement_one_step {R} position edges is_training replay_speed
    (position_extent : option (list R)) m :
  StateTransition.empirical_movement position edges is_training replay_speed
    position_extent = Ok m ->
  exists t,
    StateTransition.empirical_movement position edges is_training 1
      position_extent = Ok t /\
    StateTransition.empirical_movement (R:=unit) position edges is_training 1 None
    = Ok t /\
    m = matrix_power t replay_speed /\
    has_shape (n_grid_bins edges) (n_grid_bins edges) t /\
    rows_sum_to_1_or_0 t.
Proof.
  unfold StateTransition.empirical_movement.
  destruct (Core.atleast_2d position) as [?|d rows]; [discriminate|].
  destruct (bool_index _ rows) as [selected|?]; [|discriminate]. simpl.
  destruct (histogramdd _ _ _ position_extent) as [[shape counts]|?] eqn:Hhist;
    [|discriminate].
  rewrite (histogramdd_without_range _ _ _ _ _ Hhist). simpl.
  apply histogramdd_ok in Hhist as (Hbins & -> & _).
  rewrite length_app in Hbins.
  rewrite map_app, take_app_length' by (rewrite length_map; lia).
  fold (n_grid_bins edges).
  destruct (reshape_F _ _ _) as [x|?] eqn:Hx; [|discriminate]. simpl.
  intros [= <-]. eexists. split; [reflexivity|]. split; [reflexivity|].
  split; [reflexivity|].
  apply (reshape_F_ok _ _ _ _ (fun _ => True)) in Hx as [Hshape _];
    [|done|by apply Forall_true].
  split; [by apply normalize_shape|apply normalize_rows_sum_to_1_or_0].
Qed.

Lemma empirical_movement_kept {R} position edges is_training replay_speed
    (position_extent : option (list R)) m :
  StateTransition.empirical_movement position edges is_training replay_speed
    position_extent = Ok m ->
  ((replay_speed <= 1)%nat \/
   forall t,
     StateTransition.empirical_movement (R:=unit) position edges is_training 1
       None = Ok t ->
     no_mass_into_zero_rows t) ->
  good_cell (n_grid_bins edges) m.
Proof.
  intros Hm Hkept.
  destruct (empirical_movement_one_step _ _ _ _ _ _ Hm)
    as (t & _ & Ht & -> & Hshape & Hrows).
  split; [by apply matrix_power_shape|].
  destruct replay_speed as [|[|k]].
  - simpl. eapply Forall_impl; [apply identity_rows|]. intros row Hrow. by left.
  - done.
  - destruct Hkept as [?|Hcol]; [lia|].
    apply (matrix_power_rows (n_grid_bins edges)); [done|done|by apply Hcol].
Qed.

(** *** The slices *)

Lemma leak_free_builder transition_type :
  (forall mean cov x, 0 < multivariate_normal_pdf mean cov x) ->
  leak_free transition_type ->
  exists builder,
    getitem CONTINUOUS_TRANSITIONS transition_type = Ok builder /\
    forall args m, builder args = Ok m ->
      good_cell (shape0 (ta_place_bin_centers args)) m.
Proof.
  intros Hpdf Hty. unfold leak_free in Hty.
  repeat (apply elem_of_cons in Hty as [-> | Hty]);
    [| | | |by apply elem_of_nil in Hty];
    (eexists; split; [reflexivity|]); intros args m Hm; simpl in Hm;
    rewrite <- length_points.
  - by eapply random_walk_rows.
  - by eapply random_walk_with_absorbing_boundaries_rows.
  - by eapply uniform_state_transition_rows.
  - by eapply identity_rows_sum.
Qed.

Lemma fitted_edges_store w l tensor tensor' :
  heap w !! l = Some (OArr4 tensor) ->
  fitted_edges (World (attrs w) (<[l := OArr4 tensor']> (heap w))) = fitted_edges w.
Proof.
  intros Hl. unfold fitted_edges. simpl.
  destruct (attrs w !! "edges_"%string) as [[| | | | | | | | | |le]|]; try done.
  destruct (decide (le = l)) as [->|Hne].
  - by rewrite lookup_insert_eq, Hl.
  - by rewrite lookup_insert_ne by congruence.
Qed.

Lemma wp_attr_arrays_fitted (Q : result (list (list Qc)) -> world -> Prop) w :
  (forall edges, fitted_edges w = Some edges -> Q (Ok edges) w) ->
  (forall e, Q (Raise e) w) ->
  wp (attr_arrays "edges_") Q w.
Proof.
  intros Hok Hraise. unfold attr_arrays, attr_ref, load_arrays.
  apply wp_bind, wp_bind, wp_getattr.
  destruct (attrs w !! "edges_"%string) as [v|] eqn:Hv; [|apply Hraise].
  destruct v as [| | | | | | | | | |l]; try (apply wp_raise, Hraise).
  apply wp_ret. simpl. apply wp_bind, wp_load.
  destruct (heap w !! l) as [o|] eqn:Ho; [|apply Hraise].
  destruct o; try (apply wp_raise, Hraise).
  apply wp_ret. apply Hok. unfold fitted_edges. by rewrite Hv, Ho.
Qed.

Lemma wp_attr_int_inv name (Q : result nat -> world -> Prop) w :
  (forall n, attrs w !! name = Some (PInt n) -> Q (Ok n) w) ->
  (forall e, Q (Raise e) w) ->
  wp (attr_int name) Q w.
Proof.
  intros Hok Hraise. unfold attr_int.
  apply wp_bind, wp_getattr_inv; [|apply Hraise].
  intros v Hv. destruct v; try (apply wp_raise, Hraise).
  apply wp_ret. by apply Hok.
Qed.

Lemma fill_cell_wp (G : Prop) fixed lc centers edges0 l position mask
    row_ind column_ind transition_type builder w :
  fixed !! "place_bin_centers_"%string = Some (PRef lc) ->
  fixed !! "continuous_state_transition_"%string = Some (PRef l) ->
  lc <> l ->
  getitem CONTINUOUS_TRANSITIONS transition_type = Ok builder ->
  (G -> forall interior edges speed position_range movement_var ind_to_node
               distance m,
     edges0 = Some edges ->
     fixed !! "replay_speed"%string = Some (PInt speed) ->
     builder (TransitionArgs centers interior position edges mask speed
                position_range movement_var ind_to_node distance) = Ok m ->
     good_cell (shape0 centers) m) ->
  filling G fixed lc centers edges0 l w ->
  wp (builder ← lift (getitem CONTINUOUS_TRANSITIONS transition_type);
      place_bin_centers_ ← attr_arr "place_bin_centers_";
      is_track_interior_ ← attr_boolarr "is_track_interior_";
      edges_ ← attr_arrays "edges_";
      speed ← attr_int "replay_speed";
      position_range ← attr_range "position_range";
      movement_var ← attr_cov "movement_var";
      ind_to_node ← getattr "place_bin_center_ind_to_node_";
      distance ← getattr "distance_between_nodes_";
      value ← lift (builder (TransitionArgs place_bin_centers_ is_track_interior_
                               position edges_ mask speed position_range
                               movement_var ind_to_node distance));
      l ← attr_ref "continuous_state_transition_";
      tensor ← load_arr4 l;
      tensor ← lift (assign_cell tensor row_ind column_ind value);
      store l (OArr4 tensor))
     (fun r w' => r = Ok tt -> filling G fixed lc centers edges0 l w') w.
Proof.
  intros Hlc Hl Hne Hget Hbuilder (Hattrs & Hcenters & Hedges & tensor & Htensor & Hgood).
  apply wp_bind, wp_lift. rewrite Hget.
  apply wp_bind, (wp_attr_arr _ lc centers); [by rewrite Hattrs|done|].
  wp_read interior.
  apply wp_bind, wp_attr_arrays_fitted; [|by intros; simplify_eq].
  intros edges Hedges'.
  apply wp_bind, wp_attr_int_inv; [|by intros; simplify_eq].
  intros speed Hspeed. rewrite Hattrs in Hspeed.
  wp_read position_range. wp_read movement_var. wp_read ind_to_node.
  wp_read distance.
  apply wp_bind, wp_lift.
  destruct (builder _) as [cell|e] eqn:Hcell; [|intros ?; discriminate].
  apply wp_bind, (wp_attr_ref _ l); [by rewrite Hattrs|].
  apply wp_bind, (wp_load_arr4 l tensor); [done|].
  apply wp_bind, wp_lift.
  destruct (assign_cell tensor row_ind column_ind cell) as [tensor'|e] eqn:Hassign;
    [|intros ?; discriminate].
  apply wp_store. intros _. split; [done|]. cbn [attrs heap]. split.
  { by rewrite lookup_insert_ne. }
  split.
  { rewrite <- Hedges. by apply (fitted_edges_store w l tensor). }
  exists tensor'. split; [by rewrite lookup_insert_eq|].
  intros HG. eapply assign_cell_good; [by apply Hgood| |exact Hassign].
  eapply (Hbuilder HG); [|exact Hspeed|exact Hcell]. congruence.
Qed.

Lemma empirical_leak_free_same position flags w1 w2 :
  fitted_edges w2 = fitted_edges w1 ->
  fitted_centers w2 = fitted_centers w1 ->
  fitted_speed w2 = fitted_speed w1 ->
  empirical_leak_free position flags w1 -> empirical_leak_free position flags w2.
Proof.
  intros Hedges Hcenters Hspeed Hleak edges centers speed He Hc Hs.
  apply Hleak; congruence.
Qed.

Lemma fit_continuous_state_transition_wp (E : Prop) position is_training
    replay_speed types w :
  (forall mean cov x, 0 < multivariate_normal_pdf mean cov x) ->
  Forall (Forall (fun transition_type =>
                    leak_free transition_type \/
                    (transition_type = "empirical_movement"%string /\ E))) types ->
  wp (fit_continuous_state_transition position is_training replay_speed types)
     (fun r w' => r = Ok tt ->
        exists l tensor n,
          tensor_at l tensor w' /\
          ((E -> empirical_leak_free position
                   (training_flags position is_training) w') ->
           good_tensor n tensor)) w.
Proof.
  intros Hpdf Htypes. unfold fit_continuous_state_transition.
  fold (training_flags position is_training).
  set (flags := training_flags position is_training).
  apply wp_bind.
  set (w1 := match replay_speed with
             | Some speed => World (<["replay_speed"%string := PInt speed]> (attrs w))
                                   (heap w)
             | None => w
             end).
  assert (Hfirst : forall Q : result unit -> world -> Prop, Q (Ok tt) w1 ->
            wp (match replay_speed with
                | Some speed => setattr "replay_speed" (PInt speed)
                | None => mret tt
                end) Q w).
  { intros Q HQ. destruct replay_speed; [by apply wp_setattr|by apply wp_ret]. }
  apply Hfirst. clear Hfirst. generalize w1. clear w w1. intros w.
  apply wp_bind, wp_setattr.
  apply wp_bind, wp_attr_arr_inv; [|by intros; simplify_eq].
  simpl. intros lc centers Hlc Hcenters.
  rewrite lookup_insert_ne in Hlc by done.
  apply wp_bind, (wp_attr_types _ types); [by simpl; rewrite lookup_insert_eq|].
  apply wp_bind. unfold setattr_new. apply wp_bind, wp_alloc.
  intros l Hl. simpl in Hl. assert (lc <> l) by congruence.
  apply wp_setattr. simpl.
  apply wp_bind, (wp_attr_types _ types);
    [by simpl; rewrite lookup_insert_ne, lookup_insert_eq|].
  set (fixed := <["continuous_state_transition_"%string := PRef l]>
                  (<["continuous_transition_types"%string := PTypes types]> (attrs w))).
  set (heap0 := <[l := OArr4 (replicate (length types)
                            (replicate (length types)
                               (zeros (shape0 centers) (shape0 centers))))]>
                  (heap w)).
  set (w0 := World fixed heap0).
  assert (Hfixed_centers : fixed !! "place_bin_centers_"%string = Some (PRef lc)).
  { unfold fixed. by rewrite !lookup_insert_ne. }
  assert (Hfixed_tensor : fixed !! "continuous_state_transition_"%string
                          = Some (PRef l)).
  { unfold fixed. by rewrite lookup_insert_eq. }
  assert (Hcenters0 : heap0 !! lc = Some (OArr centers)).
  { unfold heap0. by rewrite lookup_insert_ne. }
  set (G := E -> empirical_leak_free position flags w0).
  assert (Hstart : filling G fixed lc centers (fitted_edges w0) l w0).
  { split; [done|]. split; [done|]. split; [done|].
    eexists. split; [apply lookup_insert_eq|]. intros _. apply zeros_good. }
  assert (Hcells : forall row_ind column_ind transition_type w2,
            leak_free transition_type \/
            (transition_type = "empirical_movement"%string /\ E) ->
            filling G fixed lc centers (fitted_edges w0) l w2 ->
            wp (builder ← lift (getitem CONTINUOUS_TRANSITIONS transition_type);
                place_bin_centers_ ← attr_arr "place_bin_centers_";
                is_track_interior_ ← attr_boolarr "is_track_interior_";
                edges_ ← attr_arrays "edges_";
                speed ← attr_int "replay_speed";
                position_range ← attr_range "position_range";
                movement_var ← attr_cov "movement_var";
                ind_to_node ← getattr "place_bin_center_ind_to_node_";
                distance ← getattr "distance_between_nodes_";
                value ← lift (builder (TransitionArgs place_bin_centers_
                                         is_track_interior_ position edges_
                                         (squeeze_flags flags) speed position_range
                                         movement_var ind_to_node distance));
                l ← attr_ref "continuous_state_transition_";
                tensor ← load_arr4 l;
                tensor ← lift (assign_cell tensor row_ind column_ind value);
                store l (OArr4 tensor))
               (fun r w' => r = Ok tt ->
                  filling G fixed lc centers (fitted_edges w0) l w') w2).
  { intros row_ind column_ind transition_type w2 [Hleak|[-> HE]] Hw2.
    - destruct (leak_free_builder transition_type Hpdf Hleak)
        as (builder & Hget & Hbuilder).
      apply (fill_cell_wp G fixed lc centers _ l _ _ _ _ _ builder); try done.
      intros _ interior edges speed position_range movement_var ind_to_node
        distance m _ _ Hm.
      exact (Hbuilder _ m Hm).
    - eapply (fill_cell_wp G fixed lc centers _ l);
        [done|done|done|reflexivity| |done].
      intros HG interior edges speed position_range movement_var ind_to_node
        distance m Hedges Hspeed Hm.
      destruct (HG HE edges centers speed) as [Hgrid Hkept].
      + by symmetry.
      + unfold fitted_centers, w0. cbn [attrs heap].
        by rewrite Hfixed_centers, Hcenters0.
      + unfold fitted_speed, w0. cbn [attrs]. by rewrite Hspeed.
      + cbn [ta_is_training ta_position ta_edges ta_replay_speed
               ta_position_range] in Hm.
        rewrite <- Hgrid.
        destruct flags as [|flag [|flag' flags']]; simpl in Hm;
          [|discriminate|]; by eapply empirical_movement_kept. }
  assert (Hcenters_fitted : fitted_centers w0 = Some centers).
  { unfold fitted_centers, w0. cbn [attrs heap].
    by rewrite Hfixed_centers, Hcenters0. }
  eapply wp_mono;
    [|apply (wp_for_each (filling G fixed lc centers (fitted_edges w0) l)
               (fun entry =>
                  Forall (fun transition_type =>
                            leak_free transition_type \/
                            (transition_type = "empirical_movement"%string /\ E))
                         (snd entry)))].
  - intros r w' Hfill Hr.
    destruct (Hfill Hr) as (Hattrs & Hcenters' & Hedges & tensor & Htensor & Hgood).
    exists l, tensor, (shape0 centers). split.
    { split; [by rewrite Hattrs|done]. }
    intros Hleak. apply Hgood. intros HE.
    apply (empirical_leak_free_same position flags w'); [| | |by apply Hleak].
    + done.
    + rewrite Hcenters_fitted. unfold fitted_centers.
      by rewrite Hattrs, Hfixed_centers, Hcenters'.
    + unfold fitted_speed. by rewrite Hattrs.
  - intros [row_ind row] w3 Hrow Hw3. simpl in Hrow.
    apply (wp_for_each (filling G fixed lc centers (fitted_edges w0) l)
             (fun entry =>
                leak_free (snd entry) \/
                (snd entry = "empirical_movement"%string /\ E)));
      [|exact (Forall_enumerate _ _ Hrow)|done].
    intros [column_ind transition_type] w4 Hty Hw4.
    by apply Hcells.
  - by apply Forall_enumerate.
  - done.
Qed.

(** The later steps of [fit] leave the grid and the replay speed alone. *)
Lemma assigns_empirical_leak_free position flags w0 w :
  assigns model_attributes w0 w ->
  empirical_leak_free position flags w -> empirical_leak_free position flags w0.
Proof.
  intros [Hattrs Hheap] Hleak edges centers speed Hedges Hcenters Hspeed.
  apply Hleak.
  - revert Hedges. unfold fitted_edges. rewrite Hattrs by compute_done.
    destruct (attrs w0 !! "edges_"%string) as [[| | | | | | | | | |l]|]; try done.
    destruct (heap w0 !! l) as [o|] eqn:Hl; [|done].
    by rewrite (lookup_weaken _ _ _ _ Hl Hheap).
  - revert Hcenters. unfold fitted_centers. rewrite Hattrs by compute_done.
    destruct (attrs w0 !! "place_bin_centers_"%string)
      as [[| | | | | | | | | |l]|]; try done.
    destruct (heap w0 !! l) as [o|] eqn:Hl; [|done].
    by rewrite (lookup_weaken _ _ _ _ Hl Hheap).
  - revert Hspeed. unfold fitted_speed. by rewrite Hattrs by compute_done.
Qed.

Lemma fit_discrete_state_transition_assigns :
  assigning model_attributes (fit_discrete_state_transition None).
Proof. unfold fit_discrete_state_transition. assigning_tac. Qed.

Lemma fit_place_fields_assigns position spikes is_training :
  assigning model_attributes (fit_place_fields position spikes is_training).
Proof. unfold fit_place_fields. assigning_tac. Qed.

Lemma fit_multiunits_assigns position multiunits is_training :
  assigning model_attributes (fit_multiunits position multiunits is_training).
Proof. unfold fit_multiunits. assigning_tac. Qed.

Lemma fit_tail_wp (E : Prop) (observation_model : M unit) position is_training
    types track_graph center_well_id edge_order edge_spacing is_track_interior w :
  (forall mean cov x, 0 < multivariate_normal_pdf mean cov x) ->
  (forall l tensor w1, tensor_at l tensor w1 ->
     wp observation_model (fun _ w' => tensor_at l tensor w') w1) ->
  assigning model_attributes observation_model ->
  attrs w !! "continuous_transition_types"%string = Some (PTypes types) ->
  Forall (Forall (fun transition_type =>
                    leak_free transition_type \/
                    (transition_type = "empirical_movement"%string /\ E))) types ->
  wp (self_infer ← attr_bool "infer_track_interior";
      fit_place_grid position track_graph center_well_id edge_order edge_spacing
        self_infer is_track_interior;;
      fit_initial_conditions position;;
      types ← attr_types "continuous_transition_types";
      fit_continuous_state_transition position is_training None types;;
      fit_discrete_state_transition None;;
      observation_model)
     (fun r w' => r = Ok tt ->
        (E -> empirical_leak_free position
                (training_flags position is_training) w') ->
        transition_rows_sum_to_1_or_0 w') w.
Proof.
  intros Hpdf Hmodel Hassigns Htypes Hkept.
  wp_read self_infer.
  apply wp_bind. eapply wp_mono; [|apply fit_place_grid_keeps_types].
  intros [[]|e] w1 Hw1; [|discriminate]. rewrite Htypes in Hw1.
  apply wp_bind. eapply wp_mono; [|apply fit_initial_conditions_keeps_types].
  intros [[]|e] w2 Hw2; [|discriminate]. rewrite Hw1 in Hw2.
  apply wp_bind, (wp_attr_types _ types); [done|].
  apply wp_bind.
  eapply wp_mono; [|by apply (fit_continuous_state_transition_wp E)].
  intros [[]|e] w3 Hw3; [|discriminate].
  destruct (Hw3 eq_refl) as (l & tensor & n & Htensor & Hgood).
  apply wp_bind.
  eapply wp_mono;
    [|apply wp_conj;
      [by apply (fit_discrete_state_transition_keeps l tensor)
      |apply (fit_discrete_state_transition_assigns w3), assigns_refl]].
  intros [[]|e] w4 [Htensor4 Hassigns4]; [|discriminate].
  eapply wp_mono;
    [|apply wp_conj; [by apply (Hmodel l tensor)|by apply (Hassigns w3)]].
  intros r w5 [Htensor5 Hassigns5] _ Hleak.
  exists tensor. split; [exact (tensor_at_fitted l _ _ Htensor5)|].
  eapply good_tensor_rows, Hgood. intros HE.
  by eapply assigns_empirical_leak_free, Hleak.
Qed.

(** C1 (amended).  With a density that is positive everywhere and a replay
    speed [>= 0]: when [fit_continuous_state_transition] returns, and when
    [fit] of either classifier returns, every row of every (from-regime,
    to-regime) slice of [continuous_state_transition_] sums to 1 or to 0,
    provided that the [empirical_movement] slices of the grid, if there are
    any, lose no mass: the replay speed is at most 1, or the movement matrix
    at replay speed 1 has no mass in the column of a bin whose own row is 0
    (and the edges have one bin per bin centre).  The other four transition
    types need no condition.  The matrix that [empirical_movement] returns
    is the power of the matrix at replay speed 1, whose rows sum to 1 or to
    0, and its own rows sum to 1 or to 0 under the same condition. *)
Theorem fitted_transition_rows_sum_to_1_or_0 :
  (forall mean cov x, 0 < multivariate_normal_pdf mean cov x) ->
  (forall w position is_training replay_speed types w',
     Forall (Forall (rows_kept position (training_flags position is_training) w'))
       types ->
     fit_continuous_state_transition position is_training replay_speed types w
     = (Ok tt, w') ->
     transition_rows_sum_to_1_or_0 w') /\
  (forall w position spikes is_training is_track_interior track_graph
          center_well_id edge_order edge_spacing types w',
     attrs w !! "continuous_transition_types"%string = Some (PTypes types) ->
     Forall (Forall (rows_kept (atleast_2d position)
                       (training_flags (atleast_2d position) is_training) w'))
       types ->
     SortedSpikesClassifier_fit position spikes is_training is_track_interior
       track_graph center_well_id edge_order edge_spacing w = (Ok tt, w') ->
     transition_rows_sum_to_1_or_0 w') /\
  (forall w position multiunits is_training is_track_interior track_graph
          center_well_id edge_order edge_spacing types w',
     attrs w !! "continuous_transition_types"%string = Some (PTypes types) ->
     Forall (Forall (rows_kept (atleast_2d position)
                       (training_flags (atleast_2d position) is_training) w'))
       types ->
     ClusterlessClassifier_fit position multiunits is_training is_track_interior
       track_graph center_well_id edge_order edge_spacing w = (Ok tt, w') ->
     transition_rows_sum_to_1_or_0 w') /\
  (forall position edges is_training replay_speed
          (position_range : option (list (option (Qc * Qc)))) m,
     StateTransition.empirical_movement position edges is_training replay_speed
       position_range = Ok m ->
     exists t,
       StateTransition.empirical_movement position edges is_training 1
         position_range = Ok t /\
       m = matrix_power t replay_speed /\
       rows_sum_to_1_or_0 t /\
       ((replay_speed <= 1)%nat \/ no_mass_into_zero_rows t ->
        has_shape (n_grid_bins edges) (n_grid_bins edges) m /\
        rows_sum_to_1_or_0 m)).
Proof.
  intros Hpdf. split; [|split; [|split]].
  - intros w position is_training replay_speed types w' Hkept Hrun.
    pose proof (fit_continuous_state_transition_wp _ position is_training
                  replay_speed types w Hpdf Hkept) as Hwp.
    destruct (wp_run _ _ _ _ _ Hwp Hrun eq_refl)
      as (l & tensor & n & Htensor & Hgood).
    exists tensor. split; [by eapply tensor_at_fitted|].
    by eapply good_tensor_rows, Hgood.
  - intros w position spikes is_training is_track_interior track_graph
      center_well_id edge_order edge_spacing types w' Htypes Hkept Hrun.
    unfold SortedSpikesClassifier_fit in Hrun.
    refine (wp_run _ _ _ _ _ (fit_tail_wp _ _ _ _ types _ _ _ _ _ _ Hpdf _ _
                                Htypes Hkept) Hrun eq_refl (fun H => H)).
    + intros l tensor w1 Hw1. by apply fit_place_fields_keeps.
    + apply fit_place_fields_assigns.
  - intros w position multiunits is_training is_track_interior track_graph
      center_well_id edge_order edge_spacing types w' Htypes Hkept Hrun.
    unfold ClusterlessClassifier_fit in Hrun.
    refine (wp_run _ _ _ _ _ (fit_tail_wp _ _ _ _ types _ _ _ _ _ _ Hpdf _ _
                                Htypes Hkept) Hrun eq_refl (fun H => H)).
    + intros l tensor w1 Hw1. by apply fit_multiunits_keeps.
    + apply fit_multiunits_assigns.
  - intros position edges is_training replay_speed position_range m Hm.
    destruct (empirical_movement_one_step _ _ _ _ _ _ Hm)
      as (t & Ht & Hnone & Hpower & Hshape & Hrows).
    exists t. split; [done|]. split; [done|]. split; [done|].
    intros Hkept. apply (empirical_movement_kept _ _ _ _ _ _ Hm).
    destruct Hkept as [?|Hcol]; [by left|right].
    intros t' Ht'. by replace t' with t by congruence.
Qed.

End Methods.

(** ** Concrete runs

    The methods run on the inputs above. *)

Section Runs.
Import Classifier Xr.

Existing Instance bump_density.
Existing Instance small_track.

Lemma bump_density_positive mean cov x : 0 < multivariate_normal_pdf mean cov x.
Proof. simpl. by destruct (decide (mean = x)). Qed.

Lemma run_eq {A} (m : M A) (w : world) (a : A) :
  fst (m w) = Ok a -> m w = (Ok a, snd (m w)).
Proof. destruct (m w) as [r w']. simpl. by intros ->. Qed.

Example fit_default_returns : fst (fit_default default_classifier) = Ok tt.
Proof. vm_compute. reflexivity. Qed.

Example fit_back_and_forth_returns :
  fst (fit_back_and_forth empirical_classifier) = Ok tt.
Proof. vm_compute. reflexivity. Qed.

Lemma fitted_transition_rows_sum_to_1_or_0_witness :
  transition_rows_sum_to_1_or_0 fitted_default /\
  transition_rows_sum_to_1_or_0 fitted_back_and_forth.
Proof.
  split.
  - apply (proj1 (proj2 (fitted_transition_rows_sum_to_1_or_0
                           bump_density_positive))
             default_classifier track_position spike_counts None None None None
             None tt _DEFAULT_CONTINUOUS_TRANSITIONS).
    + vm_compute. reflexivity.
    + unfold rows_kept, leak_free. repeat constructor; by vm_compute.
    + exact (run_eq fit_default default_classifier tt fit_default_returns).
  - apply (proj1 (proj2 (fitted_transition_rows_sum_to_1_or_0
                           bump_density_positive))
             empirical_classifier back_and_forth spike_counts None None None None
             None tt [["empirical_movement"%string]]).
    + vm_compute. reflexivity.
    + apply Forall_cons; split; [|apply Forall_nil_2].
      apply Forall_cons; split; [|apply Forall_nil_2].
      right. split; [reflexivity|].
      intros edges centers speed Hedges Hcenters Hspeed.
      assert (He : fitted_edges fitted_back_and_forth
                   = Some [[qz 0; qz 2; qz 4]]) by (vm_compute; reflexivity).
      assert (Hc : fitted_centers fitted_back_and_forth
                   = Some (Arr2 1 [[qz 1]; [qz 3]])) by (vm_compute; reflexivity).
      rewrite He in Hedges. rewrite Hc in Hcenters.
      injection Hedges as <-. injection Hcenters as <-.
      split; [reflexivity|]. right. intros t Ht.
      assert (Hmove : StateTransition.empirical_movement (R:=unit)
                        (atleast_2d back_and_forth) [[qz 0; qz 2; qz 4]]
                        (Some (training_flags (atleast_2d back_and_forth) None))
                        1 None
                      = Ok [[0; 1]; [1; 0]]) by (vm_compute; reflexivity).
      rewrite Hmove in Ht. injection Ht as <-.
      intros [|[|j]] row Hrow Hsum; [| |discriminate];
        injection Hrow as <-; revert Hsum; compute_done.
    + exact (run_eq fit_back_and_forth empirical_classifier tt
               fit_back_and_forth_returns).
Defined.

(** C1 as stated fails: [fit] returns, and row 0 of the only slice of the
    fitted tensor sums to 1/2. *)
Lemma fitted_empirical_row_sums_to_half :
  fst (fit_default empirical_classifier) = Ok tt /\
  fitted_tensor fitted_empirical = Some [[[[qfrac 1 4; qfrac 1 4]; [0; 0]]]] /\
  sum [qfrac 1 4; qfrac 1 4] = qfrac 1 2 /\
  ~ transition_rows_sum_to_1_or_0 fitted_empirical.
Proof.
  assert (Htensor : fitted_tensor fitted_empirical
                    = Some [[[[qfrac 1 4; qfrac 1 4]; [0; 0]]]]) by compute_done.
  split; [compute_done|]. split; [exact Htensor|]. split; [compute_done|].
  intros (tensor & Hfitted & Hrows). rewrite Htensor in Hfitted.
  injection Hfitted as <-.
  apply Forall_cons in Hrows as [Hrows _].
  apply Forall_cons in Hrows as [Hrows _].
  apply Forall_cons in Hrows as [[Hone | Hzero] _].
  - revert Hone. compute_done.
  - revert Hzero. compute_done.
Qed.

(** *** The training mask of [empirical_movement] *)


(** *** The supplied mask *)

(** [fit] with a mask on a new classifier: the mask is never stored, and
    [fit_initial_conditions] finds no [is_track_interior_]. *)
Example fit_with_supplied_mask_raises :
  fst (SortedSpikesClassifier_fit track_position spike_counts None
         (Some (Bool1 [true; false])) None None None tt default_classifier)
  = Raise AttributeError.
Proof. vm_compute. reflexivity. Qed.

(** [fit] again, now with a mask, on the fitted classifier: it returns, and
    the classifier still has the mask inferred by the first fit. *)
Example refit_with_supplied_mask_keeps_old_mask :
  let refit := SortedSpikesClassifier_fit track_position spike_counts None
                 (Some (Bool1 [true; false])) None None None tt fitted_default in
  fst refit = Ok tt /\
  fitted_mask fitted_default = Some (Bool1 [true; true]) /\
  fitted_mask (snd refit) = Some (Bool1 [true; true]).
Proof. vm_compute. by repeat split. Qed.

Lemma supplied_mask_is_not_used_witness :
  exists e,
    fst (SortedSpikesClassifier_fit track_position spike_counts None
           (Some (Bool1 [true; false])) None None None tt default_classifier)
    = Raise e.
Proof.
  apply (proj2 supplied_mask_is_not_used). vm_compute. reflexivity.
Defined.

(** *** Initial conditions *)

Lemma fit_initial_conditions_uniform_witness :
  (exists w' l ic,
     fit_initial_conditions track_position gridded_default = (Ok tt, w') /\
     attrs w' !! "initial_conditions_"%string = Some (PRef l) /\
     heap w' !! l = Some (OArr3 ic) /\
     length ic = 3%nat /\
     uniform_over_interior [true; true] ic) /\
  fitted_initial_conditions fitted_default.
Proof.
  split.
  - eapply (proj1 fit_initial_conditions_uniform gridded_default track_position
              _DEFAULT_CONTINUOUS_TRANSITIONS _ (Arr2 1 [[qz 1]; [qz 3]]) _
              (Bool1 [true; true])).
    + vm_compute. reflexivity.
    + vm_compute. lia.
    + vm_compute. reflexivity.
    + vm_compute. reflexivity.
    + vm_compute. reflexivity.
    + vm_compute. reflexivity.
    + vm_compute. lia.
  - exact (proj1 (proj2 fit_initial_conditions_uniform) default_classifier
             track_position spike_counts None None None None None tt fitted_default
             (run_eq fit_default default_classifier tt fit_default_returns)).
Defined.

(** *** Posteriors *)

Example predict_default_returns :
  fst (predict_default fitted_default) = Ok posterior_default.
Proof. vm_compute. reflexivity. Qed.

Lemma acausal_equals_causal_at_final_time_witness :
  final_posteriors_agree posterior_default.
Proof.
  apply (proj1 acausal_equals_causal_at_final_time fitted_default 2%nat
           [[qz 0]; [qz 1]] None posterior_default
           (snd (predict_default fitted_default))).
  - do 4 eexists.
    split; [vm_compute; reflexivity|].
    split; [vm_compute; reflexivity|].
    split; [vm_compute; reflexivity|].
    split; [vm_compute; reflexivity|].
    split; [vm_compute; reflexivity|].
    repeat (apply Forall_cons; split; [vm_compute; reflexivity|]).
    apply Forall_nil_2.
  - intros place_fields interior likelihood [= <-]. simpl.
    split; [reflexivity|]. by repeat constructor.
  - simpl. lia.
  - exact (run_eq predict_default fitted_default posterior_default
             predict_default_returns).
Defined.

(** *** Marginals *)

Lemma predict_proba_spec_witness :
  predict_proba results_1d = Ok (reduce ["position"%string] results_1d).
Proof.
  apply (predict_proba_spec results_1d).
  - intros [Hx _]. revert Hx. vm_compute.
    intros Hx. repeat (apply elem_of_cons in Hx as [Hx | Hx]; [discriminate|]).
    by apply elem_of_nil in Hx.
  - compute_done.
Defined.

(** *** Transition builders *)

Lemma fix_zero_bins_restores_row_sums_witness :
  exists fixed,
    StateTransition._fix_zero_bins [[0; 0]; [qz 1; qz 3]] = Ok fixed /\
    has_shape 2 2 fixed /\
    (forall i row, [[0; 0]; [qz 1; qz 3]] !! i = Some row ->
       fixed !! i = Some (if decide (sum row = 0)
                          then replicate 2 (1 / of_nat 2) else row)) /\
    forall k,
      Forall (fun row => sum row = 1)
        (matrix_power (StateTransition._normalize_row_probability fixed) k).
Proof.
  apply (proj2 fix_zero_bins_restores_row_sums 2%nat [[0; 0]; [qz 1; qz 3]]).
  - lia.
  - split; [reflexivity|]. by repeat constructor.
Defined.

Lemma empirical_movement_substochastic_witness :
  length [[qz 0; qz 2; qz 4]] = n_position_dims (Arr1 [qz 3; qz 1; qz 1]) /\
  has_shape (n_grid_bins [[qz 0; qz 2; qz 4]]) (n_grid_bins [[qz 0; qz 2; qz 4]])
    [[qfrac 1 4; qfrac 1 4]; [0; 0]] /\
  substochastic [[qfrac 1 4; qfrac 1 4]; [0; 0]].
Proof.
  apply (empirical_movement_substochastic (R:=unit) (Arr1 [qz 3; qz 1; qz 1])
           [[qz 0; qz 2; qz 4]] None 2 None).
  vm_compute. reflexivity.
Defined.

Lemma empirical_movement_without_movement_witness :
  has_shape (n_grid_bins [[qz 0; qz 2; qz 4]]) (n_grid_bins [[qz 0; qz 2; qz 4]])
    [[0; 0]; [0; 0]] /\
  Forall (Forall (fun a => a = 0)) [[0; 0]; [0; 0]].
Proof.
  apply (empirical_movement_without_movement (R:=unit) (Arr1 [qz 3; qz 1; qz 1])
           [[qz 0; qz 2; qz 4]] [true; false; false] 2 None (Arr1 [qz 3])).
  - vm_compute. reflexivity.
  - simpl. lia.
  - lia.
  - vm_compute. reflexivity.
Defined.

Lemma empirical_movement_rejects_witness :
  StateTransition.empirical_movement (R:=unit) (Arr1 [qz 3; qz 1; qz 1])
    [[qz 0; qz 2; qz 4]] (Some [true; false]) 2 None = Raise IndexError /\
  StateTransition.empirical_movement (R:=unit) (Arr1 [qz 3; qz 1; qz 1])
    [[qz 0; qz 2; qz 4]; [qz 0; qz 2]] (Some [true; true; true]) 2 None
  = Raise ValueError.
Proof.
  split.
  - apply (proj1 (empirical_movement_rejects (R:=unit) (Arr1 [qz 3; qz 1; qz 1])
                    [[qz 0; qz 2; qz 4]] [true; false] 2 None)).
    simpl. lia.
  - apply (proj2 (empirical_movement_rejects (R:=unit) (Arr1 [qz 3; qz 1; qz 1])
                    [[qz 0; qz 2; qz 4]; [qz 0; qz 2]] [true; true; true] 2 None)).
    + reflexivity.
    + simpl. lia.
Defined.

Lemma normalize_row_probability_idempotent_witness :
  StateTransition._normalize_row_probability
    (StateTransition._normalize_row_probability [[qz 1; qz 3]; [0; 0]])
  = StateTransition._normalize_row_probability [[qz 1; qz 3]; [0; 0]] /\
  substochastic (StateTransition._normalize_row_probability [[qz 1; qz 3]; [0; 0]]).
Proof.
  apply (normalize_row_probability_idempotent [[qz 1; qz 3]; [0; 0]]).
  apply Forall_cons; split; [|apply Forall_cons; split; [|apply Forall_nil_2]];
    (apply Forall_cons; split;
     [by vm_compute|apply Forall_cons; split; [by vm_compute|apply Forall_nil_2]]).
Defined.

Lemma random_walk_rows_sum_to_1_witness :
  (exists m,
     StateTransition.random_walk [[qz 1]; [qz 3]] (qz 1) 3 = Ok m /\
     has_shape 2 2 m /\
     Forall (fun row => sum row = 1) m) /\
  StateTransition.random_walk [[qz 1]] (qz 1) 3 = Raise AxisError.
Proof.
  split.
  - destruct (random_walk_rows_sum_to_1 (H:=bump_density) [[qz 1]; [qz 3]] (qz 1) 3
                bump_density_positive) as (Hrows & Hreturns & _).
    destruct Hreturns as [m Hm].
    + simpl. lia.
    + apply Forall_cons; split; [vm_compute; reflexivity|].
      apply Forall_cons; split; [vm_compute; reflexivity|apply Forall_nil_2].
    + exists m. split; [exact Hm|].
      destruct (Hrows m Hm) as (_ & _ & Hshape & Hsum). by split.
  - apply (proj2 (proj2 (proj2 (random_walk_rows_sum_to_1 (H:=bump_density)
                                  [[qz 1]] (qz 1) 3 bump_density_positive)))
             [qz 1]).
    + reflexivity.
    + vm_compute. reflexivity.
Defined.

Lemma absorbing_boundaries_respect_track_witness :
  exists m,
    StateTransition.random_walk_with_absorbing_boundaries
      [[qz 1]; [qz 3]; [qz 5]] (qz 1) (Bool1 [true; false; true]) 2 = Ok m /\
    zero_outside [true; false; true] m /\
    forall i row, m !! i = Some row -> [true; false; true] !! i = Some true ->
      sum row = 1.
Proof.
  eexists. split; [vm_compute; reflexivity|].
  apply (proj1 (absorbing_boundaries_respect_track (H:=bump_density)
                  [[qz 1]; [qz 3]; [qz 5]] (qz 1)
                  (Bool1 [true; false; true]) bump_density_positive) 2%nat).
  - lia.
  - vm_compute. reflexivity.
Defined.

Lemma identity_stays_on_track_witness :
  exists m,
    StateTransition.identity [[qz 1]; [qz 3]; [qz 5]] (Bool1 [true; false; true])
    = Ok m /\
    has_shape 3 3 m /\
    forall i j row a, m !! i = Some row -> row !! j = Some a ->
      a = if bool_decide (i = j /\ [true; false; true] !! i = Some true)
          then 1 else 0.
Proof.
  eexists. split; [vm_compute; reflexivity|].
  apply (identity_stays_on_track [[qz 1]; [qz 3]; [qz 5]]
           (Bool1 [true; false; true])).
  vm_compute. reflexivity.
Defined.

Lemma masked_builders_need_one_flag_per_bin_witness :
  ((exists m, StateTransition.uniform_state_transition [[qz 1]; [qz 3]]
                (Bool1 [true; false]) = Ok m) /\
   (exists m, StateTransition.identity [[qz 1]; [qz 3]] (Bool1 [true; false])
              = Ok m) /\
   (exists m, StateTransition.random_walk_with_absorbing_boundaries
                [[qz 1]; [qz 3]] (qz 1) (Bool1 [true; false]) 2 = Ok m)) /\
  (StateTransition.uniform_state_transition [[qz 1]; [qz 3]] (Bool1 [true])
   = Raise IndexError /\
   StateTransition.identity [[qz 1]; [qz 3]] (Bool1 [true]) = Raise IndexError /\
   StateTransition.random_walk_with_absorbing_boundaries
     [[qz 1]; [qz 3]] (qz 1) (Bool1 [true]) 2 = Raise IndexError) /\
  StateTransition.random_walk_with_absorbing_boundaries
    [[qz 1]] (qz 1) (Bool1 [true]) 2 = Raise AxisError.
Proof.
  assert (Haccepted : Forall (fun bin => multivariate_normal_error bin (qz 1) = None)
                        [[qz 1]; [qz 3]]).
  { apply Forall_cons; split; [vm_compute; reflexivity|].
    apply Forall_cons; split; [vm_compute; reflexivity|apply Forall_nil_2]. }
  split; [|split].
  - destruct (proj1 (masked_builders_need_one_flag_per_bin (H:=bump_density)
                       [[qz 1]; [qz 3]] (qz 1) (Bool1 [true; false]) 2))
      as (Huniform & Hidentity & Hwalk); [reflexivity|].
    split; [exact Huniform|]. split; [exact Hidentity|].
    apply Hwalk; [simpl; lia|exact Haccepted].
  - destruct (proj1 (proj2 (masked_builders_need_one_flag_per_bin
                              (H:=bump_density) [[qz 1]; [qz 3]] (qz 1)
                              (Bool1 [true]) 2)))
      as (Huniform & Hidentity & Hwalk); [simpl; lia|].
    split; [exact Huniform|]. split; [exact Hidentity|].
    apply Hwalk; [simpl; lia|exact Haccepted].
  - apply (proj1 (proj2 (proj2 (proj2 (masked_builders_need_one_flag_per_bin
                                         (H:=bump_density) [[qz 1]] (qz 1)
                                         (Bool1 [true]) 2))))
             [qz 1]).
    + reflexivity.
    + vm_compute. reflexivity.
Defined.

Lemma uniform_discrete_rows_witness :
  has_shape 2 2 (StateTransition.uniform_discrete 2) /\
  Forall (Forall (fun a => a = 1 / of_nat 2)) (StateTransition.uniform_discrete 2) /\
  Forall (fun row => sum row = 1) (StateTransition.uniform_discrete 2).
Proof. apply (uniform_discrete_rows 2). lia. Defined.

Lemma strong_diagonal_discrete_any_diag_witness :
  exists m,
    StateTransition.strong_diagonal_discrete 3 (qz 2) = Ok m /\
    has_shape 3 3 m /\
    (forall i row, m !! i = Some row -> row !! i = Some (qz 2)) /\
    (forall i j row x, m !! i = Some row -> row !! j = Some x -> i <> j ->
       x = (1 - qz 2) / of_nat (3 - 1) /\ (1 < qz 2 -> x < 0)).
Proof. apply (strong_diagonal_discrete_any_diag 3 (qz 2)). lia. Defined.

(** *** Methods *)

Lemma predict_returns_labelled_dataset_witness : predicted true posterior_default.
Proof.
  exact (proj1 predict_returns_labelled_dataset [[qz 0]; [qz 1]] None true
           fitted_default posterior_default (snd (predict_default fitted_default))
           (run_eq predict_default fitted_default posterior_default
              predict_default_returns)).
Defined.

Lemma predict_proba_of_predict_witness :
  exists out, predict_proba posterior_default = Ok out /\
              marginal_of posterior_default out.
Proof.
  exact (proj1 predict_proba_of_predict [[qz 0]; [qz 1]] None true
           fitted_default posterior_default (snd (predict_default fitted_default))
           (run_eq predict_default fitted_default posterior_default
              predict_default_returns)).
Defined.

Lemma observation_models_see_training_samples_witness :
  fit_place_fields track_position spike_counts (Some [true; false; true])
    gridded_default
  = fit_place_fields (Arr1 [qz 4; qz 1]) [[qz 0]; [qz 0]] None gridded_default /\
  fit_place_fields track_position spike_counts (Some [true; false])
    gridded_default
  = (Raise IndexError, gridded_default).
Proof.
  split.
  - apply (proj1 observation_models_see_training_samples track_position
             spike_counts [true; false; true] (Arr1 [qz 4; qz 1])
             [[qz 0]; [qz 0]]).
    + simpl. lia.
    + simpl. lia.
    + vm_compute. reflexivity.
    + vm_compute. reflexivity.
  - apply (proj1 (proj2 (proj2 observation_models_see_training_samples))
             track_position spike_counts [] [true; false] gridded_default).
    + simpl. lia.
    + simpl. lia.
Defined.

Example fit_continuous_state_transition_returns :
  fst (fit_continuous_state_transition track_position None None
         _DEFAULT_CONTINUOUS_TRANSITIONS gridded_default) = Ok tt.
Proof. vm_compute. reflexivity. Qed.

Lemma fit_continuous_state_transition_tensor_shape_witness :
  exists lc centers l tensor,
    let w' := snd (fit_continuous_state_transition track_position None None
                     _DEFAULT_CONTINUOUS_TRANSITIONS gridded_default) in
    attrs w' !! "place_bin_centers_"%string = Some (PRef lc) /\
    heap w' !! lc = Some (OArr centers) /\
    tensor_at l tensor w' /\
    transition_tensor_shape 3 (shape0 centers) tensor /\
    attrs w' !! "continuous_transition_types"%string
    = Some (PTypes _DEFAULT_CONTINUOUS_TRANSITIONS) /\
    Forall (fun row => (length row <= 3)%nat) _DEFAULT_CONTINUOUS_TRANSITIONS.
Proof.
  exact (fit_continuous_state_transition_tensor_shape track_position None None
           _DEFAULT_CONTINUOUS_TRANSITIONS gridded_default _
           (run_eq _ gridded_default tt fit_continuous_state_transition_returns)).
Defined.

(** A sorted-spikes classifier configured with an empty grid of transition
    types. *)
Lemma empty_transition_types_raise_witness :
  fst (SortedSpikesClassifier_fit track_position spike_counts None None None None
         None tt
         (snd (SortedSpikesClassifier_init (qz 2) 40 (qfrac 1 20) None []
                 "strong_diagonal" "uniform_on_track" (qz 10) (qz 10)
                 _DISCRETE_DIAG true new_world)))
  <> Ok tt.
Proof.
  apply (proj1 (proj2 empty_transition_types_raise)).
  vm_compute. reflexivity.
Defined.

Lemma unfitted_classifier_raises_witness :
  SortedSpikesClassifier_predict [[qz 0]; [qz 1]] None true default_classifier
  = (Raise AttributeError, default_classifier) /\
  ClusterlessClassifier_predict [[[qz 0]]] None true default_classifier
  = (Raise AttributeError, default_classifier).
Proof.
  apply (proj1 unfitted_classifier_raises). vm_compute. reflexivity.
Defined.


Example fit_place_grid_returns :
  fst (fit_place_grid track_position None None None tt true None default_classifier)
  = Ok tt.
Proof. vm_compute. reflexivity. Qed.

Lemma fit_place_grid_without_graph_witness :
  exists size range old edges place_bin_edges centers shape l interior,
    attrs default_classifier !! "place_bin_size"%string = Some (PFloat size) /\
    attrs default_classifier !! "infer_track_interior"%string = Some (PBool old) /\
    get_grid track_position size range old
    = Ok (edges, place_bin_edges, centers, shape) /\
    attrs gridded_default !! "infer_track_interior"%string = Some (PBool true) /\
    attrs gridded_default !! "centers_shape_"%string = Some (PShape shape) /\
    attrs gridded_default !! "is_track_interior_"%string = Some (PRef l) /\
    heap gridded_default !! l = Some (OBool interior) /\
    get_track_interior track_position edges = Ok interior.
Proof.
  exact (fit_place_grid_without_graph track_position None None tt true
           default_classifier gridded_default
           (run_eq _ default_classifier tt fit_place_grid_returns)).
Defined.


End Runs.
